(** * kvs: an ordered key-value store with TTLs, transactions and a replay log

    Shallow embedding of [src/db.py] (class [KVStore] and the dispatcher
    [main]) and the properties of its command surface.

    Modelling conventions.
    - Python [str] values are [string]s (sequences of bytes; for UTF-8 text
      the bytewise lexicographic order used here coincides with Python's
      code-point order).  [isspace], [strip], [split] and [upper] are those
      of [str] on seven-bit text; a property that reads a line through them
      is stated for such text, or for lines on which a non-ASCII character
      cannot change the answer.
    - [self.data] is a [list] of triples [(key, value, ttl)]; [ttl] is
      [None] or an absolute deadline.
    - Numbers produced by [time.time() * 1000] and [float(...)] are
      integers of milliseconds ([Z]), with exact arithmetic and comparisons.
      Python computes them as floats: fractional values, infinities and NaN
      are outside the model, and with them the truncation done by [int] in
      the reply of TTL and its exception on a value that is not finite.  The
      theorems below avoid them: none states the numeric reply of TTL for a
      time left that is fractional or not finite, or that TTL returns on a
      deadline that is not finite.
    - The wall clock is an oracle [clock : nat -> Z] giving the value of the
      n-th reading; the store counts the readings taken so far.
    - The builtin [float] is a parameter [float_of : string -> option Z]
      ([None] when Python raises [ValueError]).
    - The log file is the list of its lines, each terminated by a newline
      as [_write_to_log] writes it, or [None] while the file does not
      exist. *)

From Stdlib Require Import List String Ascii ZArith Lia Bool Arith.
From Stdlib Require Import Sorting.Sorted DecimalString OrderedTypeEx.
From Equations Require Import Equations.
Import ListNotations.

Open Scope string_scope.
Open Scope list_scope.
Open Scope Z_scope.

(** ** Python builtins used by the program *)

Module Py.

(** [len(l)] *)
Definition len {A : Type} (l : list A) : Z := Z.of_nat (List.length l).

(** Position denoted by a Python index: negative indices count from the
    end; [None] when the index is out of range ([IndexError]). *)
Definition norm_index (n : nat) (i : Z) : option nat :=
  let j := if i <? 0 then i + Z.of_nat n else i in
  if (0 <=? j) && (j <? Z.of_nat n) then Some (Z.to_nat j) else None.

(** [l[i]] *)
Definition getitem {A : Type} (l : list A) (i : Z) : option A :=
  match norm_index (List.length l) i with
  | Some j => nth_error l j
  | None => None
  end.

(** [l.pop(i)]: the list without position [i] *)
Definition pop {A : Type} (l : list A) (i : Z) : option (list A) :=
  match norm_index (List.length l) i with
  | Some j => Some (firstn j l ++ skipn (S j) l)
  | None => None
  end.

(** [l[i] = x] *)
Definition setitem {A : Type} (l : list A) (i : Z) (x : A) : option (list A) :=
  match norm_index (List.length l) i with
  | Some j => Some (firstn j l ++ x :: skipn (S j) l)
  | None => None
  end.

(** [l.insert(i, x)]: out-of-range positions are clamped *)
Definition insert {A : Type} (l : list A) (i : Z) (x : A) : list A :=
  let j := if i <? 0 then Z.max 0 (i + len l) else Z.min i (len l) in
  firstn (Z.to_nat j) l ++ x :: skipn (Z.to_nat j) l.

(** [c.isspace()] on the ASCII range *)
Definition isspace (c : ascii) : bool :=
  let n := nat_of_ascii c in
  (((9 <=? n) && (n <=? 13)) || ((28 <=? n) && (n <=? 32)))%nat.

Fixpoint lstrip (s : string) : string :=
  match s with
  | String c r => if isspace c then lstrip r else s
  | EmptyString => EmptyString
  end.

Fixpoint rev_string (s acc : string) : string :=
  match s with
  | String c r => rev_string r (String c acc)
  | EmptyString => acc
  end.

(** [s.strip()] *)
Definition strip (s : string) : string :=
  rev_string (lstrip (rev_string (lstrip s) "")) "".

(** [s.split()]: maximal runs of non-whitespace characters.  [cur] holds the
    current run, reversed. *)
Fixpoint split_loop (s cur : string) : list string :=
  match s with
  | EmptyString =>
      match cur with EmptyString => [] | _ => [rev_string cur ""] end
  | String c r =>
      if isspace c then
        match cur with
        | EmptyString => split_loop r ""
        | _ => rev_string cur "" :: split_loop r ""
        end
      else split_loop r (String c cur)
  end.

Definition split (s : string) : list string := split_loop s "".

(** [sep.join(l)] *)
Definition join (sep : string) (l : list string) : string := String.concat sep l.

(** [c.upper()] on the ASCII range *)
Definition upper_ascii (c : ascii) : ascii :=
  let n := nat_of_ascii c in
  if ((97 <=? n) && (n <=? 122))%nat then ascii_of_nat (n - 32) else c.

Fixpoint upper (s : string) : string :=
  match s with
  | String c r => String (upper_ascii c) (upper r)
  | EmptyString => EmptyString
  end.

(** [str(n)] for an integer *)
Definition str (n : Z) : string := NilZero.string_of_int (Z.to_int n).

(** [bisect.bisect_left(a, x)] *)
Equations bisect_loop (a : list string) (x : string) (lo hi : Z) : Z
  by wf (Z.to_nat (hi - lo)) lt :=
  bisect_loop a x lo hi with Z_lt_dec lo hi := {
    | left _ =>
        if (nth (Z.to_nat ((lo + hi) / 2)) a "" <? x)%string
        then bisect_loop a x ((lo + hi) / 2 + 1) hi
        else bisect_loop a x lo ((lo + hi) / 2)
    | right _ => lo
  }.
Next Obligation.
  assert ((lo + hi) / 2 < hi) by (apply Z.div_lt_upper_bound; lia).
  assert (lo <= (lo + hi) / 2) by (apply Z.div_le_lower_bound; lia). lia.
Qed.
Next Obligation.
  assert ((lo + hi) / 2 < hi) by (apply Z.div_lt_upper_bound; lia).
  assert (lo <= (lo + hi) / 2) by (apply Z.div_le_lower_bound; lia). lia.
Qed.

Definition bisect_left (a : list string) (x : string) : Z :=
  bisect_loop a x 0 (len a).

End Py.

(** ** Data model *)

(** An element of [self.data]: [(key, value, ttl)]. *)
Abbreviation item := (string * string * option Z)%type.

Definition item_key (it : item) : string := fst (fst it).
Definition item_value (it : item) : string := snd (fst it).
Definition item_ttl (it : item) : option Z := snd it.

(** An element of [self.transaction_buffer]: [(op, args)] with [op] one of
    ["SET"], ["DEL"], ["EXPIRE"]. *)
Inductive intent : Type :=
| ISet (key value : string) (ttl : option Z)
| IDel (key : string)
| IExpire (key milliseconds : string).

(** [args[0]] of an intent *)
Definition intent_key (i : intent) : string :=
  match i with
  | ISet k _ _ => k
  | IDel k => k
  | IExpire k _ => k
  end.

Definition is_set (key : string) (i : intent) : bool :=
  match i with ISet k _ _ => (k =? key)%string | _ => false end.
Definition is_del (key : string) (i : intent) : bool :=
  match i with IDel k => (k =? key)%string | _ => false end.
Definition is_expire (key : string) (i : intent) : bool :=
  match i with IExpire k _ => (k =? key)%string | _ => false end.

(** The store together with the part of the world it acts on. *)
Record KVStore : Type := mkKVStore {
  data : list item;
  transaction_buffer : option (list intent);
  log_file : option (list string);
  clock_reads : nat
}.

Definition with_data (d : list item) (s : KVStore) : KVStore :=
  mkKVStore d (transaction_buffer s) (log_file s) (clock_reads s).
Definition with_buffer (b : option (list intent)) (s : KVStore) : KVStore :=
  mkKVStore (data s) b (log_file s) (clock_reads s).
Definition with_log (l : option (list string)) (s : KVStore) : KVStore :=
  mkKVStore (data s) (transaction_buffer s) l (clock_reads s).
Definition with_reads (n : nat) (s : KVStore) : KVStore :=
  mkKVStore (data s) (transaction_buffer s) (log_file s) n.

(** ** Exceptions and the state monad of the methods *)

Inductive exn : Type :=
| ValueError (msg : string)
| IndexError (msg : string)
| AttributeError (msg : string).

(** [str(e)] *)
Definition exn_msg (e : exn) : string :=
  match e with ValueError m => m | IndexError m => m | AttributeError m => m end.

Inductive outcome (A : Type) : Type :=
| Ret (a : A)
| Raise (e : exn).
Arguments Ret {A} a.
Arguments Raise {A} e.

(** A method: from the store to its result (or the exception it raises) and
    the store it leaves.  An exception keeps the mutations made so far. *)
Definition M (A : Type) : Type := KVStore -> outcome A * KVStore.

Definition ret {A : Type} (a : A) : M A := fun s => (Ret a, s).
Definition raise {A : Type} (e : exn) : M A := fun s => (Raise e, s).
Definition bind {A B : Type} (m : M A) (k : A -> M B) : M B :=
  fun s => match m s with
           | (Ret a, s') => k a s'
           | (Raise e, s') => (Raise e, s')
           end.

(** [try: m except ValueError: h] *)
Definition except_ValueError {A : Type} (m : M A) (h : M A) : M A :=
  fun s => match m s with
           | (Raise (ValueError _), s') => h s'
           | r => r
           end.

Declare Scope kv_scope.
Delimit Scope kv_scope with kv.
Notation "x <- m ;; k" := (bind m (fun x => k))
  (at level 61, m at next level, right associativity) : kv_scope.
Notation "' p <- m ;; k" := (bind m (fun x => match x with p => k end))
  (at level 61, p pattern, m at next level, right associativity) : kv_scope.
Notation "m ;; k" := (bind m (fun _ => k))
  (at level 61, right associativity) : kv_scope.
Open Scope kv_scope.

Definition get_data : M (list item) := fun s => (Ret (data s), s).
Definition put_data (d : list item) : M unit := fun s => (Ret tt, with_data d s).
Definition get_buffer : M (option (list intent)) :=
  fun s => (Ret (transaction_buffer s), s).
Definition put_buffer (b : option (list intent)) : M unit :=
  fun s => (Ret tt, with_buffer b s).

(** [self.transaction_buffer.append(i)] *)
Definition buffer_append (i : intent) : M unit :=
  fun s => match transaction_buffer s with
           | Some b => (Ret tt, with_buffer (Some (b ++ [i])) s)
           | None =>
               (Raise (AttributeError "'NoneType' object has no attribute 'append'"), s)
           end.

(** [self.data[index]] *)
Definition data_getitem (index : Z) : M item :=
  d <- get_data ;;
  match Py.getitem d index with
  | Some it => ret it
  | None => raise (IndexError "list index out of range")
  end.

(** [self.data.pop(index)] *)
Definition data_pop (index : Z) : M unit :=
  d <- get_data ;;
  match Py.pop d index with
  | Some d' => put_data d'
  | None => raise (IndexError "pop index out of range")
  end.

(** [self.data[index] = it] *)
Definition data_setitem (index : Z) (it : item) : M unit :=
  d <- get_data ;;
  match Py.setitem d index it with
  | Some d' => put_data d'
  | None => raise (IndexError "list assignment index out of range")
  end.

(** [for x in l: f(x)] *)
Fixpoint for_each {A : Type} (f : A -> M unit) (l : list A) : M unit :=
  match l with
  | [] => ret tt
  | x :: r => f x ;; for_each f r
  end.

(** ** [KVStore._find_key_index] *)

(** The [while lo <= hi] loop over [keys]. *)
Equations find_loop (keys : list string) (key : string) (lo hi : Z) : Z
  by wf (Z.to_nat (hi - lo + 1)) lt :=
  find_loop keys key lo hi with Z_le_dec lo hi := {
    | left _ =>
        if (nth (Z.to_nat ((lo + hi) / 2)) keys "" =? key)%string
        then (lo + hi) / 2
        else if (nth (Z.to_nat ((lo + hi) / 2)) keys "" <? key)%string
        then find_loop keys key ((lo + hi) / 2 + 1) hi
        else find_loop keys key lo ((lo + hi) / 2 - 1)
    | right _ => -1
  }.
Next Obligation.
  assert ((lo + hi) / 2 <= hi) by (apply Z.div_le_upper_bound; lia).
  assert (lo <= (lo + hi) / 2) by (apply Z.div_le_lower_bound; lia). lia.
Qed.
Next Obligation.
  assert ((lo + hi) / 2 <= hi) by (apply Z.div_le_upper_bound; lia).
  assert (lo <= (lo + hi) / 2) by (apply Z.div_le_lower_bound; lia). lia.
Qed.

Definition find_key_index (key : string) (d : list item) : Z :=
  let keys := map item_key d in
  find_loop keys key 0 (Py.len keys - 1).

Definition _find_key_index (key : string) : M Z :=
  d <- get_data ;; ret (find_key_index key d).

(** ** The methods of [KVStore] *)

Section Methods.

(** [clock n]: the value of [time.time() * 1000] at the n-th reading. *)
Variable clock : nat -> Z.
(** [float_of s]: the value of [float(s)], [None] for [ValueError]. *)
Variable float_of : string -> option Z.

(** [time.time() * 1000] *)
Definition now : M Z :=
  fun s => (Ret (clock (clock_reads s)), with_reads (S (clock_reads s)) s).

(** [float(s)] *)
Definition float (s : string) : M Z :=
  match float_of s with
  | Some x => ret x
  | None =>
      raise (ValueError ("could not convert string to float: '" ++ s ++ "'")%string)
  end.

Definition _is_expired (index : Z) : M bool :=
  d <- get_data ;;
  if (index <? 0) || (index >=? Py.len d) then ret true
  else
    it <- data_getitem index ;;
    match item_ttl it with
    | Some ttl =>
        t <- now ;;
        if t >? ttl then data_pop index ;; ret true
        else ret false
    | None => ret false
    end.

Definition _get_key_index (key : string) (check_expired : bool) : M Z :=
  index <- _find_key_index key ;;
  if index =? -1 then ret (-1)
  else if check_expired then
    e <- _is_expired index ;;
    if e then ret (-1) else ret index
  else ret index.

Definition _set_key (key value : string) (ttl : option Z) : M bool :=
  index <- _find_key_index key ;;
  if negb (index =? -1) then
    it <- data_getitem index ;;
    let current_ttl := item_ttl it in
    let new_ttl := match ttl with Some _ => ttl | None => current_ttl end in
    data_setitem index (key, value, new_ttl) ;;
    ret true
  else
    d <- get_data ;;
    let new_item := (key, value, ttl) in
    let keys := map item_key d in
    let insert_pos := Py.bisect_left keys key in
    put_data (Py.insert d insert_pos new_item) ;;
    ret true.

Definition _delete_key (key : string) : M bool :=
  index <- _find_key_index key ;;
  if negb (index =? -1) then data_pop index ;; ret true
  else ret false.

(** [with open(self.log_file, 'a') as f: f.write(command + '\n')] *)
Definition _write_to_log (command : string) : M unit :=
  fun s =>
    let old := match log_file s with Some l => l | None => [] end in
    (Ret tt, with_log (Some (old ++ [command])) s).

(** Body of the loop of [_replay_log] for one line of the file. *)
Definition replay_line (line : string) : M unit :=
  let line := Py.strip line in
  if (line =? "")%string then ret tt
  else
    let parts := Py.split line in
    if Py.len parts <? 2 then ret tt
    else
      let cmd := nth 0 parts "" in
      if (cmd =? "SET")%string && (Py.len parts >=? 3) then
        _set_key (nth 1 parts "") (Py.join " " (skipn 2 parts)) None ;; ret tt
      else if (cmd =? "DEL")%string && (Py.len parts >=? 2) then
        _delete_key (nth 1 parts "") ;; ret tt
      else if (cmd =? "EXPIRE")%string && (Py.len parts >=? 3) then
        let key := nth 1 parts "" in
        let ms := nth 2 parts "" in
        index <- _find_key_index key ;;
        if negb (index =? -1) then
          t <- now ;;
          m <- float ms ;;
          let ttl := t + m in
          it <- data_getitem index ;;
          data_setitem index (item_key it, item_value it, Some ttl)
        else ret tt
      else ret tt.

(** [FileNotFoundError] is the only exception handled. *)
Definition _replay_log : M unit :=
  fun s =>
    match log_file s with
    | Some lines => for_each replay_line lines s
    | None => (Ret tt, s)
    end.

(** [KVStore()] started on a given log file and clock position. *)
Definition __init__ (file : option (list string)) (reads : nat)
  : outcome unit * KVStore :=
  _replay_log (mkKVStore [] None file reads).

(** Body of the loop of [_apply_transaction] for one intent. *)
Definition apply_intent (i : intent) : M unit :=
  match i with
  | ISet key value ttl =>
      _set_key key value ttl ;;
      _write_to_log ("SET " ++ key ++ " " ++ value)%string
  | IDel key =>
      deleted <- _delete_key key ;;
      if deleted then _write_to_log ("DEL " ++ key)%string else ret tt
  | IExpire key ms =>
      index <- _find_key_index key ;;
      if negb (index =? -1) then
        t <- now ;;
        m <- float ms ;;
        let ttl := t + m in
        it <- data_getitem index ;;
        data_setitem index (item_key it, item_value it, Some ttl) ;;
        _write_to_log ("EXPIRE " ++ key ++ " " ++ ms)%string
      else ret tt
  end.

Definition _apply_transaction : M unit :=
  buf <- get_buffer ;;
  match buf with
  | None | Some [] => ret tt
  | Some b => for_each apply_intent b
  end.

(** Carried deadline of a buffered SET: the deadline stored for [key], if
    the key is stored. *)
Definition current_ttl_of (key : string) : M (option Z) :=
  index <- _find_key_index key ;;
  if negb (index =? -1) then
    it <- data_getitem index ;; ret (item_ttl it)
  else ret None.

Definition set (key value : string) : M string :=
  buf <- get_buffer ;;
  match buf with
  | Some _ =>
      current_ttl <- current_ttl_of key ;;
      buffer_append (ISet key value current_ttl) ;;
      ret "OK"
  | None =>
      _set_key key value None ;;
      _write_to_log ("SET " ++ key ++ " " ++ value)%string ;;
      ret "OK"
  end.

(** [for op, args in reversed(buffer)] stopping at the first intent that
    satisfies [p]. *)
Definition latest (p : intent -> bool) (b : list intent) : option intent :=
  find p (rev b).

Definition get (key : string) : M string :=
  buf <- get_buffer ;;
  let hit :=
    match buf with
    | Some b => latest (fun i => is_set key i || is_del key i) b
    | None => None
    end in
  match hit with
  | Some (ISet _ value _) => ret value
  | Some _ => ret "nil"
  | None =>
      index <- _get_key_index key true ;;
      if index =? -1 then ret "nil"
      else it <- data_getitem index ;; ret (item_value it)
  end.

Definition delete (key : string) : M string :=
  buf <- get_buffer ;;
  match buf with
  | Some _ => buffer_append (IDel key) ;; ret "1"
  | None =>
      index <- _get_key_index key false ;;
      if negb (index =? -1) then
        data_pop index ;;
        _write_to_log ("DEL " ++ key)%string ;;
        ret "1"
      else ret "0"
  end.

Definition exists_ (key : string) : M string :=
  buf <- get_buffer ;;
  let hit :=
    match buf with
    | Some b => latest (fun i => is_set key i || is_del key i) b
    | None => None
    end in
  match hit with
  | Some (ISet _ _ _) => ret "1"
  | Some _ => ret "0"
  | None =>
      index <- _get_key_index key true ;;
      ret (if negb (index =? -1) then "1" else "0")
  end.

(** [args[i], args[i+1]] for [i] in [range(0, len(args), 2)] *)
Fixpoint pairs (args : list string) : list (string * string) :=
  match args with
  | k :: v :: r => (k, v) :: pairs r
  | _ => []
  end.

Definition mset (args : list string) : M string :=
  if negb (Py.len args mod 2 =? 0) then
    ret "ERR wrong number of arguments for MSET"
  else
    buf <- get_buffer ;;
    match buf with
    | Some _ =>
        for_each (fun kv =>
          current_ttl <- current_ttl_of (fst kv) ;;
          buffer_append (ISet (fst kv) (snd kv) current_ttl)) (pairs args) ;;
        ret "OK"
    | None =>
        for_each (fun kv =>
          _set_key (fst kv) (snd kv) None ;;
          _write_to_log ("SET " ++ fst kv ++ " " ++ snd kv)%string) (pairs args) ;;
        ret "OK"
    end.

Fixpoint mget (keys : list string) : M (list string) :=
  match keys with
  | [] => ret []
  | key :: r => v <- get key ;; vs <- mget r ;; ret (v :: vs)
  end.

Definition begin : M string :=
  buf <- get_buffer ;;
  match buf with
  | Some _ => ret "ERR transaction already in progress"
  | None => put_buffer (Some []) ;; ret "OK"
  end.

Definition commit : M string :=
  buf <- get_buffer ;;
  match buf with
  | None => ret "ERR no transaction in progress"
  | Some _ => _apply_transaction ;; put_buffer None ;; ret "OK"
  end.

Definition abort : M string :=
  buf <- get_buffer ;;
  match buf with
  | None => ret "ERR no transaction in progress"
  | Some _ => put_buffer None ;; ret "OK"
  end.

Definition expire (key milliseconds : string) : M string :=
  except_ValueError
    (ms <- float milliseconds ;;
     if ms <=? 0 then
       buf <- get_buffer ;;
       match buf with
       | Some _ => buffer_append (IDel key) ;; ret "1"
       | None =>
           index <- _find_key_index key ;;
           if negb (index =? -1) then
             data_pop index ;;
             _write_to_log ("DEL " ++ key)%string ;;
             ret "1"
           else ret "1"
       end
     else
       t <- now ;;
       let ttl := t + ms in
       buf <- get_buffer ;;
       match buf with
       | Some b =>
           let key_exists := existsb (is_set key) b in
           if negb key_exists then
             index <- _find_key_index key ;;
             gone <- (if index =? -1 then ret true else _is_expired index) ;;
             if gone then ret "0"
             else buffer_append (IExpire key milliseconds) ;; ret "1"
           else buffer_append (IExpire key milliseconds) ;; ret "1"
       | None =>
           index <- _get_key_index key false ;;
           if index =? -1 then ret "0"
           else
             it <- data_getitem index ;;
             data_setitem index (item_key it, item_value it, Some ttl) ;;
             _write_to_log ("EXPIRE " ++ key ++ " " ++ milliseconds)%string ;;
             ret "1"
       end)
    (ret "ERR invalid TTL value").

Definition ttl (key : string) : M string :=
  buf <- get_buffer ;;
  let hit :=
    match buf with
    | Some b =>
        latest (fun i => is_set key i || is_del key i || is_expire key i) b
    | None => None
    end in
  match hit with
  | Some (ISet _ _ _) => ret "-1"
  | Some (IDel _) => ret "-2"
  | Some (IExpire _ arg) =>
      ms <- float arg ;;
      t1 <- now ;;
      t2 <- now ;;
      let remaining := ms - (t1 - (t2 - ms)) in
      ret (Py.str (Z.max 0 remaining))
  | None =>
      index <- _get_key_index key false ;;
      if index =? -1 then ret "-2"
      else
        e <- _is_expired index ;;
        if e then ret "-2"
        else
          it <- data_getitem index ;;
          match item_ttl it with
          | None => ret "-1"
          | Some key_ttl =>
              t <- now ;;
              let remaining := key_ttl - t in
              if remaining <=? 0 then data_pop index ;; ret "-2"
              else ret (Py.str remaining)
          end
  end.

Definition persist (key : string) : M string :=
  buf <- get_buffer ;;
  match buf with
  | Some b =>
      let has_ttl :=
        match latest (fun i => is_set key i || is_expire key i) b with
        | Some (ISet _ _ (Some _)) => true
        | Some (ISet _ _ None) => false
        | Some _ => true
        | None => false
        end in
      no_deadline <-
        (if negb has_ttl then
           index <- _find_key_index key ;;
           if index =? -1 then ret true
           else
             e <- _is_expired index ;;
             if e then ret true
             else it <- data_getitem index ;;
                  ret (match item_ttl it with None => true | Some _ => false end)
         else ret false) ;;
      if no_deadline then ret "0"
      else
        current_value <-
          match latest (is_set key) b with
          | Some (ISet _ value _) => ret (Some value)
          | _ =>
              index <- _find_key_index key ;;
              if negb (index =? -1) then
                e <- _is_expired index ;;
                if negb e then it <- data_getitem index ;; ret (Some (item_value it))
                else ret None
              else ret None
          end ;;
        match current_value with
        | Some value => buffer_append (ISet key value None) ;; ret "1"
        | None => ret "0"
        end
  | None =>
      index <- _get_key_index key true ;;
      if index =? -1 then ret "0"
      else
        it <- data_getitem index ;;
        match item_ttl it with
        | None => ret "0"
        | Some _ =>
            data_setitem index (item_key it, item_value it, None) ;;
            _write_to_log ("SET " ++ item_key it ++ " " ++ item_value it)%string ;;
            ret "1"
        end
  end.

(** Inner loop of [range]: the value of [key_in_txn] after scanning the
    intents [l] (the buffer, reversed). *)
Fixpoint key_in_txn (key : string) (l : list intent) : bool :=
  match l with
  | [] => false
  | i :: r =>
      if (intent_key i =? key)%string then
        match i with
        | IDel _ => false
        | ISet _ _ _ => true
        | IExpire _ _ => key_in_txn key r
        end
      else key_in_txn key r
  end.

(** Outer loop of [range] over the elements of [self.data]. *)
Fixpoint range_loop (start_key end_key : option string) (items : list item)
    (result : list string) : M (list string) :=
  match items with
  | [] => ret result
  | (key, value, ttl) :: rest =>
      if match start_key with Some s => (key <? s)%string | None => false end
      then range_loop start_key end_key rest result
      else if match end_key with Some e => (e <? key)%string | None => false end
      then range_loop start_key end_key rest result
      else
        current_time <- now ;;
        if match ttl with Some t => current_time >? t | None => false end
        then range_loop start_key end_key rest result
        else
          buf <- get_buffer ;;
          match buf with
          | Some b =>
              if negb (key_in_txn key (rev b))
              then range_loop start_key end_key rest result
              else range_loop start_key end_key rest (result ++ [key])
          | None => range_loop start_key end_key rest (result ++ [key])
          end
  end.

Definition range (start end_ : string) : M (list string) :=
  let start_key := if (start =? "")%string then None else Some start in
  let end_key := if (end_ =? "")%string then None else Some end_ in
  d <- get_data ;;
  result <- range_loop start_key end_key d [] ;;
  ret (result ++ ["END"]).

(** ** The dispatcher [main] *)

(** What one input line does: [None] stops the loop ([EXIT]), otherwise the
    lines printed. *)
Definition dispatch (cmd : string) (args : list string) : M (option (list string)) :=
  let n := Py.len args in
  let one (m : M string) := r <- m ;; ret (Some [r]) in
  if (cmd =? "SET")%string && (n >=? 2) then
    one (set (nth 0 args "") (Py.join " " (skipn 1 args)))
  else if (cmd =? "GET")%string && (n =? 1) then one (get (nth 0 args ""))
  else if (cmd =? "DEL")%string && (n =? 1) then one (delete (nth 0 args ""))
  else if (cmd =? "EXISTS")%string && (n =? 1) then one (exists_ (nth 0 args ""))
  else if (cmd =? "MSET")%string && (n >=? 2) then one (mset args)
  else if (cmd =? "MGET")%string && (n >=? 1) then
    results <- mget args ;; ret (Some results)
  else if (cmd =? "BEGIN")%string && (n =? 0) then one begin
  else if (cmd =? "COMMIT")%string && (n =? 0) then one commit
  else if (cmd =? "ABORT")%string && (n =? 0) then one abort
  else if (cmd =? "EXPIRE")%string && (n =? 2) then
    one (expire (nth 0 args "") (nth 1 args ""))
  else if (cmd =? "TTL")%string && (n =? 1) then one (ttl (nth 0 args ""))
  else if (cmd =? "PERSIST")%string && (n =? 1) then one (persist (nth 0 args ""))
  else if (cmd =? "RANGE")%string && (n =? 2) then
    results <- range (nth 0 args "") (nth 1 args "") ;; ret (Some results)
  else if (cmd =? "EXIT")%string then ret None
  else ret (Some ["ERR invalid command or arguments"]).

(** [except Exception as e: print(f"ERR {str(e)}")] *)
Definition main_line (line : string) : M (option (list string)) :=
  let line := Py.strip line in
  if (line =? "")%string then ret (Some [])
  else
    match Py.split line with
    | [] => ret (Some [])
    | p0 :: args =>
        fun s =>
          match dispatch (Py.upper p0) args s with
          | (Raise e, s') => (Ret (Some [("ERR " ++ exn_msg e)%string]), s')
          | r => r
          end
    end.

(** The loop of [main] over the lines of standard input: the lines printed. *)
Fixpoint main_loop (lines : list string) : M (list string) :=
  match lines with
  | [] => ret []
  | line :: rest =>
      r <- main_line line ;;
      match r with
      | None => ret []
      | Some out => outs <- main_loop rest ;; ret (out ++ outs)
      end
  end.

(** [main()] on a given log file: replay, then the command loop. *)
Definition main (file : option (list string)) (stdin : list string)
  : outcome (list string) * KVStore :=
  match __init__ file 0 with
  | (Ret _, store) => main_loop stdin store
  | (Raise e, store) => (Raise e, store)
  end.

(** ** Sequences of writes *)

(** The write commands of the command surface. *)
Inductive write : Type :=
| W_set (key value : string)
| W_del (key : string)
| W_expire (key milliseconds : string)
| W_persist (key : string)
| W_mset (args : list string).

Definition run_write (w : write) : M string :=
  match w with
  | W_set key value => set key value
  | W_del key => delete key
  | W_expire key milliseconds => expire key milliseconds
  | W_persist key => persist key
  | W_mset args => mset args
  end.

Fixpoint run_writes (ws : list write) : M (list string) :=
  match ws with
  | [] => ret []
  | w :: r => x <- run_write w ;; xs <- run_writes r ;; ret (x :: xs)
  end.

(** BEGIN, the writes, ABORT. *)
Definition begin_writes_abort (ws : list write) : M (list string) :=
  r0 <- begin ;; rs <- run_writes ws ;; r1 <- abort ;; ret (r0 :: rs ++ [r1]).

(** BEGIN, the writes, COMMIT. *)
Definition begin_writes_commit (ws : list write) : M (list string) :=
  r0 <- begin ;; rs <- run_writes ws ;; r1 <- commit ;; ret (r0 :: rs ++ [r1]).

(** Every buffered EXPIRE carries an argument that [float] accepts (the
    method only buffers such arguments). *)
Definition parses (i : intent) : Prop :=
  match i with
  | IExpire _ ms => float_of ms <> None
  | _ => True
  end.

(** [evicts lo hi d d']: [d'] is [d] without some records, each removed
    because a clock reading numbered in [lo, hi) exceeded its deadline. *)
Inductive evicts (lo hi : nat) : list item -> list item -> Prop :=
| evicts_none d : evicts lo hi d d
| evicts_one l1 k v deadline l2 n d' :
    (lo <= n < hi)%nat ->
    deadline < clock n ->
    evicts lo hi (l1 ++ l2) d' ->
    evicts lo hi (l1 ++ (k, v, Some deadline) :: l2) d'.

(** What a method may do to the store while a transaction stays open or
    closed: buffer and log aside, only evictions and clock readings. *)
Definition eviction_frame (s s' : KVStore) : Prop :=
  (clock_reads s <= clock_reads s')%nat /\
  evicts (clock_reads s) (clock_reads s') (data s) (data s').

(** The state of an open transaction after a method: the buffer is still
    there, the log is untouched, and the data changed by evictions only. *)
Definition txn_step (s s' : KVStore) : Prop :=
  (exists b', transaction_buffer s' = Some b') /\
  log_file s' = log_file s /\
  eviction_frame s s'.

End Methods.

(** ** Specification vocabulary *)

(** The store after the eviction of the record between [l1] and [l2],
    discovered by one clock reading. *)
Definition evicted_store (l1 l2 : list item) (s : KVStore) : KVStore :=
  with_data (l1 ++ l2) (with_reads (S (clock_reads s)) s).

(** The order on keys: Python's [<] on [str]. *)
Definition key_lt (a b : string) : Prop := (a <? b)%string = true.

Definition keys_of (d : list item) : list string := map item_key d.

(** The invariant of [self.data]: keys strictly ascending. *)
Definition sorted (d : list item) : Prop := StronglySorted key_lt (keys_of d).

(** Value and deadline stored for a key. *)
Fixpoint lookup (key : string) (d : list item) : option (string * option Z) :=
  match d with
  | [] => None
  | (k, v, t) :: r => if (k =? key)%string then Some (v, t) else lookup key r
  end.

(** Lines of the log file, empty while the file does not exist. *)
Definition log_lines (s : KVStore) : list string :=
  match log_file s with Some l => l | None => [] end.

(** No transaction is open, or no buffered intent is on [key]. *)
Definition untouched (key : string) (s : KVStore) : Prop :=
  match transaction_buffer s with
  | None => True
  | Some b => Forall (fun i => intent_key i <> key) b
  end.

(** A reading of [float] on optionally signed decimal integer literals, the
    only numerals used in the concrete runs below; every other string is
    rejected. *)
Fixpoint digits_value (s : string) (acc : Z) : option Z :=
  match s with
  | EmptyString => Some acc
  | String c r =>
      let n := nat_of_ascii c in
      if ((48 <=? n) && (n <=? 57))%nat
      then digits_value r (10 * acc + Z.of_nat (n - 48))
      else None
  end.

Definition float_of_literal (s : string) : option Z :=
  match s with
  | EmptyString => None
  | String "-" (String c r) => option_map Z.opp (digits_value (String c r) 0)
  | String "+" (String c r) => digits_value (String c r) 0
  | _ => digits_value s 0
  end.

(** A clock that stands still during a run. *)
Definition frozen_clock (t : Z) : nat -> Z := fun _ => t.

(** Scenario S6 of the specification. *)
Definition S6 : list string :=
  ["SET a 1"; "SET c 3"; "BEGIN"; "SET b 2"; "DEL a"; "RANGE a z"; "COMMIT"].

(** ** Vocabulary of the further properties *)

(** Every EXPIRE intent of an open transaction carries an argument that
    [float] accepts. *)
Definition buffer_ok (float_of : string -> option Z) (s : KVStore) : Prop :=
  match transaction_buffer s with
  | Some b => Forall (parses float_of) b
  | None => True
  end.

(** The invariant of the store: sorted data, parseable buffer. *)
Definition well_formed (float_of : string -> option Z) (s : KVStore) : Prop :=
  sorted (data s) /\ buffer_ok float_of s.

(** [keeps P m]: the method [m] leaves a store satisfying [P] in a store
    satisfying [P], whether it returns or raises. *)
Definition keeps {A : Type} (P : KVStore -> Prop) (m : M A) : Prop :=
  forall s, P s -> P (snd (m s)).

(** [expels clock lo hi d d']: [d'] is [d] without some records, each removed
    when a clock reading numbered in [lo, hi) had reached its deadline. *)
Inductive expels (clock : nat -> Z) (lo hi : nat) : list item -> list item -> Prop :=
| expels_none d : expels clock lo hi d d
| expels_one l1 k v deadline l2 n d' :
    (lo <= n < hi)%nat ->
    deadline <= clock n ->
    expels clock lo hi (l1 ++ l2) d' ->
    expels clock lo hi (l1 ++ (k, v, Some deadline) :: l2) d'.

(** What a read may do to the store: the buffer and the log stay, the clock
    is read, records that reached their deadline may go. *)
Definition read_frame (clock : nat -> Z) (s s' : KVStore) : Prop :=
  transaction_buffer s' = transaction_buffer s /\
  log_file s' = log_file s /\
  (clock_reads s <= clock_reads s')%nat /\
  expels clock (clock_reads s) (clock_reads s') (data s) (data s').

(** No stored record has a deadline. *)
Definition no_deadlines (d : list item) : Prop :=
  Forall (fun it => item_ttl it = None) d.

(** The writes SET, DEL and MSET (with an even number of arguments). *)
Definition plain_write (w : write) : Prop :=
  match w with
  | W_set _ _ | W_del _ => True
  | W_mset args => Py.len args mod 2 = 0
  | W_expire _ _ | W_persist _ => False
  end.

(** A token of a command line: not empty, no whitespace. *)
Fixpoint no_space (s : string) : bool :=
  match s with
  | EmptyString => true
  | String c r => negb (Py.isspace c) && no_space r
  end.

Definition token (s : string) : Prop := s <> "" /\ no_space s = true.

(** [succeeds P m]: from a store satisfying [P] the method [m] returns (it
    does not raise) and leaves a store satisfying [P]. *)
Definition succeeds {A : Type} (P : KVStore -> Prop) (m : M A) : Prop :=
  forall s, P s -> exists a s', m s = (Ret a, s') /\ P s'.

(** The bounds test of [range]: an empty bound is open. *)
Definition in_bounds (lo hi k : string) : bool :=
  negb (negb (lo =? "")%string && (k <? lo)%string) &&
  negb (negb (hi =? "")%string && (hi <? k)%string).

(** The intents that the plain writes buffer on a store without deadlines. *)
Definition intents_of (w : write) : list intent :=
  match w with
  | W_set key value => [ISet key value None]
  | W_del key => [IDel key]
  | W_mset args => map (fun kv => ISet (fst kv) (snd kv) None) (pairs args)
  | W_expire _ _ | W_persist _ => []
  end.

(** The intents SET and DEL. *)
Definition plain_intent (i : intent) : Prop :=
  match i with
  | ISet _ _ _ | IDel _ => True
  | IExpire _ _ => False
  end.

(** A write whose log line replay reads back: the key is one token and the
    value is a non-empty sequence of tokens joined by single spaces (what
    [main] passes to [set]). *)
Definition loggable (w : write) : Prop :=
  match w with
  | W_set key value =>
      token key /\
      exists toks, toks <> [] /\ Forall token toks /\ value = Py.join " " toks
  | W_del key => token key
  | W_mset args => Py.len args mod 2 = 0 /\ Forall token args
  | W_expire _ _ | W_persist _ => False
  end.

(** [durable clock float_of s]: replaying the log of [s] on an empty store
    rebuilds the data of [s]. *)
Definition durable (clock : nat -> Z) (float_of : string -> option Z)
    (s : KVStore) : Prop :=
  forall lf n,
    for_each (replay_line clock float_of) (log_lines s) (mkKVStore [] None lf n)
      = (Ret tt, mkKVStore (data s) None lf n).

(** The first character, if any, is not whitespace. *)
Definition starts_clean (s : string) : Prop :=
  match s with
  | String c _ => Py.isspace c = false
  | EmptyString => True
  end.

(** [always R m]: the store that [m] leaves, whether it returns or raises, is
    related by [R] to the store it started from. *)
Definition always {A : Type} (R : KVStore -> KVStore -> Prop) (m : M A) : Prop :=
  forall s, R s (snd (m s)).

(** The log of [s'] is the log of [s] with lines appended. *)
Definition log_grows (s s' : KVStore) : Prop :=
  exists extra, log_lines s' = log_lines s ++ extra.

(** A transaction is open in [s'] exactly when one is open in [s]. *)
Definition same_status (s s' : KVStore) : Prop :=
  transaction_buffer s' = None <-> transaction_buffer s = None.

(** What a command other than COMMIT does while a transaction is open: the
    log stays, and the data change by the removal of records that reached
    their deadline only. *)
Definition open_frame (clock : nat -> Z) (s s' : KVStore) : Prop :=
  log_file s' = log_file s /\
  expels clock (clock_reads s) (clock_reads s') (data s) (data s').


(** [s.isascii()]: every character is in the seven-bit range, on which
    [Py.isspace] and [Py.upper], and so [Py.strip] and [Py.split], are the
    methods of Python's [str]. *)
Fixpoint isascii (s : string) : bool :=
  match s with
  | EmptyString => true
  | String c r => (nat_of_ascii c <? 128)%nat && isascii r
  end.

(** The arguments of a write are seven-bit text. *)
Definition ascii_write (w : write) : bool :=
  match w with
  | W_set key value => isascii key && isascii value
  | W_del key => isascii key
  | W_expire key milliseconds => isascii key && isascii milliseconds
  | W_persist key => isascii key
  | W_mset args => forallb isascii args
  end.
(** ** The order on keys *)

Lemma key_lt_compare a b : key_lt a b <-> String.compare a b = Lt.
Proof.
  unfold key_lt, String.ltb. destruct (String.compare a b); split; congruence.
Qed.

Lemma key_lt_trans a b c : key_lt a b -> key_lt b c -> key_lt a c.
Proof.
  rewrite !key_lt_compare. intros Hab Hbc.
  apply String_as_OT.cmp_lt. apply String_as_OT.lt_trans with b;
    now apply String_as_OT.cmp_lt.
Qed.

Lemma key_lt_irrefl a : ~ key_lt a a.
Proof.
  rewrite key_lt_compare. intros H.
  assert (E : String.compare a a = Eq) by now apply String_as_OT.cmp_eq.
  congruence.
Qed.

Lemma key_lt_neq a b : key_lt a b -> a <> b.
Proof. intros H ->. now apply key_lt_irrefl in H. Qed.

Lemma key_lt_asym a b : key_lt a b -> ~ key_lt b a.
Proof. intros H1 H2. apply (key_lt_irrefl a). now apply key_lt_trans with b. Qed.

(** When [a == b] and [a < b] both fail, [b < a]. *)
Lemma key_gt_of_tests a b :
  (a =? b)%string = false -> (a <? b)%string = false -> key_lt b a.
Proof.
  intros Hne Hlt. apply key_lt_compare.
  rewrite String.compare_antisym.
  unfold String.ltb in Hlt.
  destruct (String.compare a b) eqn:E; try reflexivity; try discriminate.
  apply String.compare_eq_iff in E. apply String.eqb_neq in Hne. contradiction.
Qed.

(** ** Sorted key spaces *)

Lemma StronglySorted_app_inv (l1 l2 : list string) :
  StronglySorted key_lt (l1 ++ l2) ->
  StronglySorted key_lt l1 /\ StronglySorted key_lt l2 /\
  (forall a b, In a l1 -> In b l2 -> key_lt a b).
Proof.
  induction l1 as [|x l1 IH]; simpl; intros H.
  - repeat split; [constructor | assumption | intros a b []].
  - apply StronglySorted_inv in H. destruct H as [H Hx].
    destruct (IH H) as (H1 & H2 & H12).
    rewrite Forall_forall in Hx.
    repeat split; try assumption.
    + constructor; [assumption|]. apply Forall_forall. intros y Hy.
      apply Hx. apply in_or_app. now left.
    + intros a b [<-|Ha] Hb.
      * apply Hx. apply in_or_app. now right.
      * now apply H12.
Qed.

Lemma StronglySorted_app (l1 l2 : list string) :
  StronglySorted key_lt l1 -> StronglySorted key_lt l2 ->
  (forall a b, In a l1 -> In b l2 -> key_lt a b) ->
  StronglySorted key_lt (l1 ++ l2).
Proof.
  induction l1 as [|x l1 IH]; simpl; intros H1 H2 H12; [assumption|].
  apply StronglySorted_inv in H1. destruct H1 as [H1 Hx].
  constructor.
  - apply IH; auto.
  - apply Forall_forall. intros y Hy. apply in_app_or in Hy.
    destruct Hy as [Hy|Hy].
    + rewrite Forall_forall in Hx. now apply Hx.
    + apply H12; auto.
Qed.

Lemma StronglySorted_nth (l : list string) (i j : nat) :
  StronglySorted key_lt l -> (i < j)%nat -> (j < List.length l)%nat ->
  key_lt (nth i l "") (nth j l "").
Proof.
  intros Hs. revert i j. induction Hs as [|x l Hs IH Hx]; intros i j Hij Hj.
  - simpl in Hj. lia.
  - destruct j as [|j]; [lia|]. simpl in Hj.
    destruct i as [|i]; simpl.
    + rewrite Forall_forall in Hx. apply Hx. apply nth_In. lia.
    + apply IH; lia.
Qed.

(** ** Correctness of the binary search *)

(** Whatever the list, a result other than [-1] is a position inside the
    bounds that holds the key. *)
Lemma find_loop_range keys key lo hi :
  find_loop keys key lo hi = -1 \/
  (lo <= find_loop keys key lo hi <= hi /\
   nth (Z.to_nat (find_loop keys key lo hi)) keys "" = key).
Proof.
  funelim (find_loop keys key lo hi); [|now left].
  assert ((lo + hi) / 2 <= hi) by (apply Z.div_le_upper_bound; lia).
  assert (lo <= (lo + hi) / 2) by (apply Z.div_le_lower_bound; lia).
  destruct (nth (Z.to_nat ((lo + hi) / 2)) keys "" =? key)%string eqn:E.
  - right. apply String.eqb_eq in E. split; [lia | assumption].
  - destruct (nth (Z.to_nat ((lo + hi) / 2)) keys "" <? key)%string.
    + destruct H as [H | [H H']]; [now left | right; split; [lia | assumption]].
    + destruct H0 as [H0 | [H0 H0']]; [now left | right; split; [lia | assumption]].
Qed.

(** On a sorted list, a key stored between the bounds is found. *)
Lemma find_loop_complete keys key lo hi j :
  StronglySorted key_lt keys ->
  0 <= lo -> hi < Py.len keys ->
  lo <= j <= hi -> nth (Z.to_nat j) keys "" = key ->
  find_loop keys key lo hi = j.
Proof.
  intros Hs. revert j.
  funelim (find_loop keys key lo hi); intros j Hlo Hhi Hj Hnth; [|lia].
  assert (Hm1 : (lo + hi) / 2 <= hi) by (apply Z.div_le_upper_bound; lia).
  assert (Hm2 : lo <= (lo + hi) / 2) by (apply Z.div_le_lower_bound; lia).
  unfold Py.len in *.
  remember ((lo + hi) / 2) as mid eqn:Emid.
  destruct (Z.lt_trichotomy j mid) as [Hlt | [Heq' | Hgt]].
  - assert (Hk : key_lt (nth (Z.to_nat j) keys "") (nth (Z.to_nat mid) keys ""))
      by (apply StronglySorted_nth; [assumption | lia | lia]).
    rewrite Hnth in Hk.
    rewrite (proj2 (String.eqb_neq _ _)) by (intros E; symmetry in E; revert E; now apply key_lt_neq).
    destruct (nth (Z.to_nat mid) keys "" <? key)%string eqn:E.
    + exfalso. now apply (key_lt_asym _ _ Hk).
    + apply H0; auto; lia.
  - subst j. rewrite Hnth. now rewrite String.eqb_refl.
  - assert (Hk : key_lt (nth (Z.to_nat mid) keys "") (nth (Z.to_nat j) keys ""))
      by (apply StronglySorted_nth; [assumption | lia | lia]).
    rewrite Hnth in Hk.
    rewrite (proj2 (String.eqb_neq _ _)) by now apply key_lt_neq.
    rewrite Hk. apply H; auto; lia.
Qed.

(** A result other than [-1] splits the data at the position found. *)
Lemma find_key_index_found key d :
  find_key_index key d <> -1 ->
  exists l1 v t l2,
    d = l1 ++ (key, v, t) :: l2 /\ find_key_index key d = Py.len l1.
Proof.
  unfold find_key_index. intros Hr.
  pose proof (find_loop_range (map item_key d) key 0 (Py.len (map item_key d) - 1)) as H.
  remember (find_loop (map item_key d) key 0 (Py.len (map item_key d) - 1)) as r eqn:Er.
  clear Er. destruct H as [H | [Hb Hn]]; [contradiction|].
  unfold Py.len in Hb. rewrite length_map in Hb.
  destruct (nth_error d (Z.to_nat r)) as [[[k v] t]|] eqn:E.
  - apply nth_error_split in E. destruct E as (l1 & l2 & Hd & Hl).
    exists l1, v, t, l2.
    assert (k = key) as <-.
    { rewrite <- Hn, Hd, map_app, <- Hl, <- (length_map item_key l1).
      simpl. now rewrite nth_middle. }
    split; [assumption | unfold Py.len; lia].
  - apply nth_error_None in E. lia.
Qed.

Lemma find_key_index_absent key d :
  ~ In key (keys_of d) -> find_key_index key d = -1.
Proof.
  intros Hn. destruct (Z.eq_dec (find_key_index key d) (-1)) as [|Hr]; [assumption|].
  exfalso. apply Hn.
  destruct (find_key_index_found key d Hr) as (l1 & v & t & l2 & -> & _).
  unfold keys_of. rewrite map_app. apply in_elt.
Qed.

(** On sorted data the search returns the position of the key. *)
Lemma find_key_index_sorted key v t l1 l2 :
  sorted (l1 ++ (key, v, t) :: l2) ->
  find_key_index key (l1 ++ (key, v, t) :: l2) = Py.len l1.
Proof.
  intros Hs. unfold find_key_index.
  apply find_loop_complete; try assumption; unfold Py.len;
    rewrite ?length_map, ?length_app; simpl; try lia.
  rewrite map_app, Nat2Z.id, <- (length_map item_key l1). simpl.
  now rewrite nth_middle.
Qed.

(** Sorted data hold a key at most once. *)
Lemma sorted_key_unique key v t l1 l2 :
  sorted (l1 ++ (key, v, t) :: l2) ->
  ~ In key (keys_of l1) /\ ~ In key (keys_of l2).
Proof.
  unfold sorted, keys_of. rewrite map_app. simpl. intros Hs.
  apply StronglySorted_app_inv in Hs. destruct Hs as (_ & H2 & H12).
  apply StronglySorted_inv in H2. destruct H2 as [_ H2].
  rewrite Forall_forall in H2. split; intros Hin.
  - apply (key_lt_irrefl key). apply H12; [assumption | now left].
  - apply (key_lt_irrefl key). now apply H2.
Qed.

Lemma sorted_remove l1 x l2 : sorted (l1 ++ x :: l2) -> sorted (l1 ++ l2).
Proof.
  unfold sorted, keys_of. rewrite !map_app. simpl. intros Hs.
  apply StronglySorted_app_inv in Hs. destruct Hs as (H1 & H2 & H12).
  apply StronglySorted_inv in H2. destruct H2 as [H2 _].
  apply StronglySorted_app; auto. intros a b Ha Hb. apply H12; [assumption | now right].
Qed.

Lemma sorted_replace l1 x y l2 :
  item_key x = item_key y -> sorted (l1 ++ x :: l2) -> sorted (l1 ++ y :: l2).
Proof. unfold sorted, keys_of. rewrite !map_app. simpl. now intros ->. Qed.

(** ** Correctness of [bisect_left] *)

Lemma bisect_loop_spec a x lo hi :
  StronglySorted key_lt a ->
  0 <= lo <= hi -> hi <= Py.len a ->
  (forall i, 0 <= i < lo -> key_lt (nth (Z.to_nat i) a "") x) ->
  (forall i, hi <= i < Py.len a -> ~ key_lt (nth (Z.to_nat i) a "") x) ->
  lo <= Py.bisect_loop a x lo hi <= hi /\
  (forall i, 0 <= i < Py.bisect_loop a x lo hi ->
     key_lt (nth (Z.to_nat i) a "") x) /\
  (forall i, Py.bisect_loop a x lo hi <= i < Py.len a ->
     ~ key_lt (nth (Z.to_nat i) a "") x).
Proof.
  intros Hs.
  funelim (Py.bisect_loop a x lo hi); intros Hlo Hhi Hbelow Habove.
  - assert (Hm1 : (lo + hi) / 2 < hi) by (apply Z.div_lt_upper_bound; lia).
    assert (Hm2 : lo <= (lo + hi) / 2) by (apply Z.div_le_lower_bound; lia).
    unfold Py.len in *.
    remember ((lo + hi) / 2) as mid eqn:Emid.
    destruct (nth (Z.to_nat mid) a "" <? x)%string eqn:E.
    + destruct H as (Hb & H1 & H2); auto; try lia.
      * intros i Hi. destruct (Z.eq_dec i mid) as [->|Hne]; [assumption|].
        apply key_lt_trans with (nth (Z.to_nat mid) a ""); [|assumption].
        apply StronglySorted_nth; [assumption | lia | lia].
      * repeat split; auto; lia.
    + destruct H0 as (Hb & H1 & H2); auto; try lia.
      * intros i Hi Hk. destruct (Z.eq_dec i mid) as [->|Hne]; [unfold key_lt in Hk; congruence|].
        assert (Hmi : key_lt (nth (Z.to_nat mid) a "") (nth (Z.to_nat i) a ""))
          by (apply StronglySorted_nth; [assumption | lia | lia]).
        pose proof (key_lt_trans _ _ _ Hmi Hk) as Hc. unfold key_lt in Hc. congruence.
      * repeat split; auto; lia.
  - assert (lo = hi) by lia. subst. repeat split; auto; lia.
Qed.

Lemma In_firstn_nth (l : list string) (n : nat) (a : string) :
  In a (firstn n l) -> exists i, (i < n)%nat /\ (i < List.length l)%nat /\ nth i l "" = a.
Proof.
  intros Hin. apply (In_nth _ _ "") in Hin. destruct Hin as (i & Hi & Hn).
  rewrite length_firstn in Hi. exists i. repeat split; try lia.
  rewrite nth_firstn in Hn. destruct (i <? n)%nat eqn:E; [assumption|].
  apply Nat.ltb_ge in E. lia.
Qed.

Lemma In_skipn_nth (l : list string) (n : nat) (a : string) :
  In a (skipn n l) -> exists i, (n <= i)%nat /\ (i < List.length l)%nat /\ nth i l "" = a.
Proof.
  intros Hin. apply (In_nth _ _ "") in Hin. destruct Hin as (i & Hi & Hn).
  rewrite length_skipn in Hi. exists (n + i)%nat. repeat split; try lia.
  now rewrite nth_skipn in Hn.
Qed.

(** Inserting a new key at the position given by [bisect_left] keeps the
    data sorted. *)
Lemma insert_bisect_sorted key v t d :
  sorted d -> ~ In key (keys_of d) ->
  exists l1 l2, d = l1 ++ l2 /\
    Py.insert d (Py.bisect_left (keys_of d) key) (key, v, t) = l1 ++ (key, v, t) :: l2 /\
    sorted (l1 ++ (key, v, t) :: l2).
Proof.
  intros Hs Hn. unfold Py.bisect_left.
  pose proof (bisect_loop_spec (keys_of d) key 0 (Py.len (keys_of d)) Hs) as H.
  remember (Py.bisect_loop (keys_of d) key 0 (Py.len (keys_of d))) as p eqn:Ep.
  clear Ep. destruct H as (Hb & Hlt & Hge); try (unfold Py.len; lia).
  assert (Hlen : Py.len (keys_of d) = Py.len d)
    by (unfold Py.len, keys_of; now rewrite length_map).
  exists (firstn (Z.to_nat p) d), (skipn (Z.to_nat p) d).
  split; [symmetry; apply firstn_skipn|].
  assert (Hins : Py.insert d p (key, v, t)
                 = firstn (Z.to_nat p) d ++ (key, v, t) :: skipn (Z.to_nat p) d).
  { unfold Py.insert. destruct (p <? 0) eqn:E; [apply Z.ltb_lt in E; lia|].
    rewrite Z.min_l by lia. reflexivity. }
  split; [assumption|].
  unfold sorted, keys_of. rewrite map_app. simpl.
  rewrite <- firstn_map, <- skipn_map. fold (keys_of d).
  pose proof Hs as Hs'. unfold sorted in Hs'.
  rewrite <- (firstn_skipn (Z.to_nat p) (keys_of d)) in Hs'.
  apply StronglySorted_app_inv in Hs'. destruct Hs' as (H1 & H2 & H12).
  assert (Hafter : forall b, In b (skipn (Z.to_nat p) (keys_of d)) -> key_lt key b).
  { intros b Hb'. apply In_skipn_nth in Hb'. destruct Hb' as (i & Hi1 & Hi2 & <-).
    apply key_gt_of_tests.
    - apply String.eqb_neq. intros Heq. apply Hn. rewrite <- Heq. now apply nth_In.
    - specialize (Hge (Z.of_nat i)). rewrite Nat2Z.id in Hge.
      destruct (nth i (keys_of d) "" <? key)%string eqn:E; [|reflexivity].
      exfalso. apply Hge; [unfold Py.len; lia | exact E]. }
  apply StronglySorted_app; [assumption | | ].
  - constructor; [assumption | now apply Forall_forall].
  - intros a b Ha [<-|Hb'].
    + apply In_firstn_nth in Ha. destruct Ha as (i & Hi1 & Hi2 & <-).
      specialize (Hlt (Z.of_nat i)). rewrite Nat2Z.id in Hlt. apply Hlt. lia.
    + now apply H12.
Qed.

(** ** List accesses at a known position *)

Lemma norm_index_middle {A} (l1 : list A) (x : A) (l2 : list A) :
  Py.norm_index (List.length (l1 ++ x :: l2)) (Py.len l1) = Some (List.length l1).
Proof.
  unfold Py.norm_index, Py.len. rewrite length_app. simpl.
  destruct (Z.of_nat (List.length l1) <? 0) eqn:E; [apply Z.ltb_lt in E; lia|].
  destruct (0 <=? Z.of_nat (List.length l1)) eqn:E1; [|apply Z.leb_gt in E1; lia].
  destruct (Z.of_nat (List.length l1) <? Z.of_nat (List.length l1 + S (List.length l2))) eqn:E2;
    [|apply Z.ltb_ge in E2; lia].
  simpl. now rewrite Nat2Z.id.
Qed.

Lemma firstn_middle {A} (l1 : list A) (x : A) (l2 : list A) :
  firstn (List.length l1) (l1 ++ x :: l2) = l1.
Proof. rewrite firstn_app, Nat.sub_diag, firstn_all. simpl. apply app_nil_r. Qed.

Lemma skipn_middle {A} (l1 : list A) (x : A) (l2 : list A) :
  skipn (S (List.length l1)) (l1 ++ x :: l2) = l2.
Proof.
  rewrite skipn_app. replace (S (List.length l1) - List.length l1)%nat with 1%nat by lia.
  rewrite skipn_all2 by lia. reflexivity.
Qed.

Lemma getitem_middle {A} (l1 : list A) (x : A) (l2 : list A) :
  Py.getitem (l1 ++ x :: l2) (Py.len l1) = Some x.
Proof.
  unfold Py.getitem. rewrite norm_index_middle.
  rewrite nth_error_app2 by lia. now rewrite Nat.sub_diag.
Qed.

Lemma pop_middle {A} (l1 : list A) (x : A) (l2 : list A) :
  Py.pop (l1 ++ x :: l2) (Py.len l1) = Some (l1 ++ l2).
Proof.
  unfold Py.pop. rewrite norm_index_middle. now rewrite firstn_middle, skipn_middle.
Qed.

Lemma setitem_middle {A} (l1 : list A) (x y : A) (l2 : list A) :
  Py.setitem (l1 ++ x :: l2) (Py.len l1) y = Some (l1 ++ y :: l2).
Proof.
  unfold Py.setitem. rewrite norm_index_middle. now rewrite firstn_middle, skipn_middle.
Qed.

Lemma len_eqb_m1 {A} (l : list A) : (Py.len l =? -1) = false.
Proof. apply Z.eqb_neq. unfold Py.len. lia. Qed.

Lemma len_range {A} (l1 : list A) (x : A) (l2 : list A) :
  (Py.len l1 <? 0) || (Py.len l1 >=? Py.len (l1 ++ x :: l2)) = false.
Proof.
  unfold Py.len. rewrite length_app. simpl.
  apply orb_false_iff. split; [apply Z.ltb_ge; lia|].
  rewrite Z.geb_leb. apply Z.leb_gt. lia.
Qed.

(** Rewriting steps shared by the run lemmas: the search on sorted data and
    the list accesses at the position it returns. *)
Ltac kv_step :=
  first [ rewrite find_key_index_sorted by assumption
        | rewrite find_key_index_absent by assumption
        | rewrite len_eqb_m1
        | rewrite len_range
        | rewrite pop_middle
        | rewrite getitem_middle
        | rewrite setitem_middle ].

Ltac kv_run := cbn; repeat (kv_step; cbn).

(** Split conjunctions only. *)
Ltac splits := repeat match goal with |- _ /\ _ => split end.

Section Runs.

Variable clock : nat -> Z.
Variable float_of : string -> option Z.

Lemma delete_stored key v t l1 l2 s :
  transaction_buffer s = None ->
  sorted (data s) ->
  data s = l1 ++ (key, v, t) :: l2 ->
  delete clock key s =
    (Ret "1", with_log (Some (log_lines s ++ [("DEL " ++ key)%string]))
                (with_data (l1 ++ l2) s)).
Proof.
  destruct s as [d b l n]. simpl. intros -> Hs ->.
  unfold delete, _get_key_index, _find_key_index, data_pop, bind, get_buffer, get_data, ret.
  kv_run. reflexivity.
Qed.

Lemma delete_absent key s :
  transaction_buffer s = None ->
  ~ In key (keys_of (data s)) ->
  delete clock key s = (Ret "0", s).
Proof.
  destruct s as [d b l n]. simpl. intros -> Hn.
  unfold delete, _get_key_index, _find_key_index, data_pop, bind, get_buffer, get_data, ret.
  kv_run. reflexivity.
Qed.

(** [_is_expired] at the position of a stored record. *)
Lemma _is_expired_stored k v t l1 l2 s :
  data s = l1 ++ (k, v, t) :: l2 ->
  _is_expired clock (Py.len l1) s =
    match t with
    | Some deadline =>
        if clock (clock_reads s) >? deadline
        then (Ret true, with_data (l1 ++ l2) (with_reads (S (clock_reads s)) s))
        else (Ret false, with_reads (S (clock_reads s)) s)
    | None => (Ret false, s)
    end.
Proof.
  destruct s as [d b l n]. simpl. intros ->.
  unfold _is_expired, data_getitem, data_pop, now, bind, get_data, ret.
  kv_run. destruct t as [deadline|]; cbn; [|reflexivity].
  destruct (clock n >? deadline); kv_run; reflexivity.
Qed.

Lemma _set_key_stored key v0 t0 value ttl l1 l2 s :
  sorted (data s) ->
  data s = l1 ++ (key, v0, t0) :: l2 ->
  _set_key key value ttl s =
    (Ret true,
     with_data (l1 ++ (key, value, match ttl with Some _ => ttl | None => t0 end) :: l2) s).
Proof.
  destruct s as [d b l n]. simpl. intros Hs ->.
  unfold _set_key, _find_key_index, data_getitem, data_setitem, bind, get_data, ret.
  kv_run. reflexivity.
Qed.

Lemma _set_key_new key value ttl s :
  sorted (data s) ->
  ~ In key (keys_of (data s)) ->
  exists l1 l2,
    data s = l1 ++ l2 /\
    sorted (l1 ++ (key, value, ttl) :: l2) /\
    _set_key key value ttl s = (Ret true, with_data (l1 ++ (key, value, ttl) :: l2) s).
Proof.
  destruct s as [d b l n]. simpl. intros Hs Hn.
  destruct (insert_bisect_sorted key value ttl d Hs Hn) as (l1 & l2 & Hd & Hi & Hs').
  exists l1, l2. repeat split; try assumption.
  unfold _set_key, _find_key_index, put_data, bind, get_data, ret.
  kv_run. fold (keys_of d). rewrite Hi. reflexivity.
Qed.

Lemma _delete_key_stored key v t l1 l2 s :
  sorted (data s) ->
  data s = l1 ++ (key, v, t) :: l2 ->
  _delete_key key s = (Ret true, with_data (l1 ++ l2) s).
Proof.
  destruct s as [d b l n]. simpl. intros Hs ->.
  unfold _delete_key, _find_key_index, data_pop, bind, get_data, ret.
  kv_run. reflexivity.
Qed.

Lemma _delete_key_absent key s :
  ~ In key (keys_of (data s)) ->
  _delete_key key s = (Ret false, s).
Proof.
  destruct s as [d b l n]. simpl. intros Hn.
  unfold _delete_key, _find_key_index, data_pop, bind, get_data, ret.
  kv_run. reflexivity.
Qed.

(** Either the key is stored, at a position that splits the data, or it
    does not occur. *)
Lemma stored_or_absent key (d : list item) :
  (exists l1 v t l2, d = l1 ++ (key, v, t) :: l2) \/ ~ In key (keys_of d).
Proof.
  induction d as [|[[k v] t] d IH].
  - right. intros [].
  - destruct (String.eqb_spec k key) as [->|Hne].
    + left. now exists [], v, t, d.
    + destruct IH as [(l1 & v' & t' & l2 & ->) | Hn].
      * left. now exists ((k, v, t) :: l1), v', t', l2.
      * right. intros [H|H]; [now apply Hne | now apply Hn].
Qed.

End Runs.

(** ** Commit keeps the data sorted *)

Section Commit.

Variable clock : nat -> Z.
Variable float_of : string -> option Z.

Lemma for_each_app {A} (f : A -> M unit) (l1 l2 : list A) (s : KVStore) :
  for_each f (l1 ++ l2) s = bind (for_each f l1) (fun _ => for_each f l2) s.
Proof.
  revert s. induction l1 as [|x l1 IH]; intros s; [reflexivity|].
  simpl. unfold bind in *. destruct (f x s) as [[[]|e] s1]; [|reflexivity].
  apply IH.
Qed.

Lemma _apply_transaction_run b s :
  transaction_buffer s = Some b ->
  _apply_transaction clock float_of s = for_each (apply_intent clock float_of) b s.
Proof.
  intros Hb. unfold _apply_transaction, bind, get_buffer. rewrite Hb.
  destruct b; reflexivity.
Qed.

(** One intent of a commit: it succeeds, keeps the data sorted and leaves
    the buffer alone. *)
Lemma apply_intent_sorted i s :
  sorted (data s) -> parses float_of i ->
  exists s', apply_intent clock float_of i s = (Ret tt, s') /\
             sorted (data s') /\
             transaction_buffer s' = transaction_buffer s.
Proof.
  intros Hs Hp. destruct i as [key value ttl | key | key ms]; simpl.
  - destruct (stored_or_absent key (data s)) as [(l1 & v0 & t0 & l2 & Hd) | Hn].
    + unfold bind. rewrite (_set_key_stored key v0 t0 value ttl l1 l2 s Hs Hd).
      eexists. split; [reflexivity|]. simpl. split; [|reflexivity].
      rewrite Hd in Hs. revert Hs. now apply sorted_replace.
    + destruct (_set_key_new key value ttl s Hs Hn) as (l1 & l2 & Hd & Hs' & Hrun).
      unfold bind. rewrite Hrun. eexists. split; [reflexivity|]. simpl. now split.
  - destruct (stored_or_absent key (data s)) as [(l1 & v0 & t0 & l2 & Hd) | Hn].
    + unfold bind. rewrite (_delete_key_stored key v0 t0 l1 l2 s Hs Hd).
      eexists. split; [reflexivity|]. simpl. split; [|reflexivity].
      rewrite Hd in Hs. revert Hs. now apply sorted_remove.
    + unfold bind. rewrite (_delete_key_absent key s Hn).
      eexists. split; [reflexivity|]. now split.
  - simpl in Hp. destruct (float_of ms) as [m|] eqn:Ef; [|contradiction].
    destruct s as [d b l n]. simpl in *.
    destruct (stored_or_absent key d) as [(l1 & v0 & t0 & l2 & ->) | Hn].
    + unfold _find_key_index, data_getitem, data_setitem, float, now, bind, get_data, ret.
      kv_run. rewrite Ef. kv_run.
      eexists. split; [reflexivity|]. simpl. split; [|reflexivity].
      revert Hs. now apply sorted_replace.
    + unfold _find_key_index, bind, get_data, ret. kv_run.
      eexists. split; [reflexivity|]. now split.
Qed.

Lemma for_each_apply_sorted b s :
  sorted (data s) -> Forall (parses float_of) b ->
  exists s', for_each (apply_intent clock float_of) b s = (Ret tt, s') /\
             sorted (data s') /\
             transaction_buffer s' = transaction_buffer s.
Proof.
  revert s. induction b as [|i b IH]; intros s Hs Hp.
  - exists s. now repeat split.
  - apply Forall_cons_iff in Hp. destruct Hp as [Hi Hp].
    destruct (apply_intent_sorted i s Hs Hi) as (s1 & H1 & Hs1 & Hb1).
    destruct (IH s1 Hs1 Hp) as (s2 & H2 & Hs2 & Hb2).
    exists s2. simpl. unfold bind. rewrite H1. repeat split; try assumption.
    congruence.
Qed.

(** [lookup] on sorted data split at the key. *)
Lemma lookup_middle key v t l1 l2 :
  ~ In key (keys_of l1) -> lookup key (l1 ++ (key, v, t) :: l2) = Some (v, t).
Proof.
  induction l1 as [|[[k v'] t'] l1 IH]; simpl; intros Hn.
  - now rewrite String.eqb_refl.
  - destruct (String.eqb_spec k key) as [->|Hne]; [exfalso; apply Hn; now left|].
    apply IH. intros H. apply Hn. now right.
Qed.

Lemma lookup_split key v t d :
  lookup key d = Some (v, t) ->
  exists l1 l2, d = l1 ++ (key, v, t) :: l2.
Proof.
  induction d as [|[[k v'] t'] d IH]; simpl; [discriminate|].
  destruct (String.eqb_spec k key) as [->|Hne].
  - intros [= -> ->]. now exists [], d.
  - intros H. destruct (IH H) as (l1 & l2 & ->). now exists ((k, v', t') :: l1), l2.
Qed.

Lemma lookup_sorted_middle key v t l1 l2 :
  sorted (l1 ++ (key, v, t) :: l2) ->
  lookup key (l1 ++ (key, v, t) :: l2) = Some (v, t).
Proof. intros Hs. apply lookup_middle. now apply (sorted_key_unique key v t l1 l2). Qed.

(** A buffered SET. *)
Lemma set_buffered key value b s :
  transaction_buffer s = Some b ->
  sorted (data s) ->
  set key value s =
    (Ret "OK",
     with_buffer (Some (b ++ [ISet key value
                                (match lookup key (data s) with
                                 | Some (_, t) => t
                                 | None => None
                                 end)])) s).
Proof.
  destruct s as [d b' l n]. simpl. intros -> Hs.
  unfold set, current_ttl_of, buffer_append, _find_key_index, data_getitem,
    bind, get_buffer, get_data, ret.
  destruct (stored_or_absent key d) as [(l1 & v0 & t0 & l2 & ->) | Hn].
  - rewrite lookup_sorted_middle by assumption. kv_run. reflexivity.
  - kv_run. replace (lookup key d) with (@None (string * option Z)); [reflexivity|].
    symmetry. clear Hs. induction d as [|[[k v'] t'] d IH]; [reflexivity|]. simpl.
    destruct (String.eqb_spec k key) as [->|Hne]; [exfalso; apply Hn; now left|].
    apply IH. intros H. apply Hn. now right.
Qed.

End Commit.

(** ** SET keeps an armed deadline; DEL ignores expiration *)

Section SetDel.

Variable clock : nat -> Z.
Variable float_of : string -> option Z.

(** The last intent of a commit is a SET that carries a deadline: the key
    ends up stored with the new value and that deadline. *)
Lemma commit_ending_in_set key value deadline b s :
  transaction_buffer s = Some (b ++ [ISet key value (Some deadline)]) ->
  sorted (data s) -> Forall (parses float_of) b ->
  exists s', commit clock float_of s = (Ret "OK", s') /\
             transaction_buffer s' = None /\
             sorted (data s') /\
             lookup key (data s') = Some (value, Some deadline).
Proof.
  intros Hb Hs Hp.
  unfold commit, bind at 1, get_buffer. rewrite Hb.
  unfold bind at 1. rewrite (_apply_transaction_run clock float_of _ s Hb).
  rewrite for_each_app. unfold bind at 1.
  destruct (for_each_apply_sorted clock float_of b s Hs Hp) as (s1 & H1 & Hs1 & Hb1).
  rewrite H1. simpl. unfold bind at 1 2.
  destruct (stored_or_absent key (data s1)) as [(l1 & v0 & t0 & l2 & Hd) | Hn].
  - rewrite (_set_key_stored key v0 t0 value (Some deadline) l1 l2 s1 Hs1 Hd).
    eexists. split; [reflexivity|]. simpl. split; [reflexivity|].
    assert (Hs' : sorted (l1 ++ (key, value, Some deadline) :: l2))
      by (rewrite Hd in Hs1; revert Hs1; now apply sorted_replace).
    split; [assumption | now apply lookup_sorted_middle].
  - destruct (_set_key_new key value (Some deadline) s1 Hs1 Hn) as (l1 & l2 & Hd & Hs' & Hrun).
    rewrite Hrun. eexists. split; [reflexivity|]. simpl. split; [reflexivity|].
    split; [assumption | now apply lookup_sorted_middle].
Qed.

(** C7. For a stored key with an armed deadline, a plain SET replaces the
    value and keeps the deadline: outside a transaction at once, and inside
    one after the buffered SET has been committed (whatever else the buffer
    holds before it). *)
Theorem set_preserves_deadline key v0 deadline value s :
  sorted (data s) ->
  lookup key (data s) = Some (v0, Some deadline) ->
  (transaction_buffer s = None ->
   exists s', set key value s = (Ret "OK", s') /\
              lookup key (data s') = Some (value, Some deadline)) /\
  (forall b, transaction_buffer s = Some b -> Forall (parses float_of) b ->
   exists s1 s2,
     set key value s = (Ret "OK", s1) /\ data s1 = data s /\
     commit clock float_of s1 = (Ret "OK", s2) /\
     lookup key (data s2) = Some (value, Some deadline)).
Proof.
  intros Hs Hl. split.
  - intros Hb. destruct (lookup_split _ _ _ _ Hl) as (l1 & l2 & Hd).
    unfold set, bind at 1, get_buffer. rewrite Hb. unfold bind at 1 2.
    rewrite (_set_key_stored key v0 (Some deadline) value None l1 l2 s Hs Hd).
    eexists. split; [reflexivity|]. simpl.
    apply lookup_sorted_middle. rewrite Hd in Hs. revert Hs. now apply sorted_replace.
  - intros b Hb Hp. rewrite (set_buffered key value b s Hb Hs), Hl.
    destruct (commit_ending_in_set key value deadline b
                (with_buffer (Some (b ++ [ISet key value (Some deadline)])) s))
      as (s2 & Hc & _ & _ & Hl2); try assumption; [reflexivity|].
    eexists. exists s2. repeat split; assumption.
Qed.

(** C10. Outside a transaction, DEL of a key whose deadline has passed but
    whose record is still stored replies 1, removes the record and appends
    [DEL key] to the log; no clock reading is taken. *)
Theorem delete_ignores_expiration key v deadline l1 l2 s :
  transaction_buffer s = None ->
  sorted (data s) ->
  data s = l1 ++ (key, v, Some deadline) :: l2 ->
  deadline < clock (clock_reads s) ->
  delete clock key s =
    (Ret "1", with_log (Some (log_lines s ++ [("DEL " ++ key)%string]))
                (with_data (l1 ++ l2) s)).
Proof. intros Hb Hs Hd _. now apply delete_stored with (v := v) (t := Some deadline). Qed.

End SetDel.

Lemma sorted_singleton (x : item) : sorted [x].
Proof. repeat constructor. Qed.

Lemma set_preserves_deadline_witness :
  (exists s', set "k" "new"
                (mkKVStore [("k", "old", Some 50)] None None 0) = (Ret "OK", s') /\
              lookup "k" (data s') = Some ("new", Some 50)) /\
  (exists s1 s2,
     set "k" "new"
       (mkKVStore [("k", "old", Some 50)] (Some [IDel "k"]) None 0) = (Ret "OK", s1) /\
     data s1 = [("k", "old", Some 50)] /\
     commit (frozen_clock 10) float_of_literal s1 = (Ret "OK", s2) /\
     lookup "k" (data s2) = Some ("new", Some 50)).
Proof.
  split.
  - exact (proj1 (set_preserves_deadline (frozen_clock 10) float_of_literal
                    "k" "old" 50 "new"
                    (mkKVStore [("k", "old", Some 50)] None None 0)
                    (sorted_singleton _) eq_refl) eq_refl).
  - refine (proj2 (set_preserves_deadline (frozen_clock 10) float_of_literal
                     "k" "old" 50 "new"
                     (mkKVStore [("k", "old", Some 50)] (Some [IDel "k"]) None 0)
                     (sorted_singleton _) eq_refl) [IDel "k"] eq_refl _).
    repeat constructor.
Defined.

Lemma delete_ignores_expiration_witness :
  delete (frozen_clock 10) "k"
    (mkKVStore [("k", "v", Some 5)] None (Some ["SET k v"; "EXPIRE k 5"]) 2) =
  (Ret "1", mkKVStore [] None (Some ["SET k v"; "EXPIRE k 5"; "DEL k"]) 2).
Proof.
  apply (delete_ignores_expiration (frozen_clock 10) "k" "v" 5 [] []
           (mkKVStore [("k", "v", Some 5)] None (Some ["SET k v"; "EXPIRE k 5"]) 2));
    [reflexivity | apply sorted_singleton | reflexivity | reflexivity].
Defined.

(** ** Lazy eviction by the observation operations *)

Lemma find_all_false {A} (p : A -> bool) (l : list A) :
  Forall (fun x => p x = false) l -> find p l = None.
Proof.
  induction 1 as [|x l Hx _ IH]; [reflexivity|]. simpl. now rewrite Hx.
Qed.

(** A scan for intents on [key] finds nothing in a buffer that does not
    touch [key]. *)
Lemma latest_untouched (p : intent -> bool) key b :
  Forall (fun i => intent_key i <> key) b ->
  (forall i, p i = true -> intent_key i = key) ->
  latest p b = None.
Proof.
  intros Hb Hp. unfold latest. apply find_all_false. apply Forall_rev.
  revert Hb. apply Forall_impl. intros i Hi.
  destruct (p i) eqn:E; [|reflexivity]. exfalso. apply Hi. now apply Hp.
Qed.

Lemma is_set_key key i : is_set key i = true -> intent_key i = key.
Proof. destruct i; simpl; try discriminate. apply String.eqb_eq. Qed.
Lemma is_del_key key i : is_del key i = true -> intent_key i = key.
Proof. destruct i; simpl; try discriminate. apply String.eqb_eq. Qed.
Lemma is_expire_key key i : is_expire key i = true -> intent_key i = key.
Proof. destruct i; simpl; try discriminate. apply String.eqb_eq. Qed.

Lemma scan_key_1 key i : is_set key i || is_del key i = true -> intent_key i = key.
Proof.
  intros H. apply orb_true_iff in H. destruct H; [now apply is_set_key | now apply is_del_key].
Qed.
Lemma scan_key_2 key i :
  is_set key i || is_del key i || is_expire key i = true -> intent_key i = key.
Proof.
  intros H. apply orb_true_iff in H. destruct H; [now apply scan_key_1 | now apply is_expire_key].
Qed.
Lemma scan_key_3 key i : is_set key i || is_expire key i = true -> intent_key i = key.
Proof.
  intros H. apply orb_true_iff in H. destruct H; [now apply is_set_key | now apply is_expire_key].
Qed.

Section Eviction.

Variable clock : nat -> Z.
Variable float_of : string -> option Z.

Section Expired.

Variables (key v : string) (deadline : Z) (l1 l2 : list item) (s : KVStore).
Hypothesis Hsorted : sorted (data s).
Hypothesis Hdata : data s = l1 ++ (key, v, Some deadline) :: l2.
Hypothesis Huntouched : untouched key s.
Hypothesis Hpassed : deadline < clock (clock_reads s).

Lemma get_expired : get clock key s = (Ret "nil", evicted_store l1 l2 s).
Proof.
  destruct s as [d b l n]. simpl in *. subst d.
  apply Z.gtb_lt in Hpassed.
  unfold untouched in Huntouched. simpl in Huntouched.
  unfold get, _get_key_index, _find_key_index, _is_expired, data_getitem, data_pop,
    now, bind, get_buffer, get_data, ret.
  destruct b as [b|]; cbn.
  - rewrite (latest_untouched _ key b Huntouched (scan_key_1 key)).
    kv_run. rewrite Hpassed. kv_run. reflexivity.
  - kv_run. rewrite Hpassed. kv_run. reflexivity.
Qed.

Lemma exists_expired : exists_ clock key s = (Ret "0", evicted_store l1 l2 s).
Proof.
  destruct s as [d b l n]. simpl in *. subst d.
  apply Z.gtb_lt in Hpassed.
  unfold untouched in Huntouched. simpl in Huntouched.
  unfold exists_, _get_key_index, _find_key_index, _is_expired, data_getitem, data_pop,
    now, bind, get_buffer, get_data, ret.
  destruct b as [b|]; cbn.
  - rewrite (latest_untouched _ key b Huntouched (scan_key_1 key)).
    kv_run. rewrite Hpassed. kv_run. reflexivity.
  - kv_run. rewrite Hpassed. kv_run. reflexivity.
Qed.

Lemma ttl_expired : ttl clock float_of key s = (Ret "-2", evicted_store l1 l2 s).
Proof.
  destruct s as [d b l n]. simpl in *. subst d.
  apply Z.gtb_lt in Hpassed.
  unfold untouched in Huntouched. simpl in Huntouched.
  unfold ttl, _get_key_index, _find_key_index, _is_expired, data_getitem, data_pop,
    now, bind, get_buffer, get_data, ret.
  destruct b as [b|]; cbn.
  - rewrite (latest_untouched _ key b Huntouched (scan_key_2 key)).
    kv_run. rewrite Hpassed. kv_run. reflexivity.
  - kv_run. rewrite Hpassed. kv_run. reflexivity.
Qed.

Lemma persist_expired : persist clock key s = (Ret "0", evicted_store l1 l2 s).
Proof.
  destruct s as [d b l n]. simpl in *. subst d.
  apply Z.gtb_lt in Hpassed.
  unfold untouched in Huntouched. simpl in Huntouched.
  unfold persist, _get_key_index, _find_key_index, _is_expired, data_getitem, data_pop,
    now, bind, get_buffer, get_data, ret.
  destruct b as [b|]; cbn.
  - rewrite (latest_untouched _ key b Huntouched (scan_key_3 key)).
    kv_run. rewrite Hpassed. kv_run. reflexivity.
  - kv_run. rewrite Hpassed. kv_run. reflexivity.
Qed.

End Expired.

(** The scan of [range]: it only reads the clock, and every key it emits
    comes from a record that was not expired at one of its readings. *)
Lemma range_loop_spec start_key end_key items :
  forall result s,
  exists out n',
    range_loop clock start_key end_key items result s
      = (Ret (result ++ out), with_reads n' s) /\
    (clock_reads s <= n')%nat /\
    forall k, In k out ->
      exists v' t, In (k, v', t) items /\
        match t with
        | Some d => exists m, (clock_reads s <= m)%nat /\ clock m <= d
        | None => True
        end.
Proof.
  induction items as [|[[k v'] t] items IH]; intros result s.
  - exists [], (clock_reads s). rewrite app_nil_r. destruct s. simpl.
    split; [reflexivity|]. split; [lia|]. intros ? [].
  - (* the record is skipped, or emitted *)
    assert (Hskip : forall s1, (clock_reads s <= clock_reads s1)%nat ->
              (exists n1, s1 = with_reads n1 s) ->
              exists out n',
                range_loop clock start_key end_key items result s1
                  = (Ret (result ++ out), with_reads n' s) /\
                (clock_reads s <= n')%nat /\
                forall k0, In k0 out ->
                  exists v0 t0, In (k0, v0, t0) ((k, v', t) :: items) /\
                    match t0 with
                    | Some d => exists m, (clock_reads s <= m)%nat /\ clock m <= d
                    | None => True
                    end).
    { intros s1 Hle [n1 ->]. destruct (IH result (with_reads n1 s)) as (out & n' & Hr & Hn & Hout).
      exists out, n'. simpl in *. split; [rewrite Hr; now destruct s|].
      split; [lia|]. intros k0 Hk0. destruct (Hout k0 Hk0) as (v0 & t0 & Hin & Ht).
      exists v0, t0. split; [now right|]. destruct t0 as [d|]; [|exact I].
      destruct Ht as (m & Hm & Hc). exists m. split; [lia | assumption]. }
    simpl.
    destruct (match start_key with Some s0 => (k <? s0)%string | None => false end).
    { apply Hskip; [lia | exists (clock_reads s); now destruct s]. }
    destruct (match end_key with Some e => (e <? k)%string | None => false end).
    { apply Hskip; [lia | exists (clock_reads s); now destruct s]. }
    unfold bind, now, get_buffer. simpl.
    destruct (match t with Some t0 => clock (clock_reads s) >? t0 | None => false end) eqn:Et.
    { apply Hskip; [simpl; lia | now exists (S (clock_reads s))]. }
    assert (Hemit :
      exists out n',
        range_loop clock start_key end_key items (result ++ [k])
          (with_reads (S (clock_reads s)) s)
          = (Ret (result ++ out), with_reads n' s) /\
        (clock_reads s <= n')%nat /\
        forall k0, In k0 out ->
          exists v0 t0, In (k0, v0, t0) ((k, v', t) :: items) /\
            match t0 with
            | Some d => exists m, (clock_reads s <= m)%nat /\ clock m <= d
            | None => True
            end).
    { destruct (IH (result ++ [k]) (with_reads (S (clock_reads s)) s))
        as (out & n' & Hr & Hn & Hout).
      exists (k :: out), n'. simpl in *. split.
      { rewrite Hr. rewrite <- app_assoc. now destruct s. }
      split; [lia|]. intros k0 [<-|Hk0].
      - exists v', t. split; [now left|]. destruct t as [d|]; [|exact I].
        exists (clock_reads s). split; [lia|]. rewrite Z.gtb_ltb in Et.
        apply Z.ltb_ge in Et. exact Et.
      - destruct (Hout k0 Hk0) as (v0 & t0 & Hin & Ht).
        exists v0, t0. split; [now right|]. destruct t0 as [d|]; [|exact I].
        destruct Ht as (m & Hm & Hc). exists m. split; [lia | assumption]. }
    change (transaction_buffer (with_reads (S (clock_reads s)) s))
      with (transaction_buffer s).
    destruct (transaction_buffer s) as [b|]; [|exact Hemit].
    destruct (negb (key_in_txn k (rev b))); [|exact Hemit].
    apply Hskip; [simpl; lia | now exists (S (clock_reads s))].
Qed.

(** A record of sorted data is determined by its key. *)
Lemma sorted_record_unique key v t v' t' l1 l2 :
  sorted (l1 ++ (key, v, t) :: l2) ->
  In (key, v', t') (l1 ++ (key, v, t) :: l2) -> v' = v /\ t' = t.
Proof.
  intros Hs Hin. destruct (sorted_key_unique key v t l1 l2 Hs) as [H1 H2].
  apply in_app_or in Hin. destruct Hin as [Hin | [Heq | Hin]].
  - exfalso. apply H1. unfold keys_of. apply in_map_iff. now exists (key, v', t').
  - now inversion Heq.
  - exfalso. apply H2. unfold keys_of. apply in_map_iff. now exists (key, v', t').
Qed.

(** The two bounds tests of [range] are [in_bounds]. *)
Lemma in_bounds_tests lo hi k :
  in_bounds lo hi k =
    negb (match (if (lo =? "")%string then None else Some lo) with
          | Some s0 => (k <? s0)%string
          | None => false
          end) &&
    negb (match (if (hi =? "")%string then None else Some hi) with
          | Some e => (e <? k)%string
          | None => false
          end).
Proof.
  unfold in_bounds. destruct (lo =? "")%string; destruct (hi =? "")%string; reflexivity.
Qed.

Lemma with_reads_idem n m s : with_reads n (with_reads m s) = with_reads n s.
Proof. now destruct s. Qed.

(** The readings of [range]: one for each record within the bounds, taken
    when the loop reaches the record.  The loop changes nothing else, and
    emits stored keys only. *)
Lemma range_loop_reads lo hi items :
  forall result s,
  exists out,
    range_loop clock (if (lo =? "")%string then None else Some lo)
      (if (hi =? "")%string then None else Some hi) items result s
      = (Ret (result ++ out),
         with_reads
           (clock_reads s + List.length (filter (in_bounds lo hi) (keys_of items))) s) /\
    incl out (keys_of items).
Proof.
  induction items as [|[[k v] t] items IH]; intros result s.
  - exists []. simpl. rewrite app_nil_r, Nat.add_0_r. split; [now destruct s | easy].
  - unfold keys_of. cbn [map filter item_key fst]. fold (keys_of items).
    rewrite (in_bounds_tests lo hi k). simpl range_loop.
    destruct (match (if (lo =? "")%string then None else Some lo) with
              | Some s0 => (k <? s0)%string
              | None => false
              end).
    { destruct (IH result s) as (out & Hr & Hin). exists out.
      split; [exact Hr | now apply incl_tl]. }
    destruct (match (if (hi =? "")%string then None else Some hi) with
              | Some e => (e <? k)%string
              | None => false
              end).
    { destruct (IH result s) as (out & Hr & Hin). exists out.
      split; [exact Hr | now apply incl_tl]. }
    cbn [negb andb List.length].
    assert (Hskip : exists out,
      range_loop clock (if (lo =? "")%string then None else Some lo)
        (if (hi =? "")%string then None else Some hi) items result
        (with_reads (S (clock_reads s)) s)
      = (Ret (result ++ out),
         with_reads
           (clock_reads s + S (List.length (filter (in_bounds lo hi) (keys_of items)))) s) /\
      incl out (k :: keys_of items)).
    { destruct (IH result (with_reads (S (clock_reads s)) s)) as (out & Hr & Hin).
      exists out. split; [|now apply incl_tl].
      rewrite Hr, with_reads_idem. f_equal. f_equal. destruct s. simpl. lia. }
    assert (Hemit : exists out,
      range_loop clock (if (lo =? "")%string then None else Some lo)
        (if (hi =? "")%string then None else Some hi) items (result ++ [k])
        (with_reads (S (clock_reads s)) s)
      = (Ret (result ++ out),
         with_reads
           (clock_reads s + S (List.length (filter (in_bounds lo hi) (keys_of items)))) s) /\
      incl out (k :: keys_of items)).
    { destruct (IH (result ++ [k]) (with_reads (S (clock_reads s)) s)) as (out & Hr & Hin).
      exists (k :: out). split.
      - rewrite Hr, with_reads_idem, <- app_assoc. f_equal. f_equal. destruct s. simpl. lia.
      - intros x [<- | Hx]; [now left | right; now apply Hin]. }
    unfold bind, now, get_buffer. cbn [fst snd].
    destruct (match t with Some t0 => clock (clock_reads s) >? t0 | None => false end);
      [exact Hskip|].
    change (transaction_buffer (with_reads (S (clock_reads s)) s))
      with (transaction_buffer s).
    destruct (transaction_buffer s) as [b|]; [|exact Hemit].
    destruct (negb (key_in_txn k (rev b))); [exact Hskip | exact Hemit].
Qed.

Lemma range_loop_app sk ek l1 l2 :
  forall result s,
    range_loop clock sk ek (l1 ++ l2) result s =
    match range_loop clock sk ek l1 result s with
    | (Ret r, s1) => range_loop clock sk ek l2 r s1
    | (Raise e, s1) => (Raise e, s1)
    end.
Proof.
  induction l1 as [|[[k v] t] l1 IH]; intros result s; [reflexivity|].
  simpl.
  destruct (match sk with Some s0 => (k <? s0)%string | None => false end); [apply IH|].
  destruct (match ek with Some e => (e <? k)%string | None => false end); [apply IH|].
  unfold bind, now, get_buffer. cbn [fst snd].
  destruct (match t with Some t0 => clock (clock_reads s) >? t0 | None => false end);
    [apply IH|].
  change (transaction_buffer (with_reads (S (clock_reads s)) s))
    with (transaction_buffer s).
  destruct (transaction_buffer s) as [b|]; [|apply IH].
  destruct (negb (key_in_txn k (rev b))); apply IH.
Qed.

(** [range] at a record within the bounds whose deadline its reading has
    passed: the key is omitted, the record stays. *)
Lemma range_skips_expired key v deadline l1 l2 s lo hi :
  sorted (data s) ->
  data s = l1 ++ (key, v, Some deadline) :: l2 ->
  in_bounds lo hi key = true ->
  deadline <
    clock (clock_reads s + List.length (filter (in_bounds lo hi) (keys_of l1)))%nat ->
  exists ks,
    range clock lo hi s =
      (Ret (ks ++ ["END"]),
       with_reads
         (clock_reads s + List.length (filter (in_bounds lo hi) (keys_of (data s)))) s) /\
    ~ In key ks.
Proof.
  intros Hs Hd Hin Hp. destruct s as [d b l n]. simpl in *. subst d.
  destruct (range_loop_reads lo hi l1 []
              (mkKVStore (l1 ++ (key, v, Some deadline) :: l2) b l n))
    as (out1 & Hr1 & Hk1).
  destruct (range_loop_reads lo hi l2 out1
              (mkKVStore (l1 ++ (key, v, Some deadline) :: l2) b l
                 (S (n + List.length (filter (in_bounds lo hi) (keys_of l1))))))
    as (out2 & Hr2 & Hk2).
  unfold with_reads in Hr1, Hr2. simpl in Hr1, Hr2.
  exists (out1 ++ out2). split.
  - unfold range, bind, get_data. cbn [fst snd data].
    rewrite range_loop_app, Hr1. simpl range_loop.
    pose proof (in_bounds_tests lo hi key) as Ht. rewrite Hin in Ht.
    symmetry in Ht. apply andb_true_iff in Ht. destruct Ht as [Ht1 Ht2].
    apply negb_true_iff in Ht1, Ht2. rewrite Ht1, Ht2.
    unfold bind, now, with_reads. cbn [fst snd data transaction_buffer log_file clock_reads].
    apply Z.gtb_lt in Hp. rewrite Hp. rewrite Hr2. unfold ret.
    f_equal. f_equal. unfold keys_of. rewrite map_app, filter_app, length_app.
    cbn [map filter item_key fst]. rewrite Hin. simpl. lia.
  - destruct (sorted_key_unique key v (Some deadline) l1 l2 Hs) as [H1 H2].
    intros Hx. apply in_app_or in Hx. destruct Hx as [Hx | Hx];
      [apply H1; now apply Hk1 | apply H2; now apply Hk2].
Qed.

(** SET then GET of a key whose stored record has a deadline that the
    reading of GET has passed: SET keeps the deadline, GET replies nil. *)
Lemma set_get_on_expired key v deadline value l1 l2 s :
  transaction_buffer s = None ->
  sorted (data s) ->
  data s = l1 ++ (key, v, Some deadline) :: l2 ->
  deadline < clock (clock_reads s) ->
  fst ((_ <- set key value ;; get clock key) s) = Ret "nil".
Proof.
  intros Hb Hs Hd Hp. unfold set, bind at 1, bind at 1, get_buffer. rewrite Hb.
  cbv beta iota. unfold bind at 1 2.
  rewrite (_set_key_stored key v (Some deadline) value None l1 l2 s Hs Hd).
  unfold _write_to_log, ret.
  rewrite get_expired with (v := value) (deadline := deadline) (l1 := l1) (l2 := l2).
  - reflexivity.
  - simpl. rewrite Hd in Hs. revert Hs. now apply sorted_replace.
  - reflexivity.
  - unfold untouched. simpl. now rewrite Hb.
  - exact Hp.
Qed.

(** SET then GET of a key that is not stored: GET replies the value. *)
Lemma set_get_on_absent key value s :
  transaction_buffer s = None ->
  sorted (data s) ->
  ~ In key (keys_of (data s)) ->
  fst ((_ <- set key value ;; get clock key) s) = Ret value.
Proof.
  intros Hb Hs Hn. unfold set, bind at 1, bind at 1, get_buffer. rewrite Hb.
  cbv beta iota. unfold bind at 1 2.
  destruct (_set_key_new key value None s Hs Hn) as (k1 & k2 & Hd & Hs' & Hrun).
  rewrite Hrun. unfold _write_to_log, ret.
  destruct s as [d b l n]. simpl in *. subst b.
  unfold get, _get_key_index, _find_key_index, _is_expired, data_getitem,
    bind, get_buffer, get_data, ret.
  kv_run. reflexivity.
Qed.

(** C5.  [range] does not evict.  For a record whose deadline has passed and
    whose key no buffered intent touches, [get], [exists], [ttl] and
    [persist] answer as for an absent key and remove the record, at the
    reading that finds the deadline passed.  [range], when its loop reaches
    such a record within the bounds and reads a clock past the deadline,
    omits the key but leaves the record stored: it changes nothing but the
    count of clock readings.  The difference shows: outside a transaction a
    SET of the key issued after the RANGE keeps the passed deadline, so the
    next GET replies nil, whereas after a GET the same SET is read back. *)
Theorem range_leaves_expired_record_stored key v deadline l1 l2 s lo hi :
  sorted (data s) ->
  data s = l1 ++ (key, v, Some deadline) :: l2 ->
  untouched key s ->
  in_bounds lo hi key = true ->
  let n := clock_reads s in
  let j := List.length (filter (in_bounds lo hi) (keys_of l1)) in
  let n' := (n + List.length (filter (in_bounds lo hi) (keys_of (data s))))%nat in
  (deadline < clock n ->
     get clock key s = (Ret "nil", evicted_store l1 l2 s) /\
     exists_ clock key s = (Ret "0", evicted_store l1 l2 s) /\
     ttl clock float_of key s = (Ret "-2", evicted_store l1 l2 s) /\
     persist clock key s = (Ret "0", evicted_store l1 l2 s)) /\
  (deadline < clock (n + j)%nat ->
     (exists ks,
        range clock lo hi s = (Ret (ks ++ ["END"]), with_reads n' s) /\
        ~ In key ks) /\
     data (snd (range clock lo hi s)) = l1 ++ (key, v, Some deadline) :: l2 /\
     (transaction_buffer s = None -> deadline < clock n -> deadline < clock n' ->
      forall value,
        fst ((_ <- range clock lo hi ;; _ <- set key value ;; get clock key) s)
          = Ret "nil" /\
        fst ((_ <- get clock key ;; _ <- set key value ;; get clock key) s)
          = Ret value)).
Proof.
  intros Hs Hd Hu Hin n j n'. split.
  - intros Hnow.
    split; [now apply get_expired with (v := v) (deadline := deadline)|].
    split; [now apply exists_expired with (v := v) (deadline := deadline)|].
    split; [now apply ttl_expired with (v := v) (deadline := deadline)|].
    now apply persist_expired with (v := v) (deadline := deadline).
  - intros Hj.
    destruct (range_skips_expired key v deadline l1 l2 s lo hi Hs Hd Hin Hj)
      as (ks & Hr & Hk).
    split; [now exists ks|].
    split; [rewrite Hr; destruct s; exact Hd|].
    intros Hb Hnow Hn' value. split.
    + unfold bind at 1. rewrite Hr.
      apply set_get_on_expired with (v := v) (deadline := deadline) (l1 := l1) (l2 := l2).
      * destruct s; exact Hb.
      * destruct s; exact Hs.
      * destruct s; exact Hd.
      * destruct s; exact Hn'.
    + unfold bind at 1.
      rewrite get_expired with (v := v) (deadline := deadline) (l1 := l1) (l2 := l2)
        by assumption.
      rewrite Hd in Hs.
      apply set_get_on_absent.
      * destruct s; exact Hb.
      * destruct s; simpl. revert Hs. apply sorted_remove.
      * destruct s; simpl. unfold keys_of. rewrite map_app. intros Hx.
        apply in_app_or in Hx.
        destruct (sorted_key_unique key v (Some deadline) l1 l2 Hs) as [H1 H2].
        destruct Hx; [now apply H1 | now apply H2].
Qed.

End Eviction.

Lemma range_leaves_expired_record_stored_witness :
  let s := mkKVStore [("a", "1", None); ("k", "v", Some 5)] None None 0 in
  let s' := mkKVStore [("a", "1", None)] None None 1 in
  (get (frozen_clock 10) "k" s = (Ret "nil", s') /\
   exists_ (frozen_clock 10) "k" s = (Ret "0", s') /\
   ttl (frozen_clock 10) float_of_literal "k" s = (Ret "-2", s') /\
   persist (frozen_clock 10) "k" s = (Ret "0", s')) /\
  (exists ks,
     range (frozen_clock 10) "a" "z" s = (Ret (ks ++ ["END"]), with_reads 2 s) /\
     ~ In "k" ks) /\
  data (snd (range (frozen_clock 10) "a" "z" s)) = [("a", "1", None); ("k", "v", Some 5)] /\
  (forall value,
     fst ((_ <- range (frozen_clock 10) "a" "z" ;; _ <- set "k" value ;;
           get (frozen_clock 10) "k") s) = Ret "nil" /\
     fst ((_ <- get (frozen_clock 10) "k" ;; _ <- set "k" value ;;
           get (frozen_clock 10) "k") s) = Ret value).
Proof.
  intros s s'.
  assert (Hs : sorted (data s)) by (repeat constructor).
  pose proof (range_leaves_expired_record_stored (frozen_clock 10) float_of_literal
                "k" "v" 5 [("a", "1", None)] [] s "a" "z" Hs eq_refl I eq_refl) as [H1 H2].
  split; [exact (H1 eq_refl)|].
  destruct (H2 eq_refl) as (Hr & Hd & He).
  split; [exact Hr|]. split; [exact Hd|].
  exact (He eq_refl eq_refl eq_refl).
Defined.

(** ** Writes inside a transaction and ABORT *)

Section Abort.

Variable clock : nat -> Z.
Variable float_of : string -> option Z.

Lemma evicts_widen lo hi lo' hi' d d' :
  (lo' <= lo)%nat -> (hi <= hi')%nat ->
  evicts clock lo hi d d' -> evicts clock lo' hi' d d'.
Proof.
  intros Hlo Hhi. induction 1 as [d | l1 k v dl l2 n d' Hn Hc _ IH].
  - constructor.
  - apply evicts_one with n; [lia | assumption | assumption].
Qed.

Lemma evicts_trans lo hi d1 d2 d3 :
  evicts clock lo hi d1 d2 -> evicts clock lo hi d2 d3 -> evicts clock lo hi d1 d3.
Proof.
  induction 1 as [d | l1 k v dl l2 n d' Hn Hc _ IH]; intros H; [assumption|].
  apply evicts_one with n; auto.
Qed.

Lemma eviction_frame_refl s : eviction_frame clock s s.
Proof. split; [lia | constructor]. Qed.

Lemma eviction_frame_trans s1 s2 s3 :
  eviction_frame clock s1 s2 -> eviction_frame clock s2 s3 -> eviction_frame clock s1 s3.
Proof.
  intros [Hn1 He1] [Hn2 He2]. split; [lia|].
  apply evicts_trans with (data s2).
  - apply evicts_widen with (lo := clock_reads s1) (hi := clock_reads s2);
      [lia | lia | assumption].
  - apply evicts_widen with (lo := clock_reads s2) (hi := clock_reads s3);
      [lia | lia | assumption].
Qed.

(** Evictions remove only records whose deadline some reading exceeded. *)
Lemma evicts_nothing lo hi d d' :
  evicts clock lo hi d d' ->
  (forall k v deadline n, In (k, v, Some deadline) d -> clock n <= deadline) ->
  d' = d.
Proof.
  induction 1 as [d | l1 k v dl l2 n d' Hn Hc _ IH]; intros Hlive; [reflexivity|].
  exfalso. specialize (Hlive k v dl n (in_elt _ _ _)). lia.
Qed.

Lemma evicts_incl lo hi d d' :
  evicts clock lo hi d d' -> incl d' d.
Proof.
  induction 1 as [d | l1 k v dl l2 n d' Hn Hc _ IH]; [apply incl_refl|].
  intros x Hx. apply IH in Hx. apply in_app_or in Hx. apply in_or_app.
  destruct Hx; [now left | right; now right].
Qed.

Lemma txn_step_refl b s :
  transaction_buffer s = Some b -> txn_step clock s s.
Proof.
  intros Hb. split; [now exists b | split; [reflexivity | apply eviction_frame_refl]].
Qed.

Lemma txn_step_trans s1 s2 s3 :
  txn_step clock s1 s2 -> txn_step clock s2 s3 -> txn_step clock s1 s3.
Proof.
  intros (_ & Hl1 & Hf1) (Hb & Hl2 & Hf2).
  split; [assumption | split; [congruence|]].
  now apply eviction_frame_trans with s2.
Qed.

Lemma txn_step_buffer b b' s :
  transaction_buffer s = Some b -> txn_step clock s (with_buffer (Some b') s).
Proof.
  intros _. destruct s.
  split; [now exists b' | split; [reflexivity | split; [simpl; lia | constructor]]].
Qed.

(** [_is_expired] at the position found for a key. *)
Lemma _is_expired_found key s :
  find_key_index key (data s) <> -1 ->
  exists e s',
    _is_expired clock (find_key_index key (data s)) s = (Ret e, s') /\
    transaction_buffer s' = transaction_buffer s /\
    log_file s' = log_file s /\
    eviction_frame clock s s' /\
    (e = false -> data s' = data s).
Proof.
  intros Hf. destruct (find_key_index_found key (data s) Hf) as (l1 & v & t & l2 & Hd & Hi).
  rewrite Hi, (_is_expired_stored clock key v t l1 l2 s Hd).
  destruct t as [dl|].
  - destruct (clock (clock_reads s) >? dl) eqn:E.
    + eexists. eexists. split; [reflexivity|]. destruct s as [d b l n]. simpl in *.
      splits; try reflexivity; [|discriminate].
      split; simpl; [lia|].
      subst d. apply evicts_one with n; [lia | | constructor].
      rewrite Z.gtb_ltb in E. now apply Z.ltb_lt in E.
    + eexists. eexists. split; [reflexivity|]. destruct s as [d b l n]. simpl in *.
      splits; try reflexivity. split; simpl; [lia | constructor].
  - exists false, s. splits; try reflexivity. apply eviction_frame_refl.
Qed.

Lemma data_getitem_found key s :
  find_key_index key (data s) <> -1 ->
  exists it, data_getitem (find_key_index key (data s)) s = (Ret it, s).
Proof.
  intros Hf. destruct (find_key_index_found key (data s) Hf) as (l1 & v & t & l2 & Hd & Hi).
  rewrite Hi. unfold data_getitem, bind, get_data, ret. rewrite Hd, getitem_middle.
  now eexists.
Qed.

Lemma current_ttl_of_total key s :
  exists t, current_ttl_of key s = (Ret t, s).
Proof.
  unfold current_ttl_of, _find_key_index. unfold bind at 1. unfold get_data. cbn.
  destruct (find_key_index key (data s) =? -1) eqn:E; cbn.
  - now eexists.
  - apply Z.eqb_neq in E. destruct (data_getitem_found key s E) as (it & Hg).
    unfold bind. rewrite Hg. now eexists.
Qed.

Lemma set_in_txn key value b s :
  transaction_buffer s = Some b ->
  exists s', set key value s = (Ret "OK", s') /\ txn_step clock s s'.
Proof.
  intros Hb. unfold set, bind at 1, get_buffer. rewrite Hb.
  destruct (current_ttl_of_total key s) as (t & Ht).
  unfold bind at 1. rewrite Ht. unfold bind, buffer_append. rewrite Hb.
  eexists. split; [reflexivity|]. now apply txn_step_buffer with b.
Qed.

Lemma delete_in_txn key b s :
  transaction_buffer s = Some b ->
  exists s', delete clock key s = (Ret "1", s') /\ txn_step clock s s'.
Proof.
  intros Hb. unfold delete, bind, get_buffer, buffer_append. rewrite Hb. cbn. rewrite Hb.
  eexists. split; [reflexivity|]. now apply txn_step_buffer with b.
Qed.

Lemma mset_in_txn args b s :
  transaction_buffer s = Some b ->
  exists r s', mset args s = (Ret r, s') /\ txn_step clock s s'.
Proof.
  intros Hb. unfold mset.
  destruct (negb (Py.len args mod 2 =? 0)).
  - exists "ERR wrong number of arguments for MSET", s. split; [reflexivity|].
    now apply txn_step_refl with b.
  - unfold bind at 1, get_buffer. rewrite Hb.
    assert (H : forall ps b0 s0, transaction_buffer s0 = Some b0 ->
              exists s1, for_each (fun kv =>
                  current_ttl <- current_ttl_of (fst kv) ;;
                  buffer_append (ISet (fst kv) (snd kv) current_ttl)) ps s0 = (Ret tt, s1) /\
                txn_step clock s0 s1).
    { induction ps as [|[k v] ps IH]; intros b0 s0 Hb0.
      - exists s0. split; [reflexivity|].
        now apply txn_step_refl with b0.
      - simpl. destruct (current_ttl_of_total k s0) as (t & Ht).
        unfold bind at 1 2. rewrite Ht. unfold buffer_append. rewrite Hb0.
        destruct (IH (b0 ++ [ISet k v t]) (with_buffer (Some (b0 ++ [ISet k v t])) s0))
          as (s1 & Hr & Hs); [reflexivity|].
        exists s1. split; [exact Hr|].
        apply txn_step_trans with (with_buffer (Some (b0 ++ [ISet k v t])) s0);
          [now apply txn_step_buffer with b0 | assumption]. }
    destruct (H (pairs args) b s Hb) as (s1 & Hr & Hs).
    cbv beta iota. unfold bind at 1. rewrite Hr. exists "OK", s1. now split.
Qed.

Lemma expire_in_txn key milliseconds b s :
  transaction_buffer s = Some b ->
  exists r s', expire clock float_of key milliseconds s = (Ret r, s') /\ txn_step clock s s'.
Proof.
  intros Hb. destruct s as [d b0 l n]. simpl in Hb. subst b0.
  unfold expire, except_ValueError, float.
  destruct (float_of milliseconds) as [m|]; cbn -[_is_expired].
  2:{ eexists. eexists. split; [reflexivity|]. now apply txn_step_refl with b. }
  unfold bind at 1. cbn -[_is_expired].
  destruct (m <=? 0).
  { unfold bind, get_buffer, buffer_append. cbn -[_is_expired].
    eexists. eexists. split; [reflexivity|].
    apply (txn_step_buffer b _ (mkKVStore d (Some b) l n)). reflexivity. }
  unfold bind at 1, now. cbn -[_is_expired]. unfold bind at 1, get_buffer. cbn -[_is_expired].
  assert (Hread : txn_step clock (mkKVStore d (Some b) l n) (mkKVStore d (Some b) l (S n))).
  { split; [now exists b | split; [reflexivity | split; simpl; [lia | constructor]]]. }
  assert (Happend : exists r s',
            (buffer_append (IExpire key milliseconds) ;; ret "1")
              (mkKVStore d (Some b) l (S n)) = (Ret r, s') /\
            txn_step clock (mkKVStore d (Some b) l n) s').
  { unfold bind, buffer_append. cbn -[_is_expired]. eexists. eexists. split; [reflexivity|].
    apply txn_step_trans with (mkKVStore d (Some b) l (S n)); [assumption|].
    apply (txn_step_buffer b _ (mkKVStore d (Some b) l (S n))). reflexivity. }
  destruct (negb (existsb (is_set key) b)); [|exact Happend].
  unfold bind at 1, _find_key_index, get_data. cbn -[_is_expired].
  unfold bind at 1. cbn -[_is_expired].
  destruct (find_key_index key d =? -1) eqn:E; cbn -[_is_expired].
  { eexists. eexists. split; [reflexivity | assumption]. }
  apply Z.eqb_neq in E.
  destruct (_is_expired_found key (mkKVStore d (Some b) l (S n)) E)
    as (e & s1 & Hrun & Hb1 & Hl1 & Hf1 & He1).
  simpl in Hrun, Hb1.
  change (with_reads (S n) (mkKVStore d (Some b) l n))
    with (mkKVStore d (Some b) l (S n)).
  rewrite Hrun.
  assert (Hs1 : txn_step clock (mkKVStore d (Some b) l n) s1).
  { apply txn_step_trans with (mkKVStore d (Some b) l (S n)); [assumption|].
    split; [exists b; exact Hb1 | split; assumption]. }
  destruct e; cbn -[_is_expired].
  { eexists. eexists. split; [reflexivity | assumption]. }
  unfold buffer_append. rewrite Hb1. cbn -[_is_expired].
  eexists. eexists. split; [reflexivity|].
  apply txn_step_trans with s1; [assumption|].
  now apply txn_step_buffer with b.
Qed.

(** The probe of [expire] and [persist] at the position found for a key:
    [_is_expired], then a read of the record when it is still there. *)
Lemma probe_found key b s :
  transaction_buffer s = Some b ->
  find_key_index key (data s) <> -1 ->
  exists e s1 it,
    _is_expired clock (find_key_index key (data s)) s = (Ret e, s1) /\
    txn_step clock s s1 /\
    transaction_buffer s1 = Some b /\
    (e = false -> data_getitem (find_key_index key (data s)) s1 = (Ret it, s1)).
Proof.
  intros Hb Hf.
  destruct (_is_expired_found key s Hf) as (e & s1 & Hrun & Hb1 & Hl1 & Hf1 & He1).
  destruct e.
  - exists true, s1, ("", "", None). splits; try assumption; [|congruence|discriminate].
    split; [exists b; congruence | now split].
  - specialize (He1 eq_refl).
    assert (Hf' : find_key_index key (data s1) <> -1) by now rewrite He1.
    destruct (data_getitem_found key s1 Hf') as (it & Hg). rewrite He1 in Hg.
    exists false, s1, it. splits; try assumption; [|congruence|auto].
    split; [exists b; congruence | now split].
Qed.

Lemma persist_in_txn key b s :
  transaction_buffer s = Some b ->
  exists r s', persist clock key s = (Ret r, s') /\ txn_step clock s s'.
Proof.
  intros Hb. unfold persist. unfold bind at 1, get_buffer. rewrite Hb.
  cbv beta iota zeta.
  (* does the key have a deadline? *)
  match goal with |- exists r s', bind ?m ?k s = _ /\ _ =>
    assert (H1 : exists a s1, m s = (Ret a, s1) /\ txn_step clock s s1 /\
                              transaction_buffer s1 = Some b)
  end.
  { destruct (negb _).
    2:{ exists false, s. splits; [reflexivity | now apply txn_step_refl with b | assumption]. }
    unfold bind at 1.
    change (_find_key_index key s) with (Ret (find_key_index key (data s)), s).
    cbv beta iota.
    destruct (find_key_index key (data s) =? -1) eqn:E.
    { exists true, s. splits; [reflexivity | now apply txn_step_refl with b | assumption]. }
    apply Z.eqb_neq in E.
    destruct (probe_found key b s Hb E) as (e & s1 & it & Hrun & Hs1 & Hb1 & Hget).
    unfold bind at 1. rewrite Hrun. destruct e; cbv beta iota.
    { exists true, s1. now splits. }
    unfold bind at 1. rewrite (Hget eq_refl). eexists. exists s1. now splits. }
  destruct H1 as (nd & s1 & Hr1 & Hs1 & Hb1). unfold bind at 1. rewrite Hr1.
  destruct nd.
  { exists "0", s1. now split. }
  (* the value to keep *)
  match goal with |- exists r s', bind ?m ?k s1 = _ /\ _ =>
    assert (H2 : exists a s2, m s1 = (Ret a, s2) /\ txn_step clock s1 s2 /\
                              transaction_buffer s2 = Some b)
  end.
  { assert (Hprobe : exists (a : option string) s2,
              (index <- _find_key_index key ;;
               if negb (index =? -1) then
                 e <- _is_expired clock index ;;
                 if negb e then it <- data_getitem index ;; ret (Some (item_value it))
                 else ret None
               else ret None) s1 = (Ret a, s2) /\
              txn_step clock s1 s2 /\ transaction_buffer s2 = Some b).
    { unfold bind at 1.
      change (_find_key_index key s1) with (Ret (find_key_index key (data s1)), s1).
      cbv beta iota.
      destruct (find_key_index key (data s1) =? -1) eqn:E.
      { exists None, s1. splits; [reflexivity | now apply txn_step_refl with b | assumption]. }
      apply Z.eqb_neq in E.
      destruct (probe_found key b s1 Hb1 E) as (e & s2 & it & Hrun & Hs2 & Hb2 & Hget).
      cbv beta iota. unfold negb at 1. unfold bind at 1. rewrite Hrun.
      destruct e; cbv beta iota; unfold negb.
      { exists None, s2. now splits. }
      unfold bind at 1. rewrite (Hget eq_refl). eexists. exists s2. now splits. }
    destruct (latest (is_set key) b) as [[k0 value t0 | k0 | k0 ms0]|]; try exact Hprobe.
    exists (Some value), s1. splits; [reflexivity | now apply txn_step_refl with b | assumption]. }
  destruct H2 as (cv & s2 & Hr2 & Hs2 & Hb2). unfold bind at 1. rewrite Hr2.
  assert (Hs02 : txn_step clock s s2) by now apply txn_step_trans with s1.
  destruct cv as [value|].
  - unfold bind, buffer_append. rewrite Hb2. eexists. eexists. split; [reflexivity|].
    apply txn_step_trans with s2; [assumption | now apply txn_step_buffer with b].
  - exists "0", s2. now split.
Qed.

(** Every write command leaves an open transaction open, the log as it was,
    and the data changed by evictions only. *)
Lemma run_write_in_txn w b s :
  transaction_buffer s = Some b ->
  exists r s', run_write clock float_of w s = (Ret r, s') /\ txn_step clock s s'.
Proof.
  intros Hb. destruct w as [key value | key | key ms | key | args]; simpl.
  - destruct (set_in_txn key value b s Hb) as (s' & H & Hs). now exists "OK", s'.
  - destruct (delete_in_txn key b s Hb) as (s' & H & Hs). now exists "1", s'.
  - now apply expire_in_txn with b.
  - now apply persist_in_txn with b.
  - now apply mset_in_txn with b.
Qed.

Lemma run_writes_in_txn ws :
  forall b s, transaction_buffer s = Some b ->
  exists rs s', run_writes clock float_of ws s = (Ret rs, s') /\ txn_step clock s s'.
Proof.
  induction ws as [|w ws IH]; intros b s Hb.
  - exists [], s. split; [reflexivity | now apply txn_step_refl with b].
  - destruct (run_write_in_txn w b s Hb) as (r & s1 & Hr & Hs1).
    destruct Hs1 as ([b1 Hb1] & Hrest).
    destruct (IH b1 s1 Hb1) as (rs & s2 & Hrs & Hs2).
    exists (r :: rs), s2. simpl. unfold bind. rewrite Hr, Hrs. split; [reflexivity|].
    apply txn_step_trans with s1; [|assumption].
    split; [now exists b1 | assumption].
Qed.

(** C8 (amended). BEGIN, any sequence of buffered writes, ABORT: every
    command replies, the log file is unchanged, no transaction is left open,
    and the key space differs from the one before BEGIN at most by the
    eviction of records whose deadline a clock reading taken in between had
    passed; when no stored deadline is ever passed, the key space is
    unchanged. *)
Theorem abort_restores_keyspace_and_log ws s :
  transaction_buffer s = None ->
  exists rs s',
    begin_writes_abort clock float_of ws s = (Ret rs, s') /\
    transaction_buffer s' = None /\
    log_file s' = log_file s /\
    evicts clock (clock_reads s) (clock_reads s') (data s) (data s') /\
    ((forall k v deadline n, In (k, v, Some deadline) (data s) -> clock n <= deadline) ->
     data s' = data s).
Proof.
  intros Hb. unfold begin_writes_abort, begin, bind at 1 2, get_buffer. rewrite Hb.
  cbn [put_buffer bind ret].
  destruct (run_writes_in_txn ws [] (with_buffer (Some []) s) eq_refl)
    as (rs & s1 & Hrs & ([b1 Hb1] & Hl1 & Hn1 & He1)).
  unfold bind at 1. rewrite Hrs. unfold abort, bind, get_buffer. rewrite Hb1. cbn.
  eexists. eexists. split; [reflexivity|]. destruct s as [d b l n]. destruct s1 as [d1 b1' l1 n1].
  simpl in *. splits; try assumption; try reflexivity.
  intros Hlive. now apply evicts_nothing with (2 := Hlive) in He1.
Qed.


End Abort.

Lemma abort_restores_keyspace_and_log_witness :
  exists rs s',
    begin_writes_abort (frozen_clock 10) float_of_literal
      [W_set "a" "2"; W_del "a"; W_expire "b" "100"; W_persist "b"; W_mset ["c"; "3"]]
      (mkKVStore [("a", "1", None); ("b", "2", Some 50)] None (Some ["SET a 1"]) 0)
      = (Ret rs, s') /\
    transaction_buffer s' = None /\
    log_file s' = Some ["SET a 1"] /\
    evicts (frozen_clock 10) 0 (clock_reads s')
      [("a", "1", None); ("b", "2", Some 50)] (data s') /\
    ((forall k v deadline n,
        In (k, v, Some deadline) [("a", "1", None); ("b", "2", Some 50)] ->
        frozen_clock 10 n <= deadline) ->
     data s' = [("a", "1", None); ("b", "2", Some 50)]).
Proof.
  exact (abort_restores_keyspace_and_log (frozen_clock 10) float_of_literal
           [W_set "a" "2"; W_del "a"; W_expire "b" "100"; W_persist "b"; W_mset ["c"; "3"]]
           (mkKVStore [("a", "1", None); ("b", "2", Some 50)] None (Some ["SET a 1"]) 0)
           eq_refl).
Defined.

(** C8, as stated, fails: the deadline 5 of key a has passed at clock 10; the
    buffered EXPIRE discovers it and evicts the record, and after ABORT the
    key space is not the one before BEGIN. *)
Lemma abort_after_expire_evicts :
  begin_writes_abort (frozen_clock 10) float_of_literal [W_expire "a" "100"]
    (mkKVStore [("a", "1", Some 5)] None (Some ["SET a 1"; "EXPIRE a 5"]) 0)
  = (Ret ["OK"; "0"; "OK"],
     mkKVStore [] None (Some ["SET a 1"; "EXPIRE a 5"]) 2) /\
  data (mkKVStore [] None (Some ["SET a 1"; "EXPIRE a 5"]) 2) <> [("a", "1", Some 5)].
Proof. split; [reflexivity | discriminate]. Qed.

(** ** EXPIRE outside a transaction *)

Section Expire.

Variable clock : nat -> Z.
Variable float_of : string -> option Z.

(** C9 (amended). EXPIRE k ms with a non-numeric ms replies
    [ERR invalid TTL value] and changes nothing.  Outside a transaction, with
    ms <= 0 it always replies 1: a stored key is removed and [DEL k] is
    logged, an absent key changes nothing and logs nothing; with ms > 0 it
    replies 1 for a stored key, arms the deadline [now + ms] and logs
    [EXPIRE k ms], and replies 0 for an absent key.  Inside a transaction,
    ms <= 0 buffers a DEL and replies 1. *)
Theorem expire_replies key ms s :
  (float_of ms = None ->
   expire clock float_of key ms s = (Ret "ERR invalid TTL value", s)) /\
  (forall m, float_of ms = Some m -> m <= 0 ->
   transaction_buffer s = None -> ~ In key (keys_of (data s)) ->
   expire clock float_of key ms s = (Ret "1", s)) /\
  (forall m l1 v t l2, float_of ms = Some m -> m <= 0 ->
   transaction_buffer s = None -> sorted (data s) ->
   data s = l1 ++ (key, v, t) :: l2 ->
   expire clock float_of key ms s =
     (Ret "1", with_log (Some (log_lines s ++ [("DEL " ++ key)%string]))
                 (with_data (l1 ++ l2) s))) /\
  (forall m, float_of ms = Some m -> 0 < m ->
   transaction_buffer s = None -> ~ In key (keys_of (data s)) ->
   expire clock float_of key ms s = (Ret "0", with_reads (S (clock_reads s)) s)) /\
  (forall m l1 v t l2, float_of ms = Some m -> 0 < m ->
   transaction_buffer s = None -> sorted (data s) ->
   data s = l1 ++ (key, v, t) :: l2 ->
   expire clock float_of key ms s =
     (Ret "1",
      with_log (Some (log_lines s ++ [("EXPIRE " ++ key ++ " " ++ ms)%string]))
        (with_data (l1 ++ (key, v, Some (clock (clock_reads s) + m)) :: l2)
           (with_reads (S (clock_reads s)) s)))) /\
  (forall m b, float_of ms = Some m -> m <= 0 ->
   transaction_buffer s = Some b ->
   expire clock float_of key ms s = (Ret "1", with_buffer (Some (b ++ [IDel key])) s)).
Proof.
  destruct s as [d b l n].
  unfold expire, except_ValueError, float, _get_key_index, _find_key_index,
    data_getitem, data_setitem, data_pop, buffer_append, now, bind, get_buffer, get_data, ret.
  splits.
  - intros ->. reflexivity.
  - intros m -> Hm. simpl. intros -> Hn.
    apply Z.leb_le in Hm. rewrite Hm. kv_run. reflexivity.
  - intros m l1 v t l2 -> Hm. simpl. intros -> Hs ->.
    apply Z.leb_le in Hm. rewrite Hm. kv_run. reflexivity.
  - intros m -> Hm. simpl. intros -> Hn.
    apply Z.leb_gt in Hm. rewrite Hm. kv_run. reflexivity.
  - intros m l1 v t l2 -> Hm. simpl. intros -> Hs ->.
    apply Z.leb_gt in Hm. rewrite Hm. kv_run. reflexivity.
  - intros m b0 -> Hm. simpl. intros ->.
    apply Z.leb_le in Hm. rewrite Hm. reflexivity.
Qed.

End Expire.

Lemma expire_replies_witness :
  expire (frozen_clock 10) float_of_literal "k" "-1"
    (mkKVStore [("k", "v", None)] None (Some ["SET k v"]) 0)
  = (Ret "1", mkKVStore [] None (Some ["SET k v"; "DEL k"]) 0).
Proof.
  refine (proj1 (proj2 (proj2 (expire_replies (frozen_clock 10) float_of_literal
            "k" "-1" (mkKVStore [("k", "v", None)] None (Some ["SET k v"]) 0))))
          (-1) [] "v" None [] eq_refl _ eq_refl (sorted_singleton _) eq_refl).
  lia.
Defined.

(** C9, as stated, fails: EXPIRE with ms <= 0 on an absent key replies 1, not
    0, although nothing is deleted and no DEL is logged. *)
Lemma expire_absent_nonpositive :
  find_key_index "k" [] = -1 /\
  expire (frozen_clock 10) float_of_literal "k" "0" (mkKVStore [] None None 0)
  = (Ret "1", mkKVStore [] None None 0) /\
  "1" <> "0".
Proof. splits; [reflexivity | reflexivity | discriminate]. Qed.

(** ** Reads and writes under an open transaction *)

Section Overlay.

Variable clock : nat -> Z.
Variable float_of : string -> option Z.

Lemma key_in_txn_untouched key l :
  Forall (fun i => intent_key i <> key) l -> key_in_txn key l = false.
Proof.
  induction 1 as [|i l Hi _ IH]; [reflexivity|]. simpl.
  apply String.eqb_neq in Hi. now rewrite Hi.
Qed.

(** With a transaction open, the scan of [range] emits only keys for which
    the inner loop ends with [key_in_txn] set. *)
Lemma range_loop_in_txn start_key end_key b items :
  forall result s, transaction_buffer s = Some b ->
  exists out n',
    range_loop clock start_key end_key items result s
      = (Ret (result ++ out), with_reads n' s) /\
    forall k, In k out -> key_in_txn k (rev b) = true.
Proof.
  induction items as [|[[k v] t] items IH]; intros result s Hb.
  - exists [], (clock_reads s). rewrite app_nil_r. destruct s.
    split; [reflexivity | intros ? []].
  - assert (Hskip : forall n1,
              exists out n',
                range_loop clock start_key end_key items result (with_reads n1 s)
                  = (Ret (result ++ out), with_reads n' s) /\
                forall k0, In k0 out -> key_in_txn k0 (rev b) = true).
    { intros n1. destruct (IH result (with_reads n1 s) Hb) as (out & n' & Hr & Hout).
      exists out, n'. split; [rewrite Hr; now destruct s | assumption]. }
    assert (Hsame : with_reads (clock_reads s) s = s) by now destruct s.
    simpl.
    destruct (match start_key with Some s0 => (k <? s0)%string | None => false end).
    { destruct (Hskip (clock_reads s)) as (out & n' & Hr & Hout).
      rewrite Hsame in Hr. now exists out, n'. }
    destruct (match end_key with Some e => (e <? k)%string | None => false end).
    { destruct (Hskip (clock_reads s)) as (out & n' & Hr & Hout).
      rewrite Hsame in Hr. now exists out, n'. }
    unfold bind, now, get_buffer. simpl.
    destruct (match t with Some t0 => clock (clock_reads s) >? t0 | None => false end).
    { apply Hskip. }
    change (transaction_buffer (with_reads (S (clock_reads s)) s))
      with (transaction_buffer s).
    rewrite Hb. destruct (key_in_txn k (rev b)) eqn:E; simpl; [|apply Hskip].
    destruct (IH (result ++ [k]) (with_reads (S (clock_reads s)) s) Hb)
      as (out & n' & Hr & Hout).
    exists (k :: out), n'. split.
    + rewrite Hr, <- app_assoc. now destruct s.
    + intros k0 [<-|Hk0]; [assumption | now apply Hout].
Qed.

(** Inside a transaction [range] never lists a committed key that no
    buffered intent touches. *)
Lemma range_in_txn_omits_untouched key b lo hi s :
  transaction_buffer s = Some b ->
  Forall (fun i => intent_key i <> key) b ->
  exists ks n',
    range clock lo hi s = (Ret (ks ++ ["END"]), with_reads n' s) /\ ~ In key ks.
Proof.
  intros Hb Hu. unfold range, bind, get_data.
  destruct (range_loop_in_txn (if (lo =? "")%string then None else Some lo)
              (if (hi =? "")%string then None else Some hi) b (data s) [] s Hb)
    as (out & n' & Hr & Hout).
  rewrite Hr. exists out, n'. split; [reflexivity|].
  intros Hin. apply Hout in Hin.
  rewrite key_in_txn_untouched in Hin; [discriminate | now apply Forall_rev].
Qed.

Lemma latest_last (p : intent -> bool) pre i post :
  p i = true -> Forall (fun j => p j = false) post ->
  latest p (pre ++ i :: post) = Some i.
Proof.
  intros Hi Hpost. unfold latest. rewrite rev_app_distr. simpl. rewrite <- app_assoc.
  assert (H : forall l r, Forall (fun j => p j = false) l -> find p (l ++ r) = find p r).
  { induction 1 as [|x l Hx _ IH]; [reflexivity|]. simpl. now rewrite Hx. }
  rewrite H by now apply Forall_rev. simpl. now rewrite Hi.
Qed.

(** Inside a transaction, when the latest intent on [key] is an EXPIRE, the
    reply of [ttl] is the advance of the clock between its two readings,
    whatever the argument of the EXPIRE. *)
Lemma ttl_in_txn_latest_expire key arg ms pre post s :
  transaction_buffer s = Some (pre ++ IExpire key arg :: post) ->
  Forall (fun j => intent_key j <> key) post ->
  float_of arg = Some ms ->
  ttl clock float_of key s =
    (Ret (Py.str (Z.max 0 (clock (S (clock_reads s)) - clock (clock_reads s)))),
     with_reads (S (S (clock_reads s))) s).
Proof.
  intros Hb Hpost Hf. unfold ttl, bind at 1, get_buffer. rewrite Hb. cbv beta iota zeta.
  rewrite (latest_last _ pre (IExpire key arg) post).
  - unfold float. rewrite Hf. unfold bind, now, ret. destruct s as [d b0 l n]. simpl.
    do 3 f_equal. lia.
  - simpl. rewrite String.eqb_refl. reflexivity.
  - revert Hpost. apply Forall_impl. intros j Hj.
    destruct (is_set key j || is_del key j || is_expire key j) eqn:E; [|reflexivity].
    exfalso. apply Hj. now apply scan_key_2.
Qed.

(** Inside a transaction, EXPIRE with ms > 0 on a stored, unexpired key
    replies 1 and buffers the EXPIRE even when the buffer holds a DEL of
    that key: only buffered SETs are looked at. *)
Lemma expire_in_txn_ignores_del key arg ms v t l1 l2 b s :
  transaction_buffer s = Some b ->
  existsb (is_set key) b = false ->
  sorted (data s) ->
  data s = l1 ++ (key, v, t) :: l2 ->
  (forall deadline, t = Some deadline -> clock (S (clock_reads s)) <= deadline) ->
  float_of arg = Some ms -> 0 < ms ->
  exists n',
    expire clock float_of key arg s =
      (Ret "1", with_buffer (Some (b ++ [IExpire key arg])) (with_reads n' s)).
Proof.
  destruct s as [d b0 l n]. simpl. intros -> He Hs -> Hlive Hf Hm.
  unfold expire, except_ValueError, float, _find_key_index, _is_expired,
    data_getitem, data_pop, buffer_append, now, bind, get_buffer, get_data, ret.
  rewrite Hf. apply Z.leb_gt in Hm. rewrite Hm. cbn. rewrite He. kv_run.
  destruct t as [deadline|]; cbn.
  - specialize (Hlive deadline eq_refl).
    rewrite Z.gtb_ltb. apply Z.ltb_ge in Hlive. rewrite Hlive. cbn.
    now exists (S (S n)).
  - now exists (S n).
Qed.

End Overlay.

(** ** Runs of the dispatcher *)

(** C1.  Scenario S6 of the specification on an empty store: the reply to
    [RANGE a z] is the terminator alone.  Key c, committed, in range,
    unexpired and touched by no buffered intent, is not listed. *)
Theorem range_in_transaction_S6 (clock : nat -> Z) (float_of : string -> option Z) :
  main clock float_of None S6 =
    (Ret ["OK"; "OK"; "OK"; "OK"; "1"; "END"; "OK"],
     mkKVStore [("b", "2", None); ("c", "3", None)] None
       (Some ["SET a 1"; "SET c 3"; "SET b 2"; "DEL a"]) 2).
Proof. reflexivity. Qed.

(** C2.  TTL of a key whose latest buffered intent is EXPIRE x 60000: on a
    clock that does not move between the two readings the reply is 0, not
    60000. *)
Theorem ttl_after_buffered_expire :
  main (frozen_clock 1000) float_of_literal None
    ["SET x 1"; "BEGIN"; "EXPIRE x 60000"; "TTL x"] =
    (Ret ["OK"; "OK"; "1"; "0"],
     mkKVStore [("x", "1", None)] (Some [IExpire "x" "60000"]) (Some ["SET x 1"]) 3).
Proof. reflexivity. Qed.

(** C3.  EXPIRE a 1000 after a buffered DEL a: EXISTS a replies 0 (the
    latest intent on a is the DEL), yet EXPIRE replies 1 and appends its
    intent to the buffer. *)
Theorem expire_after_buffered_del :
  main (frozen_clock 1000) float_of_literal None
    ["SET a 1"; "BEGIN"; "DEL a"; "EXISTS a"; "EXPIRE a 1000"] =
    (Ret ["OK"; "OK"; "1"; "0"; "1"],
     mkKVStore [("a", "1", None)] (Some [IDel "a"; IExpire "a" "1000"])
       (Some ["SET a 1"]) 1).
Proof. reflexivity. Qed.

(** C4.  Replay of a log whose EXPIRE line names a stored key and carries a
    non-numeric third token: [float] raises [ValueError], which
    [_replay_log] does not handle, so the store is never constructed. *)
Theorem replay_raises_on_non_numeric_expire :
  float_of_literal "soon" = None /\
  __init__ (frozen_clock 1000) float_of_literal (Some ["SET a 1"; "EXPIRE a soon"]) 0 =
    (Raise (ValueError "could not convert string to float: 'soon'"),
     mkKVStore [("a", "1", None)] None (Some ["SET a 1"; "EXPIRE a soon"]) 1) /\
  fst (main (frozen_clock 1000) float_of_literal
         (Some ["SET a 1"; "EXPIRE a soon"]) ["GET a"]) =
    Raise (ValueError "could not convert string to float: 'soon'").
Proof. repeat split. Qed.

(** C6.  DEL k then PERSIST k on a stored key with a deadline: issued
    between BEGIN and COMMIT they leave k stored without deadline; issued
    outside a transaction they leave k absent. *)
Theorem commit_differs_on_del_persist :
  main (frozen_clock 1000) float_of_literal None
    ["SET k v"; "EXPIRE k 60000"; "BEGIN"; "DEL k"; "PERSIST k"; "COMMIT"] =
    (Ret ["OK"; "1"; "OK"; "1"; "1"; "OK"],
     mkKVStore [("k", "v", None)] None
       (Some ["SET k v"; "EXPIRE k 60000"; "DEL k"; "SET k v"]) 3) /\
  main (frozen_clock 1000) float_of_literal None
    ["SET k v"; "EXPIRE k 60000"; "DEL k"; "PERSIST k"] =
    (Ret ["OK"; "1"; "1"; "0"],
     mkKVStore [] None (Some ["SET k v"; "EXPIRE k 60000"; "DEL k"]) 1).
Proof. split; reflexivity. Qed.

(** ** Replay of the log *)

Section Replay.

Variable clock : nat -> Z.
Variable float_of : string -> option Z.

Lemma _set_key_total key value ttl s :
  exists s', _set_key key value ttl s = (Ret true, s').
Proof.
  destruct s as [d b l n].
  unfold _set_key, _find_key_index, data_getitem, data_setitem, put_data, bind, get_data, ret.
  cbn. destruct (find_key_index key d =? -1) eqn:E; cbn.
  - now eexists.
  - apply Z.eqb_neq in E.
    destruct (find_key_index_found key d E) as (l1 & v & t & l2 & -> & Hi).
    rewrite Hi. kv_run. now eexists.
Qed.

Lemma _delete_key_total key s :
  exists r s', _delete_key key s = (Ret r, s').
Proof.
  destruct s as [d b l n].
  unfold _delete_key, _find_key_index, data_pop, put_data, bind, get_data, ret.
  cbn. destruct (find_key_index key d =? -1) eqn:E; cbn.
  - now do 2 eexists.
  - apply Z.eqb_neq in E.
    destruct (find_key_index_found key d E) as (l1 & v & t & l2 & -> & Hi).
    rewrite Hi. kv_run. now do 2 eexists.
Qed.

(** A line of the log is replayed or skipped without error, except an
    EXPIRE line for a stored key whose third token [float] rejects. *)
Lemma replay_line_outcome line s :
  (exists s', replay_line clock float_of line s = (Ret tt, s')) \/
  (exists msg s',
     replay_line clock float_of line s = (Raise (ValueError msg), s') /\
     nth 0 (Py.split (Py.strip line)) "" = "EXPIRE" /\
     find_key_index (nth 1 (Py.split (Py.strip line)) "") (data s) <> -1 /\
     float_of (nth 2 (Py.split (Py.strip line)) "") = None).
Proof.
  unfold replay_line.
  destruct (Py.strip line =? "")%string; [left; now exists s|].
  destruct (Py.len (Py.split (Py.strip line)) <? 2); [left; now exists s|].
  set (parts := Py.split (Py.strip line)).
  destruct ((nth 0 parts "" =? "SET")%string && (Py.len parts >=? 3)).
  { left. destruct (_set_key_total (nth 1 parts "") (Py.join " " (skipn 2 parts)) None s)
      as (s' & H). unfold bind. rewrite H. now exists s'. }
  destruct ((nth 0 parts "" =? "DEL")%string && (Py.len parts >=? 2)).
  { left. destruct (_delete_key_total (nth 1 parts "") s) as (r & s' & H).
    unfold bind. rewrite H. now exists s'. }
  destruct ((nth 0 parts "" =? "EXPIRE")%string && (Py.len parts >=? 3)) eqn:Ecmd;
    [|left; now exists s].
  apply andb_true_iff in Ecmd. destruct Ecmd as [Ecmd _]. apply String.eqb_eq in Ecmd.
  destruct s as [d b l n].
  unfold _find_key_index, data_getitem, data_setitem, put_data, float, now,
    bind, get_data, ret.
  cbn. destruct (find_key_index (nth 1 parts "") d =? -1) eqn:E; cbn;
    [left; now eexists|].
  apply Z.eqb_neq in E.
  destruct (float_of (nth 2 parts "")) as [m|] eqn:Ef; cbn.
  - left. destruct (find_key_index_found _ d E) as (l1 & v & t & l2 & -> & Hi).
    rewrite Hi. kv_run. now eexists.
  - right. do 2 eexists. splits; [reflexivity | assumption | assumption | reflexivity].
Qed.

(** A missing log file is not an error. *)
Lemma _replay_log_missing_file s :
  log_file s = None -> _replay_log clock float_of s = (Ret tt, s).
Proof. intros H. unfold _replay_log. now rewrite H. Qed.

End Replay.

(** Short lines, a SET without value, an unknown command, blank lines and an
    EXPIRE of a key that is not stored are skipped. *)
Lemma replay_skips_malformed_lines (clock : nat -> Z) (float_of : string -> option Z) :
  __init__ clock float_of
    (Some ["SET a 1"; "SET"; "SET b"; "FOO x y"; "EXPIRE zz soon"; ""; "   "; "DEL"]) 0 =
  (Ret tt,
   mkKVStore [("a", "1", None)] None
     (Some ["SET a 1"; "SET"; "SET b"; "FOO x y"; "EXPIRE zz soon"; ""; "   "; "DEL"]) 0).
Proof. reflexivity. Qed.

(** * Further properties *)

(** ** The sorted key space as a map *)

Lemma lookup_absent key d : ~ In key (keys_of d) -> lookup key d = None.
Proof.
  induction d as [|[[k v] t] d IH]; simpl; intros Hn; [reflexivity|].
  destruct (String.eqb_spec k key) as [->|Hne]; [exfalso; apply Hn; now left|].
  apply IH. intros H. apply Hn. now right.
Qed.

Lemma lookup_stored key v t d : lookup key d = Some (v, t) -> In key (keys_of d).
Proof.
  intros H. destruct (lookup_split _ _ _ _ H) as (l1 & l2 & ->).
  unfold keys_of. rewrite map_app. apply in_elt.
Qed.

(** Records of other keys do not matter to [lookup]. *)
Lemma lookup_skip k x l1 l2 :
  item_key x <> k -> lookup k (l1 ++ x :: l2) = lookup k (l1 ++ l2).
Proof.
  intros Hne. induction l1 as [|[[k' v'] t'] l1 IH]; simpl.
  - destruct x as [[kx vx] tx]. simpl in Hne.
    now rewrite (proj2 (String.eqb_neq kx k) Hne).
  - now rewrite IH.
Qed.

Lemma lookup_removed key v t l1 l2 :
  sorted (l1 ++ (key, v, t) :: l2) -> lookup key (l1 ++ l2) = None.
Proof.
  intros Hs. apply lookup_absent. destruct (sorted_key_unique _ _ _ _ _ Hs) as [H1 H2].
  unfold keys_of. rewrite map_app. intros H. apply in_app_or in H. tauto.
Qed.

(** X1.  On sorted data the binary search of [_find_key_index] agrees with
    the map view of the key space: it returns the position of the record of
    a stored key, and [-1] exactly for a key that is not stored. *)
Theorem find_key_index_correct key d :
  sorted d ->
  match lookup key d with
  | Some (v, t) =>
      exists l1 l2, d = l1 ++ (key, v, t) :: l2 /\ find_key_index key d = Py.len l1
  | None => find_key_index key d = -1
  end.
Proof.
  intros Hs. destruct (lookup key d) as [[v t]|] eqn:E.
  - destruct (lookup_split _ _ _ _ E) as (l1 & l2 & ->).
    exists l1, l2. split; [reflexivity | now apply find_key_index_sorted].
  - apply find_key_index_absent. intros Hin.
    destruct (stored_or_absent key d) as [(l1 & v & t & l2 & ->) | Hn]; [|contradiction].
    rewrite lookup_sorted_middle in E by assumption. discriminate.
Qed.

Lemma find_key_index_correct_witness :
  (exists l1 l2,
     [("a", "1", None); ("c", "3", Some 7); ("e", "5", None)] = l1 ++ ("c", "3", Some 7) :: l2 /\
     find_key_index "c" [("a", "1", None); ("c", "3", Some 7); ("e", "5", None)] = Py.len l1) /\
  find_key_index "d" [("a", "1", None); ("c", "3", Some 7); ("e", "5", None)] = -1.
Proof.
  assert (Hs : sorted [("a", "1", None); ("c", "3", Some 7); ("e", "5", None)])
    by (repeat constructor).
  split.
  - exact (find_key_index_correct "c" _ Hs).
  - exact (find_key_index_correct "d" _ Hs).
Defined.

Section Upsert.

(** X2.  [_set_key] on sorted data is an upsert of the map: it returns
    [True], the key is then stored with the new value and with the given
    deadline (or, when none is given, the deadline it had, if any), every
    other key is as before, the data stay sorted, and nothing else of the
    store changes. *)
Theorem set_key_upsert key value ttl s :
  sorted (data s) ->
  exists d',
    _set_key key value ttl s = (Ret true, with_data d' s) /\
    sorted d' /\
    lookup key d' =
      Some (value,
            match ttl with
            | Some _ => ttl
            | None => match lookup key (data s) with Some (_, t) => t | None => None end
            end) /\
    (forall k, k <> key -> lookup k d' = lookup k (data s)).
Proof.
  intros Hs. destruct (stored_or_absent key (data s)) as [(l1 & v0 & t0 & l2 & Hd) | Hn].
  - rewrite (_set_key_stored key v0 t0 value ttl l1 l2 s Hs Hd).
    eexists. split; [reflexivity|]. rewrite Hd in *.
    assert (Hs' : sorted (l1 ++ (key, value, match ttl with Some _ => ttl | None => t0 end) :: l2))
      by (revert Hs; now apply sorted_replace).
    splits.
    + assumption.
    + rewrite !lookup_sorted_middle by assumption. now destruct ttl.
    + intros k Hk. rewrite !lookup_skip by (unfold item_key; simpl; congruence). reflexivity.
  - destruct (_set_key_new key value ttl s Hs Hn) as (l1 & l2 & Hd & Hs' & Hrun).
    rewrite Hrun. eexists. split; [reflexivity|]. splits.
    + assumption.
    + rewrite lookup_sorted_middle by assumption. rewrite (lookup_absent key (data s) Hn).
      now destruct ttl.
    + intros k Hk. rewrite lookup_skip by (unfold item_key; simpl; congruence). now rewrite Hd.
Qed.

(** X3.  [_delete_key] on sorted data removes the key from the map: it
    returns whether the key was stored, the key is then not stored, every
    other key is as before, the data stay sorted, and nothing else of the
    store changes. *)
Theorem delete_key_erase key s :
  sorted (data s) ->
  exists d',
    _delete_key key s =
      (Ret (match lookup key (data s) with Some _ => true | None => false end),
       with_data d' s) /\
    sorted d' /\
    lookup key d' = None /\
    (forall k, k <> key -> lookup k d' = lookup k (data s)).
Proof.
  intros Hs. destruct (stored_or_absent key (data s)) as [(l1 & v0 & t0 & l2 & Hd) | Hn].
  - rewrite (_delete_key_stored key v0 t0 l1 l2 s Hs Hd).
    exists (l1 ++ l2). rewrite Hd in *. rewrite lookup_sorted_middle by assumption.
    splits; [reflexivity | revert Hs; apply sorted_remove | now apply lookup_removed with v0 t0 |].
    intros k Hk. rewrite lookup_skip by (unfold item_key; simpl; congruence). reflexivity.
  - rewrite (_delete_key_absent key s Hn), (lookup_absent key (data s) Hn).
    exists (data s). splits; [now destruct s | assumption | now apply lookup_absent | reflexivity].
Qed.

End Upsert.

Lemma set_key_upsert_witness :
  exists d',
    _set_key "b" "2" None (mkKVStore [("a", "1", None); ("c", "3", Some 7)] None None 0)
      = (Ret true, mkKVStore d' None None 0) /\
    sorted d' /\
    lookup "b" d' = Some ("2", None) /\
    (forall k, k <> "b" -> lookup k d' = lookup k [("a", "1", None); ("c", "3", Some 7)]).
Proof.
  apply (set_key_upsert "b" "2" None
           (mkKVStore [("a", "1", None); ("c", "3", Some 7)] None None 0)).
  repeat constructor.
Defined.

Lemma delete_key_erase_witness :
  exists d',
    _delete_key "c" (mkKVStore [("a", "1", None); ("c", "3", Some 7)] None None 0)
      = (Ret true, mkKVStore d' None None 0) /\
    sorted d' /\
    lookup "c" d' = None /\
    (forall k, k <> "c" -> lookup k d' = lookup k [("a", "1", None); ("c", "3", Some 7)]).
Proof.
  apply (delete_key_erase "c"
           (mkKVStore [("a", "1", None); ("c", "3", Some 7)] None None 0)).
  repeat constructor.
Defined.

(** ** The invariant of the store *)

Lemma keeps_ret {A} (P : KVStore -> Prop) (a : A) : keeps P (ret a).
Proof. intros s H. exact H. Qed.

Lemma keeps_bind {A B} (P : KVStore -> Prop) (m : M A) (k : A -> M B) :
  keeps P m -> (forall a, keeps P (k a)) -> keeps P (bind m k).
Proof.
  intros Hm Hk s H. unfold bind. specialize (Hm s H).
  destruct (m s) as [[a|e] s1]; simpl in *; [now apply Hk | assumption].
Qed.

Lemma keeps_except {A} (P : KVStore -> Prop) (m h : M A) :
  keeps P m -> keeps P h -> keeps P (except_ValueError m h).
Proof.
  intros Hm Hh s H. unfold except_ValueError. specialize (Hm s H).
  destruct (m s) as [[a|[msg|msg|msg]] s1]; simpl in *; try assumption. now apply Hh.
Qed.

Lemma keeps_for_each {A} (P : KVStore -> Prop) (f : A -> M unit) (l : list A) :
  (forall x, keeps P (f x)) -> keeps P (for_each f l).
Proof.
  intros Hf. induction l as [|x l IH]; simpl; [apply keeps_ret|].
  apply keeps_bind; [apply Hf | intros _; exact IH].
Qed.

Lemma keeps_unchanged {A} (P : KVStore -> Prop) (m : M A) :
  (forall s, snd (m s) = s) -> keeps P m.
Proof. intros H s Hs. now rewrite H. Qed.

(** The search, resolved: [-1], or the position that splits the data. *)
Lemma found_cases key d :
  find_key_index key d = -1 \/
  exists l1 v t l2, d = l1 ++ (key, v, t) :: l2 /\ find_key_index key d = Py.len l1.
Proof.
  destruct (Z.eq_dec (find_key_index key d) (-1)) as [E | E]; [now left | right].
  destruct (find_key_index_found key d E) as (l1 & v & t & l2 & Hd & Hi).
  now exists l1, v, t, l2.
Qed.

(** Case analysis on the tests a method makes, once the search is resolved. *)
Ltac crunch :=
  repeat (kv_run;
          match goal with
          | |- context [match ?x with _ => _ end] =>
              lazymatch x with
              | context [match _ with _ => _ end] => fail
              | _ => destruct x eqn:?
              end
          end);
  kv_run.

(** The goals left by [crunch]: the invariant on an explicit store. *)
Ltac wf_close :=
  unfold well_formed, buffer_ok in *; simpl in *;
  repeat match goal with
         | H : _ /\ _ |- _ => destruct H
         | |- _ /\ _ => split
         end;
  try assumption; try exact I;
  try (eapply sorted_remove; eassumption);
  try (eapply sorted_replace; [|eassumption]; reflexivity);
  try (apply Forall_app; split; [assumption|];
       repeat constructor; simpl; congruence).

Section Invariant.

Variable clock : nat -> Z.
Variable float_of : string -> option Z.

Abbreviation wf := (well_formed float_of).

(** Open the invariant of a store given by its fields and resolve the
    search for [key]. *)
Ltac resolve key d Hs :=
  destruct (stored_or_absent key d) as [(?l1 & ?v & ?t & ?l2 & ->) | ?Hn].

Lemma keeps__set_key key value ttl : keeps wf (_set_key key value ttl).
Proof.
  intros s [Hs Hb]. destruct (set_key_upsert key value ttl s Hs) as (d' & Hrun & Hs' & _).
  rewrite Hrun. destruct s. split; assumption.
Qed.

Lemma keeps__delete_key key : keeps wf (_delete_key key).
Proof.
  intros s [Hs Hb]. destruct (delete_key_erase key s Hs) as (d' & Hrun & Hs' & _).
  rewrite Hrun. destruct s. split; assumption.
Qed.

Lemma keeps__write_to_log command : keeps wf (_write_to_log command).
Proof. intros s H. destruct s. exact H. Qed.

Lemma keeps_get key : keeps wf (get clock key).
Proof.
  intros [d b l n] [Hs Hb]. simpl in Hs. unfold buffer_ok in Hb. simpl in Hb.
  unfold get, latest, _get_key_index, _find_key_index, _is_expired, data_getitem, data_pop,
    now, bind, get_buffer, get_data, ret.
  resolve key d Hs; crunch; wf_close.
Qed.

Ltac open_store H :=
  let Hs := fresh "Hs" in
  let Hb := fresh "Hb" in
  intros [d b l n] [Hs Hb]; simpl in Hs; unfold buffer_ok in Hb; simpl in Hb.

Lemma keeps_exists_ key : keeps wf (exists_ clock key).
Proof.
  open_store H.
  unfold exists_, latest, _get_key_index, _find_key_index, _is_expired, data_getitem,
    data_pop, now, bind, get_buffer, get_data, ret.
  resolve key d Hs; crunch; wf_close.
Qed.

Lemma keeps_ttl key : keeps wf (ttl clock float_of key).
Proof.
  open_store H.
  unfold ttl, latest, float, _get_key_index, _find_key_index, _is_expired, data_getitem,
    data_pop, now, bind, get_buffer, get_data, ret, raise.
  resolve key d Hs; crunch; wf_close.
Qed.

Lemma keeps_delete key : keeps wf (delete clock key).
Proof.
  open_store H.
  unfold delete, _get_key_index, _find_key_index, data_pop, buffer_append, _write_to_log,
    bind, get_buffer, get_data, ret.
  resolve key d Hs; crunch; wf_close.
Qed.

Lemma keeps_persist key : keeps wf (persist clock key).
Proof.
  open_store H.
  unfold persist, latest, _get_key_index, _find_key_index, _is_expired, data_getitem,
    data_setitem, data_pop, buffer_append, _write_to_log, now, bind, get_buffer, get_data, ret.
  resolve key d Hs; crunch; wf_close.
Qed.

Lemma keeps_expire key milliseconds : keeps wf (expire clock float_of key milliseconds).
Proof.
  open_store H.
  unfold expire, except_ValueError, float, _get_key_index, _find_key_index, _is_expired,
    data_getitem, data_setitem, data_pop, buffer_append, _write_to_log, now, bind,
    get_buffer, get_data, ret, raise.
  resolve key d Hs; crunch; wf_close.
Qed.

Lemma keeps_buffer_append i : parses float_of i -> keeps wf (buffer_append i).
Proof.
  intros Hi. open_store H. unfold buffer_append. destruct b as [b|]; simpl; wf_close.
Qed.

Lemma keeps_put_buffer_closed : keeps wf (put_buffer None).
Proof. open_store H. wf_close. Qed.

Lemma keeps_put_buffer_empty : keeps wf (put_buffer (Some [])).
Proof. open_store H. wf_close. constructor. Qed.

Lemma current_ttl_of_unchanged key s : snd (current_ttl_of key s) = s.
Proof.
  destruct s as [d b l n].
  unfold current_ttl_of, _find_key_index, data_getitem, bind, get_data, ret, raise.
  cbn. destruct (negb _); cbn; [|reflexivity]. now destruct (Py.getitem _ _).
Qed.

Lemma keeps_set key value : keeps wf (set key value).
Proof.
  unfold set. apply keeps_bind; [now apply keeps_unchanged|]. intros [b|].
  - apply keeps_bind; [apply keeps_unchanged, current_ttl_of_unchanged|]. intros t.
    apply keeps_bind; [now apply keeps_buffer_append | intros; apply keeps_ret].
  - apply keeps_bind; [apply keeps__set_key|]. intros _.
    apply keeps_bind; [apply keeps__write_to_log | intros; apply keeps_ret].
Qed.

Lemma keeps_mset args : keeps wf (mset args).
Proof.
  unfold mset. destruct (negb _); [apply keeps_ret|].
  apply keeps_bind; [now apply keeps_unchanged|]. intros [b|].
  - apply keeps_bind; [|intros; apply keeps_ret]. apply keeps_for_each. intros kv.
    apply keeps_bind; [apply keeps_unchanged, current_ttl_of_unchanged|]. intros t.
    now apply keeps_buffer_append.
  - apply keeps_bind; [|intros; apply keeps_ret]. apply keeps_for_each. intros kv.
    apply keeps_bind; [apply keeps__set_key | intros; apply keeps__write_to_log].
Qed.

Lemma keeps_mget keys : keeps wf (mget clock keys).
Proof.
  induction keys as [|k keys IH]; simpl; [apply keeps_ret|].
  apply keeps_bind; [apply keeps_get|]. intros v.
  apply keeps_bind; [exact IH | intros; apply keeps_ret].
Qed.

Lemma keeps_begin : keeps wf begin.
Proof.
  unfold begin. apply keeps_bind; [now apply keeps_unchanged|]. intros [b|].
  - apply keeps_ret.
  - apply keeps_bind; [apply keeps_put_buffer_empty | intros; apply keeps_ret].
Qed.

Lemma keeps_abort : keeps wf abort.
Proof.
  unfold abort. apply keeps_bind; [now apply keeps_unchanged|]. intros [b|].
  - apply keeps_bind; [apply keeps_put_buffer_closed | intros; apply keeps_ret].
  - apply keeps_ret.
Qed.

(** The EXPIRE step of commit and replay: the record found keeps its key. *)
Lemma keeps_arm_deadline key ms (k : M unit) :
  keeps wf k ->
  keeps wf (index <- _find_key_index key ;;
            if negb (index =? -1) then
              t <- now clock ;;
              m <- float float_of ms ;;
              let ttl := t + m in
              it <- data_getitem index ;;
              data_setitem index (item_key it, item_value it, Some ttl) ;;
              k
            else ret tt).
Proof.
  intros Hk. open_store H.
  unfold float, _find_key_index, data_getitem, data_setitem, now, bind, get_data, ret, raise.
  resolve key d Hs; crunch;
    try (match goal with |- context [k ?s] => apply Hk end); wf_close.
Qed.

Lemma keeps_apply_intent i : keeps wf (apply_intent clock float_of i).
Proof.
  destruct i as [key value ttl | key | key ms]; simpl.
  - apply keeps_bind; [apply keeps__set_key | intros; apply keeps__write_to_log].
  - apply keeps_bind; [apply keeps__delete_key|]. intros [|];
      [apply keeps__write_to_log | apply keeps_ret].
  - apply (keeps_arm_deadline key ms (_write_to_log ("EXPIRE " ++ key ++ " " ++ ms)%string)).
    apply keeps__write_to_log.
Qed.

Lemma keeps_commit : keeps wf (commit clock float_of).
Proof.
  unfold commit. apply keeps_bind; [now apply keeps_unchanged|]. intros [b|]; [|apply keeps_ret].
  apply keeps_bind.
  - unfold _apply_transaction. apply keeps_bind; [now apply keeps_unchanged|].
    intros [[|i b']|]; try apply keeps_ret.
    apply keeps_for_each, keeps_apply_intent.
  - intros _. apply keeps_bind; [apply keeps_put_buffer_closed | intros; apply keeps_ret].
Qed.

Lemma keeps_range lo hi : keeps wf (range clock lo hi).
Proof.
  intros s H. unfold range, bind, get_data.
  destruct (range_loop_spec clock (if (lo =? "")%string then None else Some lo)
              (if (hi =? "")%string then None else Some hi) (data s) [] s)
    as (out & n' & Hr & _).
  rewrite Hr. destruct s. exact H.
Qed.

Lemma keeps_replay_line line : keeps wf (replay_line clock float_of line).
Proof.
  unfold replay_line.
  destruct (_ =? "")%string; [apply keeps_ret|].
  destruct (_ <? 2); [apply keeps_ret|].
  destruct (_ && _).
  { apply keeps_bind; [apply keeps__set_key | intros; apply keeps_ret]. }
  destruct (_ && _).
  { apply keeps_bind; [apply keeps__delete_key | intros; apply keeps_ret]. }
  destruct (_ && _); [|apply keeps_ret].
  pose proof (keeps_arm_deadline (nth 1 (Py.split (Py.strip line)) "")
                (nth 2 (Py.split (Py.strip line)) "") (ret tt) (keeps_ret _ tt)) as H.
  intros s Hs. specialize (H s Hs). revert H.
  destruct s as [d b l n].
  unfold float, _find_key_index, data_getitem, data_setitem, now, bind, get_data, ret, raise.
  cbn. crunch; auto.
Qed.

Lemma keeps__replay_log : keeps wf (_replay_log clock float_of).
Proof.
  intros s H. unfold _replay_log. destruct (log_file s) as [lines|]; [|exact H].
  now apply keeps_for_each; [apply keeps_replay_line|].
Qed.

Lemma keeps_dispatch cmd args : keeps wf (dispatch clock float_of cmd args).
Proof.
  unfold dispatch. cbv zeta.
  repeat match goal with |- keeps _ (if ?c then _ else _) => destruct c end;
    try (apply keeps_bind; [|intros; apply keeps_ret]);
    first [ apply keeps_ret | apply keeps_set | apply keeps_get | apply keeps_delete
          | apply keeps_exists_ | apply keeps_mset | apply keeps_mget | apply keeps_begin
          | apply keeps_commit | apply keeps_abort | apply keeps_expire | apply keeps_ttl
          | apply keeps_persist | apply keeps_range ].
Qed.

Lemma keeps_main_line line : keeps wf (main_line clock float_of line).
Proof.
  unfold main_line. destruct (_ =? "")%string; [apply keeps_ret|].
  destruct (Py.split _) as [|p0 args]; [apply keeps_ret|].
  intros s H. pose proof (keeps_dispatch (Py.upper p0) args s H) as Hd.
  destruct (dispatch _ _ _ _ s) as [[r|e] s']; exact Hd.
Qed.

Lemma keeps_main_loop lines : keeps wf (main_loop clock float_of lines).
Proof.
  induction lines as [|line lines IH]; simpl; [apply keeps_ret|].
  apply keeps_bind; [apply keeps_main_line|]. intros [out|]; [|apply keeps_ret].
  apply keeps_bind; [exact IH | intros; apply keeps_ret].
Qed.

(** X4.  The invariant of the store.  Whatever the log file and the input
    lines, the store that [main] leaves (after the replay and the command
    loop, or when the replay raises) has its keys strictly ascending, and
    every EXPIRE intent of a transaction left open carries an argument that
    [float] accepts.  Each command of the dispatcher keeps this invariant. *)
Theorem main_keeps_invariant file stdin :
  well_formed float_of (snd (main clock float_of file stdin)) /\
  (forall line s, well_formed float_of s ->
     well_formed float_of (snd (main_line clock float_of line s))).
Proof.
  split; [|intros line s; apply keeps_main_line].
  unfold main, __init__.
  assert (H0 : wf (mkKVStore [] None file 0)) by (split; [constructor | exact I]).
  pose proof (keeps__replay_log _ H0) as H1.
  destruct (_replay_log clock float_of (mkKVStore [] None file 0)) as [[[]|e] s1];
    simpl in *; [|exact H1].
  now apply keeps_main_loop.
Qed.

End Invariant.

Lemma main_keeps_invariant_witness :
  well_formed float_of_literal
    (snd (main (frozen_clock 10) float_of_literal (Some ["SET b 2"; "SET a 1"]) ["BEGIN"])) /\
  well_formed float_of_literal
    (snd (main_line (frozen_clock 10) float_of_literal "SET a 1"
            (mkKVStore [("b", "2", None)] None None 0))).
Proof.
  pose proof (main_keeps_invariant (frozen_clock 10) float_of_literal
                (Some ["SET b 2"; "SET a 1"]) ["BEGIN"]) as [H1 H2].
  split; [exact H1|]. apply H2. split; [repeat constructor | exact I].
Defined.

(** ** No command raises *)





Section NoRaise.

Variable clock : nat -> Z.
Variable float_of : string -> option Z.

Abbreviation wf := (well_formed float_of).

Ltac open_store :=
  let Hs := fresh "Hs" in
  let Hb := fresh "Hb" in
  intros [d b l n] [Hs Hb]; simpl in Hs; unfold buffer_ok in Hb; simpl in Hb.

Ltac resolve key d :=
  destruct (stored_or_absent key d) as [(?l1 & ?v & ?t & ?l2 & ->) | ?Hn].

Lemma succeeds_get_buffer : succeeds wf get_buffer.
Proof. intros s H. now exists (transaction_buffer s), s. Qed.


Lemma succeeds__delete_key key : succeeds wf (_delete_key key).
Proof.
  intros s [Hs Hb]. destruct (delete_key_erase key s Hs) as (d' & Hrun & Hs' & _).
  rewrite Hrun. do 2 eexists. split; [reflexivity|]. destruct s. now split.
Qed.




(** An EXPIRE intent found in a buffer that satisfies the invariant has an
    argument that [float] accepts. *)
Lemma latest_parses p b k arg :
  Forall (parses float_of) b -> latest p b = Some (IExpire k arg) ->
  float_of arg <> None.
Proof.
  intros Hb Hl. unfold latest in Hl. apply find_some in Hl. destruct Hl as [Hin _].
  apply in_rev in Hin. rewrite Forall_forall in Hb. exact (Hb _ Hin).
Qed.















End NoRaise.


(** ** Writes followed by reads *)

Section WriteRead.

Variable clock : nat -> Z.
Variable float_of : string -> option Z.

Lemma latest_appended (p : intent -> bool) b i :
  p i = true -> latest p (b ++ [i]) = Some i.
Proof. intros H. apply latest_last; [assumption | constructor]. Qed.

(** X6.  Read-your-writes.  Inside a transaction, after SET k v the reads of
    k answer from the buffer: GET replies v, EXISTS 1 and TTL -1; after DEL k
    they reply nil, 0 and -2.  The writes change the buffer only, and these
    reads change nothing: the committed record of k is not inspected, so it
    is not evicted even when its deadline has passed. *)
Theorem read_your_writes key value b s :
  transaction_buffer s = Some b ->
  sorted (data s) ->
  (exists t,
     let s1 := with_buffer (Some (b ++ [ISet key value t])) s in
     set key value s = (Ret "OK", s1) /\
     get clock key s1 = (Ret value, s1) /\
     exists_ clock key s1 = (Ret "1", s1) /\
     ttl clock float_of key s1 = (Ret "-1", s1)) /\
  (let s2 := with_buffer (Some (b ++ [IDel key])) s in
   delete clock key s = (Ret "1", s2) /\
   get clock key s2 = (Ret "nil", s2) /\
   exists_ clock key s2 = (Ret "0", s2) /\
   ttl clock float_of key s2 = (Ret "-2", s2)).
Proof.
  intros Hb Hs. split.
  - eexists. cbv zeta. split; [now apply set_buffered|].
    unfold get, exists_, ttl, bind, get_buffer. cbn [transaction_buffer with_buffer].
    rewrite !latest_appended by (simpl; now rewrite String.eqb_refl).
    now splits.
  - cbv zeta. split.
    { unfold delete, bind, get_buffer, buffer_append. rewrite Hb. cbn. now rewrite Hb. }
    unfold get, exists_, ttl, bind, get_buffer. cbn [transaction_buffer with_buffer].
    rewrite !latest_appended by (simpl; rewrite String.eqb_refl; now rewrite ?orb_true_r).
    now splits.
Qed.

(** X7.  SET then GET.  Outside a transaction, when k is not stored, or is
    stored with no deadline or with a deadline that the next clock reading
    has not passed, SET k v is followed by GET k = v and EXISTS k = 1. *)
Theorem set_then_get key value s :
  transaction_buffer s = None ->
  sorted (data s) ->
  match lookup key (data s) with
  | Some (_, Some deadline) => clock (clock_reads s) <= deadline
  | _ => True
  end ->
  exists s1,
    set key value s = (Ret "OK", s1) /\
    fst (get clock key s1) = Ret value /\
    fst (exists_ clock key s1) = Ret "1".
Proof.
  intros Hb Hs Hlive. unfold set, bind at 1, get_buffer. rewrite Hb. cbv beta iota.
  destruct (set_key_upsert key value None s Hs) as (d' & Hrun & Hs' & Hl & _).
  unfold bind at 1 2. rewrite Hrun. unfold _write_to_log, ret.
  eexists. split; [reflexivity|].
  destruct (lookup_split _ _ _ _ Hl) as (l1 & l2 & ->).
  destruct s as [d b0 l n]. simpl in *. subst b0.
  unfold get, exists_, _get_key_index, _find_key_index, _is_expired, data_getitem, data_pop,
    now, bind, get_buffer, get_data, ret.
  destruct (lookup key d) as [[v0 [deadline|]]|]; kv_run; try (now split).
  rewrite Z.gtb_ltb. apply Z.ltb_ge in Hlive. rewrite Hlive. kv_run. now split.
Qed.

(** X8.  SET does not revive an expired record.  Outside a transaction, when
    k is still stored with a deadline that the next clock reading has
    passed, SET k v keeps that deadline, so the following GET k replies nil
    and removes the record: the value just written is lost. *)
Theorem set_on_expired_is_lost key value v0 deadline l1 l2 s :
  transaction_buffer s = None ->
  sorted (data s) ->
  data s = l1 ++ (key, v0, Some deadline) :: l2 ->
  deadline < clock (clock_reads s) ->
  exists s1,
    set key value s = (Ret "OK", s1) /\
    data s1 = l1 ++ (key, value, Some deadline) :: l2 /\
    exists s2, get clock key s1 = (Ret "nil", s2) /\ data s2 = l1 ++ l2.
Proof.
  intros Hb Hs Hd Hpast. unfold set, bind at 1, get_buffer. rewrite Hb. cbv beta iota.
  unfold bind at 1 2.
  rewrite (_set_key_stored key v0 (Some deadline) value None l1 l2 s Hs Hd).
  unfold _write_to_log, ret. eexists. split; [reflexivity|]. split; [reflexivity|].
  eexists. rewrite get_expired with (v := value) (deadline := deadline) (l1 := l1) (l2 := l2).
  - split; reflexivity.
  - simpl. rewrite Hd in Hs. revert Hs. now apply sorted_replace.
  - reflexivity.
  - unfold untouched. simpl. now rewrite Hb.
  - exact Hpast.
Qed.

(** X9.  DEL then EXISTS.  Outside a transaction DEL k replies 1 exactly when
    a record of k is stored (expired or not) and logs [DEL k] only then;
    afterwards EXISTS k replies 0 and GET k replies nil, and neither changes
    the store. *)
Theorem delete_then_exists key s :
  transaction_buffer s = None ->
  sorted (data s) ->
  exists s1,
    delete clock key s =
      (Ret (match lookup key (data s) with Some _ => "1" | None => "0" end), s1) /\
    log_file s1 =
      match lookup key (data s) with
      | Some _ => Some (log_lines s ++ [("DEL " ++ key)%string])
      | None => log_file s
      end /\
    exists_ clock key s1 = (Ret "0", s1) /\
    get clock key s1 = (Ret "nil", s1).
Proof.
  intros Hb Hs.
  destruct (stored_or_absent key (data s)) as [(l1 & v0 & t0 & l2 & Hd) | Hn].
  - rewrite (delete_stored clock key v0 t0 l1 l2 s Hb Hs Hd).
    rewrite Hd in Hs. rewrite Hd, lookup_sorted_middle by assumption.
    eexists. split; [reflexivity|]. split; [reflexivity|].
    assert (Hn : ~ In key (keys_of (l1 ++ l2))).
    { intros Hin. pose proof (lookup_removed _ _ _ _ _ Hs) as Hl.
      destruct (stored_or_absent key (l1 ++ l2)) as [(m1 & v & t & m2 & Hm) | Hn'];
        [|contradiction].
      rewrite Hm in Hl. rewrite lookup_sorted_middle in Hl; [discriminate|].
      rewrite <- Hm. revert Hs. apply sorted_remove. }
    destruct s as [d b0 l n]. simpl in *. subst b0.
    unfold exists_, get, _get_key_index, _find_key_index, bind, get_buffer, get_data, ret.
    kv_run. now split.
  - rewrite (delete_absent clock key s Hb Hn), (lookup_absent _ _ Hn).
    exists s. split; [reflexivity|]. split; [reflexivity|].
    destruct s as [d b0 l n]. simpl in *. subst b0.
    unfold exists_, get, _get_key_index, _find_key_index, bind, get_buffer, get_data, ret.
    kv_run. now split.
Qed.

End WriteRead.

Lemma read_your_writes_witness :
  (exists t,
     let s1 := mkKVStore [("k", "old", Some 5)] (Some [ISet "k" "new" t]) None 0 in
     set "k" "new" (mkKVStore [("k", "old", Some 5)] (Some []) None 0) = (Ret "OK", s1) /\
     get (frozen_clock 10) "k" s1 = (Ret "new", s1) /\
     exists_ (frozen_clock 10) "k" s1 = (Ret "1", s1) /\
     ttl (frozen_clock 10) float_of_literal "k" s1 = (Ret "-1", s1)) /\
  (let s2 := mkKVStore [("k", "old", Some 5)] (Some [IDel "k"]) None 0 in
   delete (frozen_clock 10) "k" (mkKVStore [("k", "old", Some 5)] (Some []) None 0)
     = (Ret "1", s2) /\
   get (frozen_clock 10) "k" s2 = (Ret "nil", s2) /\
   exists_ (frozen_clock 10) "k" s2 = (Ret "0", s2) /\
   ttl (frozen_clock 10) float_of_literal "k" s2 = (Ret "-2", s2)).
Proof.
  exact (read_your_writes (frozen_clock 10) float_of_literal "k" "new" []
           (mkKVStore [("k", "old", Some 5)] (Some []) None 0) eq_refl (sorted_singleton _)).
Defined.

Lemma set_then_get_witness :
  exists s1,
    set "k" "new" (mkKVStore [("k", "old", Some 50)] None None 0) = (Ret "OK", s1) /\
    fst (get (frozen_clock 10) "k" s1) = Ret "new" /\
    fst (exists_ (frozen_clock 10) "k" s1) = Ret "1".
Proof.
  apply (set_then_get (frozen_clock 10) "k" "new"
           (mkKVStore [("k", "old", Some 50)] None None 0) eq_refl (sorted_singleton _)).
  simpl. unfold frozen_clock. lia.
Defined.

Lemma set_on_expired_is_lost_witness :
  exists s1,
    set "k" "new" (mkKVStore [("k", "old", Some 5)] None None 0) = (Ret "OK", s1) /\
    data s1 = [("k", "new", Some 5)] /\
    exists s2, get (frozen_clock 10) "k" s1 = (Ret "nil", s2) /\ data s2 = [].
Proof.
  apply (set_on_expired_is_lost (frozen_clock 10) "k" "new" "old" 5 [] []
           (mkKVStore [("k", "old", Some 5)] None None 0) eq_refl (sorted_singleton _) eq_refl).
  reflexivity.
Defined.

Lemma delete_then_exists_witness :
  exists s1,
    delete (frozen_clock 10) "k" (mkKVStore [("k", "v", Some 5)] None None 0)
      = (Ret "1", s1) /\
    log_file s1 = Some ["DEL k"] /\
    exists_ (frozen_clock 10) "k" s1 = (Ret "0", s1) /\
    get (frozen_clock 10) "k" s1 = (Ret "nil", s1).
Proof.
  exact (delete_then_exists (frozen_clock 10) "k"
           (mkKVStore [("k", "v", Some 5)] None None 0) eq_refl (sorted_singleton _)).
Defined.

(** ** Reads *)

Section Reads.

Variable clock : nat -> Z.
Variable float_of : string -> option Z.

Lemma expels_widen lo hi lo' hi' d d' :
  (lo' <= lo)%nat -> (hi <= hi')%nat ->
  expels clock lo hi d d' -> expels clock lo' hi' d d'.
Proof.
  intros Hlo Hhi. induction 1 as [d | l1 k v dl l2 n d' Hn Hc _ IH].
  - constructor.
  - apply expels_one with n; [lia | assumption | assumption].
Qed.

Lemma expels_trans lo hi d1 d2 d3 :
  expels clock lo hi d1 d2 -> expels clock lo hi d2 d3 -> expels clock lo hi d1 d3.
Proof.
  induction 1 as [d | l1 k v dl l2 n d' Hn Hc _ IH]; intros H; [assumption|].
  apply expels_one with n; auto.
Qed.

Lemma read_frame_refl s : read_frame clock s s.
Proof. unfold read_frame. splits; try reflexivity. constructor. Qed.

Lemma read_frame_trans s1 s2 s3 :
  read_frame clock s1 s2 -> read_frame clock s2 s3 -> read_frame clock s1 s3.
Proof.
  intros (Hb1 & Hl1 & Hn1 & He1) (Hb2 & Hl2 & Hn2 & He2).
  unfold read_frame. splits; try congruence; try lia.
  apply expels_trans with (data s2).
  - apply expels_widen with (lo := clock_reads s1) (hi := clock_reads s2);
      [lia | lia | assumption].
  - apply expels_widen with (lo := clock_reads s2) (hi := clock_reads s3);
      [lia | lia | assumption].
Qed.

(** The goals left by [crunch] for a read. *)
Ltac read_close :=
  do 2 eexists; (split; [reflexivity|]);
  unfold read_frame; simpl; splits; try reflexivity; try lia;
  match goal with
  | |- expels _ _ _ ?d ?d => apply expels_none
  | H : (clock ?m >? ?dl) = true
    |- expels _ _ _ (_ ++ (_, _, Some ?dl) :: _) _ =>
      apply expels_one with m;
      [lia | rewrite Z.gtb_ltb in H; apply Z.ltb_lt in H; lia | apply expels_none]
  | H : (?dl - clock ?m <=? 0) = true
    |- expels _ _ _ (_ ++ (_, _, Some ?dl) :: _) _ =>
      apply expels_one with m; [lia | apply Z.leb_le in H; lia | apply expels_none]
  end.

Ltac open_store :=
  let Hs := fresh "Hs" in
  let Hb := fresh "Hb" in
  intros [d b l n] [Hs Hb]; simpl in Hs; unfold buffer_ok in Hb; simpl in Hb.

Ltac resolve key d :=
  destruct (stored_or_absent key d) as [(?l1 & ?v & ?t & ?l2 & ->) | ?Hn].

Lemma get_read key s :
  well_formed float_of s ->
  exists r s', get clock key s = (Ret r, s') /\ read_frame clock s s'.
Proof.
  revert s. open_store.
  unfold get, latest, _get_key_index, _find_key_index, _is_expired, data_getitem, data_pop,
    now, bind, get_buffer, get_data, ret.
  resolve key d; crunch; read_close.
Qed.

Lemma exists_read key s :
  well_formed float_of s ->
  exists r s', exists_ clock key s = (Ret r, s') /\ read_frame clock s s'.
Proof.
  revert s. open_store.
  unfold exists_, latest, _get_key_index, _find_key_index, _is_expired, data_getitem,
    data_pop, now, bind, get_buffer, get_data, ret.
  resolve key d; crunch; read_close.
Qed.

Lemma ttl_read key s :
  well_formed float_of s ->
  exists r s', ttl clock float_of key s = (Ret r, s') /\ read_frame clock s s'.
Proof.
  revert s. open_store.
  unfold ttl, float, _get_key_index, _find_key_index, _is_expired, data_getitem,
    data_pop, now, bind, get_buffer, get_data, ret, raise.
  resolve key d; crunch;
    try (exfalso; eapply latest_parses; eassumption); read_close.
Qed.

Lemma mget_read keys : forall s,
  well_formed float_of s ->
  exists r s', mget clock keys s = (Ret r, s') /\ read_frame clock s s'.
Proof.
  induction keys as [|k keys IH]; intros s H; simpl.
  - exists [], s. split; [reflexivity | apply read_frame_refl].
  - destruct (get_read k s H) as (v & s1 & Hr & Hf).
    assert (H1 : well_formed float_of s1).
    { pose proof (keeps_get clock float_of k s H) as Hk. now rewrite Hr in Hk. }
    destruct (IH s1 H1) as (vs & s2 & Hr2 & Hf2).
    exists (v :: vs), s2. unfold bind. rewrite Hr, Hr2. split; [reflexivity|].
    now apply read_frame_trans with s1.
Qed.

Lemma range_read lo hi s :
  exists r s', range clock lo hi s = (Ret r, s') /\ read_frame clock s s'.
Proof.
  unfold range, bind, get_data.
  destruct (range_loop_spec clock (if (lo =? "")%string then None else Some lo)
              (if (hi =? "")%string then None else Some hi) (data s) [] s)
    as (out & n' & Hr & Hn & _).
  rewrite Hr. do 2 eexists. split; [reflexivity|]. destruct s.
  unfold read_frame. simpl in *. splits; try reflexivity; try lia. constructor.
Qed.

(** X10.  Reads never write.  From a store that satisfies the invariant, GET,
    EXISTS, MGET and RANGE return, leave the log file and the transaction
    buffer as they were, and change the data at most by removing records
    whose deadline a clock reading taken during the call had reached.  The
    same holds of the store that TTL leaves, whether it replies or raises in
    the conversion of its reply. *)
Theorem reads_never_write key keys lo hi s :
  well_formed float_of s ->
  (exists r s', get clock key s = (Ret r, s') /\ read_frame clock s s') /\
  (exists r s', exists_ clock key s = (Ret r, s') /\ read_frame clock s s') /\
  (exists r s', mget clock keys s = (Ret r, s') /\ read_frame clock s s') /\
  (exists r s', range clock lo hi s = (Ret r, s') /\ read_frame clock s s') /\
  read_frame clock s (snd (ttl clock float_of key s)).
Proof.
  intros H. splits.
  - now apply get_read.
  - now apply exists_read.
  - now apply mget_read.
  - apply range_read.
  - destruct (ttl_read key s H) as (r & s' & Hr & Hf). now rewrite Hr.
Qed.

End Reads.

Lemma reads_never_write_witness :
  let s := mkKVStore [("a", "1", Some 5); ("b", "2", None)] None (Some ["SET a 1"]) 0 in
  (exists r s', get (frozen_clock 10) "a" s = (Ret r, s') /\
                read_frame (frozen_clock 10) s s') /\
  (exists r s', exists_ (frozen_clock 10) "a" s = (Ret r, s') /\
                read_frame (frozen_clock 10) s s') /\
  (exists r s', mget (frozen_clock 10) ["a"; "b"] s = (Ret r, s') /\
                read_frame (frozen_clock 10) s s') /\
  (exists r s', range (frozen_clock 10) "" "" s = (Ret r, s') /\
                read_frame (frozen_clock 10) s s') /\
  read_frame (frozen_clock 10) s (snd (ttl (frozen_clock 10) float_of_literal "a" s)).
Proof.
  apply (reads_never_write (frozen_clock 10) float_of_literal "a" ["a"; "b"] "" ""
           (mkKVStore [("a", "1", Some 5); ("b", "2", None)] None (Some ["SET a 1"]) 0)).
  split; [repeat constructor | exact I].
Defined.

(** ** RANGE outside a transaction *)

Section Range.

Variable clock : nat -> Z.

Lemma range_loop_idle lo hi items :
  forall result s,
  transaction_buffer s = None ->
  exists out n',
    range_loop clock (if (lo =? "")%string then None else Some lo)
      (if (hi =? "")%string then None else Some hi) items result s
      = (Ret (result ++ out), with_reads n' s) /\
    (forall k, In k out -> In k (keys_of items) /\ in_bounds lo hi k = true) /\
    (StronglySorted key_lt (keys_of items) -> StronglySorted key_lt out) /\
    ((forall k v d m, In (k, v, Some d) items -> (clock_reads s <= m)%nat -> clock m <= d) ->
     out = filter (in_bounds lo hi) (keys_of items)).
Proof.
  induction items as [|[[k v] t] items IH]; intros result s Hb.
  - exists [], (clock_reads s). rewrite app_nil_r. destruct s.
    splits; [reflexivity | intros ? [] | constructor | reflexivity].
  - assert (Hsame : with_reads (clock_reads s) s = s) by now destruct s.
    (* the record is skipped by a bounds test *)
    assert (Hout_of_bounds : in_bounds lo hi k = false ->
      exists out n',
        range_loop clock (if (lo =? "")%string then None else Some lo)
          (if (hi =? "")%string then None else Some hi) items result s
          = (Ret (result ++ out), with_reads n' s) /\
        (forall k0, In k0 out ->
           In k0 (keys_of ((k, v, t) :: items)) /\ in_bounds lo hi k0 = true) /\
        (StronglySorted key_lt (keys_of ((k, v, t) :: items)) -> StronglySorted key_lt out) /\
        ((forall k0 v0 d m, In (k0, v0, Some d) ((k, v, t) :: items) ->
            (clock_reads s <= m)%nat -> clock m <= d) ->
         out = filter (in_bounds lo hi) (keys_of ((k, v, t) :: items)))).
    { intros Hk. destruct (IH result s Hb) as (out & n' & Hr & Hin & Hso & Hall).
      exists out, n'. splits.
      - exact Hr.
      - intros k0 Hk0. destruct (Hin k0 Hk0). split; [now right | assumption].
      - intros Hs. apply StronglySorted_inv in Hs. now apply Hso.
      - intros Hlive. simpl. unfold item_key at 1. simpl. rewrite Hk.
        apply Hall. intros k0 v0 d m Hi Hm.
        apply (Hlive k0 v0 d m); [now right | assumption]. }
    simpl range_loop.
    destruct (lo =? "")%string eqn:Elo; destruct (hi =? "")%string eqn:Ehi;
      try (destruct (k <? lo)%string eqn:Eklo;
           [apply Hout_of_bounds; unfold in_bounds; now rewrite Elo, Eklo|]);
      try (destruct (hi <? k)%string eqn:Ekhi;
           [apply Hout_of_bounds; unfold in_bounds; rewrite Ehi, Ekhi;
            now rewrite andb_false_r|]).
    all: assert (Hk : in_bounds lo hi k = true)
           by (unfold in_bounds; rewrite ?Elo, ?Ehi, ?Eklo, ?Ekhi; reflexivity).
    all: unfold bind at 1, now; cbv beta iota.
    all: destruct (match t with Some t0 => clock (clock_reads s) >? t0 | None => false end)
           eqn:Et.
    all: try (* expired at this reading *)
      (destruct (IH result (with_reads (S (clock_reads s)) s) Hb)
         as (out & n' & Hr & Hin & Hso & Hall);
       exists out, n'; splits;
       [ rewrite Hr; now destruct s
       | intros k0 Hk0; destruct (Hin k0 Hk0); split; [now right | assumption]
       | intros Hs; apply StronglySorted_inv in Hs; now apply Hso
       | intros Hlive; exfalso; destruct t as [t0|]; [|discriminate];
         specialize (Hlive k v t0 (clock_reads s) (or_introl eq_refl) (le_n _));
         rewrite Z.gtb_ltb in Et; apply Z.ltb_lt in Et; lia ]).
    all: unfold bind at 1, get_buffer; cbn [transaction_buffer with_reads];
      rewrite Hb; cbv beta iota.
    all: destruct (IH (result ++ [k]) (with_reads (S (clock_reads s)) s) Hb)
           as (out & n' & Hr & Hin & Hso & Hall);
      exists (k :: out), n'; splits;
      [ rewrite Hr, <- app_assoc; now destruct s
      | intros k0 [<-|Hk0];
        [split; [now left | assumption]
        | destruct (Hin k0 Hk0); split; [now right | assumption]]
      | intros Hs; apply StronglySorted_inv in Hs; destruct Hs as [Hs Hhd];
        constructor; [now apply Hso|];
        apply Forall_forall; intros k0 Hk0; rewrite Forall_forall in Hhd;
        apply Hhd; now apply Hin
      | intros Hlive; simpl; unfold item_key at 1; simpl; rewrite Hk; f_equal;
        apply Hall; intros k0 v0 d m Hi Hm; apply (Hlive k0 v0 d m);
        [now right | simpl in Hm; lia] ].
Qed.

(** X11.  Outside a transaction RANGE lo hi replies with keys that are
    stored and within the inclusive bounds (an empty bound is open), in
    strictly ascending order, followed by the terminator END; it only reads
    the clock. *)
Theorem range_sorted_within_bounds lo hi s :
  transaction_buffer s = None ->
  sorted (data s) ->
  exists ks n',
    range clock lo hi s = (Ret (ks ++ ["END"]), with_reads n' s) /\
    StronglySorted key_lt ks /\
    forall k, In k ks -> In k (keys_of (data s)) /\ in_bounds lo hi k = true.
Proof.
  intros Hb Hs. unfold range, bind, get_data.
  destruct (range_loop_idle lo hi (data s) [] s Hb) as (out & n' & Hr & Hin & Hso & _).
  rewrite Hr. exists out, n'. splits; [reflexivity | now apply Hso | assumption].
Qed.

(** X12.  Outside a transaction, when no stored deadline is passed by any
    reading of the clock from now on, RANGE lo hi lists exactly the stored
    keys within the bounds, in the order of the data. *)
Theorem range_lists_live_keys lo hi s :
  transaction_buffer s = None ->
  (forall k v d m, In (k, v, Some d) (data s) -> (clock_reads s <= m)%nat -> clock m <= d) ->
  exists n',
    range clock lo hi s =
      (Ret (filter (in_bounds lo hi) (keys_of (data s)) ++ ["END"]), with_reads n' s).
Proof.
  intros Hb Hlive. unfold range, bind, get_data.
  destruct (range_loop_idle lo hi (data s) [] s Hb) as (out & n' & Hr & _ & _ & Hall).
  rewrite Hr, (Hall Hlive). now exists n'.
Qed.

End Range.

Lemma range_sorted_within_bounds_witness :
  exists ks n',
    range (frozen_clock 10) "b" ""
      (mkKVStore [("a", "1", None); ("b", "2", Some 5); ("c", "3", None)] None None 0)
      = (Ret (ks ++ ["END"]),
         mkKVStore [("a", "1", None); ("b", "2", Some 5); ("c", "3", None)] None None n') /\
    StronglySorted key_lt ks /\
    forall k, In k ks -> In k ["a"; "b"; "c"] /\ in_bounds "b" "" k = true.
Proof.
  apply (range_sorted_within_bounds (frozen_clock 10) "b" ""
           (mkKVStore [("a", "1", None); ("b", "2", Some 5); ("c", "3", None)] None None 0)
           eq_refl).
  repeat constructor.
Defined.

Lemma range_lists_live_keys_witness :
  exists n',
    range (frozen_clock 10) "b" "c"
      (mkKVStore [("a", "1", None); ("b", "2", Some 50); ("c", "3", None); ("d", "4", None)]
         None None 0)
      = (Ret ["b"; "c"; "END"],
         mkKVStore [("a", "1", None); ("b", "2", Some 50); ("c", "3", None); ("d", "4", None)]
           None None n').
Proof.
  apply (range_lists_live_keys (frozen_clock 10) "b" "c"
           (mkKVStore [("a", "1", None); ("b", "2", Some 50); ("c", "3", None); ("d", "4", None)]
              None None 0) eq_refl).
  intros k v d m Hin _. simpl in Hin.
  destruct Hin as [H | [H | [H | [H | []]]]]; inversion H. unfold frozen_clock. lia.
Defined.

(** ** Deadlines outside a transaction *)

Section Deadlines.

Variable clock : nat -> Z.
Variable float_of : string -> option Z.

(** X14.  PERSIST then TTL.  Outside a transaction, PERSIST k on a stored key
    whose deadline the clock has not passed replies 1, clears the deadline,
    keeps the value and logs [SET k value]; a following TTL k replies -1
    without reading the clock. *)
Theorem persist_then_ttl key v deadline l1 l2 s :
  transaction_buffer s = None ->
  sorted (data s) ->
  data s = l1 ++ (key, v, Some deadline) :: l2 ->
  clock (clock_reads s) <= deadline ->
  let s1 := with_log (Some (log_lines s ++ [("SET " ++ key ++ " " ++ v)%string]))
              (with_data (l1 ++ (key, v, None) :: l2)
                 (with_reads (S (clock_reads s)) s)) in
  persist clock key s = (Ret "1", s1) /\
  ttl clock float_of key s1 = (Ret "-1", s1).
Proof.
  intros Hb Hs Hd Hlive.
  assert (Hs' : sorted (l1 ++ (key, v, None) :: l2))
    by (rewrite Hd in Hs; revert Hs; now apply sorted_replace).
  destruct s as [d b l n]. simpl in *. subst b d.
  unfold persist, ttl, _get_key_index, _find_key_index, _is_expired, data_getitem,
    data_setitem, data_pop, _write_to_log, now, bind, get_buffer, get_data, ret.
  apply Z.ltb_ge in Hlive. split.
  - kv_run. rewrite Z.gtb_ltb, Hlive. kv_run. reflexivity.
  - kv_run. reflexivity.
Qed.

(** X15.  The deadline itself.  [_is_expired] tests [now > deadline] but TTL
    then tests [deadline - now <= 0].  Outside a transaction, for a stored
    key whose deadline the first reading has not passed and the second has
    reached, GET k still replies the value, while TTL k replies -2 and
    removes the record. *)
Theorem ttl_at_deadline key v deadline l1 l2 s :
  transaction_buffer s = None ->
  sorted (data s) ->
  data s = l1 ++ (key, v, Some deadline) :: l2 ->
  clock (clock_reads s) <= deadline ->
  deadline <= clock (S (clock_reads s)) ->
  get clock key s = (Ret v, with_reads (S (clock_reads s)) s) /\
  ttl clock float_of key s =
    (Ret "-2", with_data (l1 ++ l2) (with_reads (S (S (clock_reads s))) s)).
Proof.
  intros Hb Hs Hd H0 H1.
  destruct s as [d b l n]. simpl in *. subst b d.
  unfold get, ttl, _get_key_index, _find_key_index, _is_expired, data_getitem, data_pop,
    now, bind, get_buffer, get_data, ret.
  apply Z.ltb_ge in H0. split.
  - kv_run. rewrite Z.gtb_ltb, H0. kv_run. reflexivity.
  - kv_run. rewrite Z.gtb_ltb, H0. kv_run.
    replace (deadline - clock (S n) <=? 0) with true by (symmetry; apply Z.leb_le; lia).
    kv_run. reflexivity.
Qed.

End Deadlines.

Lemma persist_then_ttl_witness :
  let s1 := mkKVStore [("k", "v", None)] None (Some ["SET k v"]) 1 in
  persist (frozen_clock 10) "k" (mkKVStore [("k", "v", Some 50)] None None 0)
    = (Ret "1", s1) /\
  ttl (frozen_clock 10) float_of_literal "k" s1 = (Ret "-1", s1).
Proof.
  apply (persist_then_ttl (frozen_clock 10) float_of_literal "k" "v" 50 [] []
           (mkKVStore [("k", "v", Some 50)] None None 0) eq_refl (sorted_singleton _) eq_refl).
  unfold frozen_clock. simpl. lia.
Defined.

Lemma ttl_at_deadline_witness :
  get (frozen_clock 50) "k" (mkKVStore [("k", "v", Some 50)] None None 0)
    = (Ret "v", mkKVStore [("k", "v", Some 50)] None None 1) /\
  ttl (frozen_clock 50) float_of_literal "k" (mkKVStore [("k", "v", Some 50)] None None 0)
    = (Ret "-2", mkKVStore [] None None 2).
Proof.
  apply (ttl_at_deadline (frozen_clock 50) float_of_literal "k" "v" 50 [] []
           (mkKVStore [("k", "v", Some 50)] None None 0) eq_refl (sorted_singleton _) eq_refl);
    unfold frozen_clock; simpl; lia.
Defined.

(** ** MSET *)

Section Mset.

Variable clock : nat -> Z.
Variable float_of : string -> option Z.

(** [set] and the body of the loops of [mset] do the same to the store. *)
Lemma set_as_loop_body key value s :
  exists s1,
    set key value s = (Ret "OK", s1) /\
    (transaction_buffer s1 = None <-> transaction_buffer s = None) /\
    match transaction_buffer s with
    | Some _ =>
        (current_ttl <- current_ttl_of key ;;
         buffer_append (ISet key value current_ttl)) s = (Ret tt, s1)
    | None =>
        (_set_key key value None ;;
         _write_to_log ("SET " ++ key ++ " " ++ value)%string) s = (Ret tt, s1)
    end.
Proof.
  unfold set, bind at 1, get_buffer. destruct (transaction_buffer s) as [b|] eqn:Hb.
  - destruct (current_ttl_of_total key s) as (t & Ht).
    unfold bind at 1 2 3. rewrite Ht. unfold buffer_append. rewrite Hb. cbn.
    eexists. splits; try reflexivity. simpl. split; discriminate.
  - destruct (_set_key_total key value None s) as (s0 & H0).
    unfold bind at 1 2 3. rewrite H0. unfold _write_to_log. cbn.
    eexists. splits; try reflexivity. simpl.
    pose proof (f_equal snd H0) as Hsnd. simpl in Hsnd.
    assert (Hbuf : transaction_buffer s0 = transaction_buffer s).
    { clear -H0. destruct s as [d b l n]. revert H0.
      unfold _set_key, _find_key_index, data_getitem, data_setitem, put_data,
        bind, get_data, ret, raise. cbn.
      destruct (negb _); cbn.
      - destruct (Py.getitem _ _); cbn; [|discriminate].
        destruct (Py.setitem _ _ _); cbn; [|discriminate]. now intros [= <-].
      - now intros [= <-]. }
    rewrite Hbuf, Hb. tauto.
Qed.

(** X16.  MSET with an even number of arguments does to the store what the
    SETs of its pairs, in order, do (inside a transaction and outside), and
    replies OK; with an odd number it replies an error and changes
    nothing. *)
Theorem mset_as_sets args s :
  (Py.len args mod 2 = 0 ->
   exists rs s',
     run_writes clock float_of
       (map (fun kv => W_set (fst kv) (snd kv)) (pairs args)) s = (Ret rs, s') /\
     mset args s = (Ret "OK", s')) /\
  (Py.len args mod 2 <> 0 ->
   mset args s = (Ret "ERR wrong number of arguments for MSET", s)).
Proof.
  split; intros Hlen; unfold mset.
  2:{ apply Z.eqb_neq in Hlen. now rewrite Hlen. }
  apply Z.eqb_eq in Hlen. rewrite Hlen. cbn [negb].
  unfold bind at 1, get_buffer. cbv beta iota.
  assert (H : forall ps s0,
            exists rs s',
              run_writes clock float_of (map (fun kv => W_set (fst kv) (snd kv)) ps) s0
                = (Ret rs, s') /\
              match transaction_buffer s0 with
              | Some _ =>
                  for_each (fun kv =>
                    current_ttl <- current_ttl_of (fst kv) ;;
                    buffer_append (ISet (fst kv) (snd kv) current_ttl)) ps s0
              | None =>
                  for_each (fun kv =>
                    _set_key (fst kv) (snd kv) None ;;
                    _write_to_log ("SET " ++ fst kv ++ " " ++ snd kv)%string) ps s0
              end = (Ret tt, s')).
  { induction ps as [|[k v] ps IH]; intros s0.
    - exists [], s0. split; [reflexivity | now destruct (transaction_buffer s0)].
    - destruct (set_as_loop_body k v s0) as (s1 & Hset & Hopen & Hbody).
      destruct (IH s1) as (rs & s2 & Hrun & Hloop).
      exists ("OK" :: rs), s2. split.
      + simpl. unfold bind. rewrite Hset, Hrun. reflexivity.
      + cbn [for_each fst snd]. destruct (transaction_buffer s0) as [b|] eqn:Hb.
        * destruct (transaction_buffer s1) as [b1|] eqn:Hb1;
            [|destruct Hopen as [Hopen _]; specialize (Hopen eq_refl); discriminate].
          unfold bind at 1. cbn [fst snd]. rewrite Hbody. exact Hloop.
        * destruct (transaction_buffer s1) as [b1|] eqn:Hb1;
            [destruct Hopen as [_ Hopen]; specialize (Hopen eq_refl); discriminate|].
          unfold bind at 1. cbn [fst snd]. rewrite Hbody. exact Hloop. }
  destruct (H (pairs args) s) as (rs & s' & Hrun & Hloop).
  exists rs, s'. split; [assumption|].
  destruct (transaction_buffer s); unfold bind at 1; rewrite Hloop; reflexivity.
Qed.

End Mset.

Lemma mset_as_sets_witness :
  exists rs s',
    run_writes (frozen_clock 10) float_of_literal [W_set "b" "2"; W_set "a" "1"]
      (mkKVStore [] None None 0) = (Ret rs, s') /\
    mset ["b"; "2"; "a"; "1"] (mkKVStore [] None None 0) = (Ret "OK", s').
Proof.
  exact (proj1 (mset_as_sets (frozen_clock 10) float_of_literal ["b"; "2"; "a"; "1"]
                  (mkKVStore [] None None 0)) eq_refl).
Defined.

(** ** COMMIT against direct execution *)

Section CommitDirect.

Variable clock : nat -> Z.
Variable float_of : string -> option Z.

(** SET and DEL intents are applied without a look at the buffer. *)
Lemma apply_plain_intent_buffer i b s :
  plain_intent i ->
  apply_intent clock float_of i (with_buffer b s) =
    (fst (apply_intent clock float_of i s),
     with_buffer b (snd (apply_intent clock float_of i s))).
Proof.
  intros Hi. destruct s as [d b0 l n].
  destruct i as [key value ttl | key | key ms]; [| |contradiction]; simpl;
    unfold _set_key, _delete_key, _find_key_index, data_getitem, data_setitem, data_pop,
      put_data, _write_to_log, bind, get_data, ret, raise; cbn;
    repeat (match goal with
            | |- context [match ?x with _ => _ end] =>
                lazymatch x with
                | context [match _ with _ => _ end] => fail
                | _ => destruct x
                end
            end; cbn); reflexivity.
Qed.

Lemma for_each_plain_buffer B b : forall s s',
  Forall plain_intent B ->
  for_each (apply_intent clock float_of) B s = (Ret tt, s') ->
  for_each (apply_intent clock float_of) B (with_buffer b s) = (Ret tt, with_buffer b s').
Proof.
  induction B as [|i B IH]; intros s s' HB Hrun.
  - simpl in *. unfold ret in *. now inversion Hrun.
  - apply Forall_cons_iff in HB. destruct HB as [Hi HB].
    simpl in *. unfold bind in *. rewrite (apply_plain_intent_buffer i b s Hi).
    destruct (apply_intent clock float_of i s) as [[[]|e] s1]; [|discriminate].
    simpl. now apply IH.
Qed.

(** On data without deadlines a buffered SET carries no deadline. *)
Lemma current_ttl_of_no_deadlines key s :
  no_deadlines (data s) -> current_ttl_of key s = (Ret None, s).
Proof.
  intros Hnd. destruct s as [d b l n]. simpl in Hnd.
  unfold current_ttl_of, _find_key_index, data_getitem, bind, get_data, ret. cbn.
  destruct (found_cases key d) as [E | (l1 & v & t & l2 & -> & E)]; rewrite E.
  - reflexivity.
  - kv_run. unfold no_deadlines in Hnd. rewrite Forall_forall in Hnd.
    specialize (Hnd (key, v, t) (in_elt _ _ _)). simpl in Hnd. now subst t.
Qed.

Lemma set_buffers key value b s :
  no_deadlines (data s) -> transaction_buffer s = Some b ->
  set key value s = (Ret "OK", with_buffer (Some (b ++ [ISet key value None])) s).
Proof.
  intros Hnd Hb. unfold set, bind at 1, get_buffer. rewrite Hb. cbv beta iota.
  unfold bind at 1. rewrite (current_ttl_of_no_deadlines key s Hnd).
  unfold bind, buffer_append. now rewrite Hb.
Qed.

Lemma sets_buffer ps : forall b s,
  no_deadlines (data s) -> transaction_buffer s = Some b ->
  for_each (fun kv =>
              current_ttl <- current_ttl_of (fst kv) ;;
              buffer_append (ISet (fst kv) (snd kv) current_ttl)) ps s =
    (Ret tt, with_buffer (Some (b ++ map (fun kv => ISet (fst kv) (snd kv) None) ps)) s).
Proof.
  induction ps as [|[k v] ps IH]; intros b s Hnd Hb.
  - simpl. rewrite app_nil_r. unfold ret. f_equal. destruct s. simpl in *. now subst.
  - cbn [for_each fst snd map]. unfold bind at 1 2.
    rewrite (current_ttl_of_no_deadlines k s Hnd). unfold buffer_append. rewrite Hb.
    rewrite (IH (b ++ [ISet k v None])); [|assumption|reflexivity].
    rewrite <- app_assoc. now destruct s.
Qed.

(** Inside a transaction the plain writes only extend the buffer. *)
Lemma run_writes_buffer ws : forall b s,
  no_deadlines (data s) -> Forall plain_write ws -> transaction_buffer s = Some b ->
  exists rs,
    run_writes clock float_of ws s =
      (Ret rs, with_buffer (Some (b ++ flat_map intents_of ws)) s).
Proof.
  induction ws as [|w ws IH]; intros b s Hnd Hws Hb.
  - exists []. simpl. rewrite app_nil_r. unfold ret. f_equal. destruct s. simpl in *. now subst.
  - apply Forall_cons_iff in Hws. destruct Hws as [Hw Hws].
    assert (Hone : exists r,
              run_write clock float_of w s =
                (Ret r, with_buffer (Some (b ++ intents_of w)) s)).
    { destruct w as [key value | key | key ms | key | args]; simpl in *; try contradiction.
      - exists "OK". now apply set_buffers.
      - exists "1". unfold delete, bind, get_buffer, buffer_append. rewrite Hb. cbn.
        now rewrite Hb.
      - exists "OK". unfold mset. apply Z.eqb_eq in Hw. rewrite Hw. cbn [negb].
        unfold bind at 1, get_buffer. rewrite Hb. cbv beta iota.
        unfold bind at 1. now rewrite (sets_buffer (pairs args) b s Hnd Hb). }
    destruct Hone as (r & Hr).
    destruct (IH (b ++ intents_of w) (with_buffer (Some (b ++ intents_of w)) s))
      as (rs & Hrs); [now destruct s | assumption | reflexivity |].
    exists (r :: rs). simpl. unfold bind. rewrite Hr, Hrs. rewrite <- app_assoc.
    now destruct s.
Qed.

(** Outside a transaction DEL does what the commit of a DEL intent does. *)
Lemma delete_as_intent key s :
  transaction_buffer s = None ->
  exists r s1,
    delete clock key s = (Ret r, s1) /\
    apply_intent clock float_of (IDel key) s = (Ret tt, s1) /\
    transaction_buffer s1 = None.
Proof.
  destruct s as [d b l n]. simpl. intros ->.
  unfold delete, _get_key_index, _delete_key, _find_key_index, data_pop, _write_to_log,
    bind, get_buffer, get_data, ret. cbn.
  destruct (found_cases key d) as [E | (l1 & v & t & l2 & -> & E)]; rewrite E; kv_run;
    do 2 eexists; now splits.
Qed.

Lemma sets_direct ps : forall s,
  transaction_buffer s = None ->
  exists s',
    for_each (fun kv =>
                _set_key (fst kv) (snd kv) None ;;
                _write_to_log ("SET " ++ fst kv ++ " " ++ snd kv)%string) ps s = (Ret tt, s') /\
    for_each (apply_intent clock float_of)
      (map (fun kv => ISet (fst kv) (snd kv) None) ps) s = (Ret tt, s') /\
    transaction_buffer s' = None.
Proof.
  induction ps as [|[k v] ps IH]; intros s Hb.
  - exists s. now splits.
  - destruct (set_as_loop_body float_of k v s) as (s1 & _ & Hopen & Hbody). rewrite Hb in Hbody.
    destruct (IH s1 (proj2 Hopen Hb)) as (s' & H1 & H2 & H3).
    exists s'. cbn [for_each map fst snd apply_intent]. unfold bind at 1 4.
    rewrite Hbody. now splits.
Qed.

(** Outside a transaction the plain writes do what the commit of their
    intents does. *)
Lemma run_writes_direct ws : forall s,
  Forall plain_write ws -> transaction_buffer s = None ->
  exists rs s',
    run_writes clock float_of ws s = (Ret rs, s') /\
    for_each (apply_intent clock float_of) (flat_map intents_of ws) s = (Ret tt, s') /\
    transaction_buffer s' = None.
Proof.
  induction ws as [|w ws IH]; intros s Hws Hb.
  - exists [], s. now splits.
  - apply Forall_cons_iff in Hws. destruct Hws as [Hw Hws].
    assert (Hone : exists r s1,
              run_write clock float_of w s = (Ret r, s1) /\
              for_each (apply_intent clock float_of) (intents_of w) s = (Ret tt, s1) /\
              transaction_buffer s1 = None).
    { destruct w as [key value | key | key ms | key | args];
        cbn [plain_write] in Hw; try contradiction;
        cbn [intents_of run_write for_each].
      - destruct (set_as_loop_body float_of key value s) as (s1 & Hset & Hopen & Hbody).
        rewrite Hb in Hbody. exists "OK", s1. splits; [assumption| |now apply Hopen].
        cbn [apply_intent]. unfold bind at 1. rewrite Hbody. reflexivity.
      - destruct (delete_as_intent key s Hb) as (r & s1 & Hd & Hi & Hb1).
        exists r, s1. splits; try assumption. unfold bind at 1. now rewrite Hi.
      - destruct (sets_direct (pairs args) s Hb) as (s1 & H1 & H2 & H3).
        exists "OK", s1. splits; try assumption.
        unfold mset. apply Z.eqb_eq in Hw. rewrite Hw. cbn [negb].
        unfold bind at 1, get_buffer. rewrite Hb. cbv beta iota.
        unfold bind at 1. now rewrite H1. }
    destruct Hone as (r & s1 & Hr & Hi & Hb1).
    destruct (IH s1 Hws Hb1) as (rs & s' & Hrs & His & Hb').
    exists (r :: rs), s'. splits; [|  | assumption].
    + simpl. unfold bind. now rewrite Hr, Hrs.
    + simpl flat_map. rewrite for_each_app. unfold bind. now rewrite Hi.
Qed.

Lemma intents_of_plain ws :
  Forall plain_write ws -> Forall plain_intent (flat_map intents_of ws).
Proof.
  induction 1 as [|w ws Hw _ IH]; simpl; [constructor|].
  apply Forall_app. split; [|assumption].
  destruct w; simpl in *; try contradiction; repeat constructor.
  apply Forall_forall. intros i Hi. apply in_map_iff in Hi. now destruct Hi as (kv & <- & _).
Qed.

(** X17.  On a store without deadlines and with no transaction open, a
    sequence of SET, DEL and MSET writes issued between BEGIN and COMMIT
    leaves exactly the store (data, log file, clock) that the same writes
    leave when issued outside a transaction. *)
Theorem commit_as_direct ws s :
  transaction_buffer s = None ->
  no_deadlines (data s) ->
  Forall plain_write ws ->
  exists rs1 rs2 s',
    begin_writes_commit clock float_of ws s = (Ret rs1, s') /\
    run_writes clock float_of ws s = (Ret rs2, s').
Proof.
  intros Hb Hnd Hws.
  destruct (run_writes_direct ws s Hws Hb) as (rs2 & s' & Hdirect & Hintents & Hb').
  destruct (run_writes_buffer ws [] (with_buffer (Some []) s)) as (rs & Hbuf);
    [now destruct s | assumption | reflexivity |].
  simpl app in Hbuf.
  exists ("OK" :: rs ++ ["OK"]), rs2, s'. split; [|assumption].
  unfold begin_writes_commit, begin, bind at 1 2, get_buffer. rewrite Hb.
  cbn [put_buffer bind ret]. unfold bind at 1. rewrite Hbuf.
  replace (with_buffer (Some (flat_map intents_of ws)) (with_buffer (Some []) s))
    with (with_buffer (Some (flat_map intents_of ws)) s) by now destruct s.
  unfold commit, bind at 1 2, get_buffer. cbn [transaction_buffer with_buffer].
  unfold bind at 1.
  rewrite (_apply_transaction_run clock float_of (flat_map intents_of ws)) by reflexivity.
  rewrite (for_each_plain_buffer _ _ s s' (intents_of_plain ws Hws) Hintents).
  unfold bind, put_buffer, ret. cbn. do 2 f_equal.
  destruct s'. simpl in *. now subst.
Qed.

End CommitDirect.

Lemma commit_as_direct_witness :
  exists rs1 rs2 s',
    begin_writes_commit (frozen_clock 10) float_of_literal
      [W_set "b" "2"; W_del "a"; W_mset ["c"; "3"; "a"; "4"]]
      (mkKVStore [("a", "1", None)] None (Some ["SET a 1"]) 0) = (Ret rs1, s') /\
    run_writes (frozen_clock 10) float_of_literal
      [W_set "b" "2"; W_del "a"; W_mset ["c"; "3"; "a"; "4"]]
      (mkKVStore [("a", "1", None)] None (Some ["SET a 1"]) 0) = (Ret rs2, s').
Proof.
  apply (commit_as_direct (frozen_clock 10) float_of_literal
           [W_set "b" "2"; W_del "a"; W_mset ["c"; "3"; "a"; "4"]]
           (mkKVStore [("a", "1", None)] None (Some ["SET a 1"]) 0) eq_refl).
  - repeat constructor.
  - repeat constructor.
Defined.

(** ** Lines of the log read back *)

Lemma rev_string_rev s : forall acc t,
  Py.rev_string (Py.rev_string s acc) t = Py.rev_string acc (s ++ t)%string.
Proof.
  induction s as [|c r IH]; intros acc t; simpl; [reflexivity|]. now rewrite IH.
Qed.

Lemma append_empty_r s : (s ++ "")%string = s.
Proof. induction s as [|c r IH]; simpl; [reflexivity | now rewrite IH]. Qed.

Lemma rev_string_involutive s : Py.rev_string (Py.rev_string s "") "" = s.
Proof. rewrite rev_string_rev. simpl. apply append_empty_r. Qed.

Lemma rev_string_app a : forall b acc,
  Py.rev_string (a ++ b)%string acc = Py.rev_string b (Py.rev_string a acc).
Proof. induction a as [|c r IH]; intros b acc; simpl; [reflexivity | apply IH]. Qed.

Lemma lstrip_clean s : starts_clean s -> Py.lstrip s = s.
Proof. destruct s as [|c r]; simpl; [reflexivity|]. now intros ->. Qed.

Lemma rev_token_clean t : forall acc,
  no_space t = true -> t <> "" -> starts_clean (Py.rev_string t acc).
Proof.
  induction t as [|c r IH]; intros acc Hns Hne; [contradiction|].
  simpl in Hns. apply andb_true_iff in Hns. destruct Hns as [Hc Hr].
  simpl. destruct r as [|c' r'].
  - simpl. now apply negb_true_iff in Hc.
  - apply IH; [assumption | discriminate].
Qed.

Lemma rev_string_nonempty s : forall acc, acc <> "" -> Py.rev_string s acc <> "".
Proof.
  induction s as [|c r IH]; intros acc Ha; simpl; [assumption|].
  apply IH. discriminate.
Qed.

(** A run of non-whitespace characters goes to the current token. *)
Lemma split_loop_token t : forall rest cur,
  no_space t = true ->
  Py.split_loop (t ++ rest)%string cur = Py.split_loop rest (Py.rev_string t cur).
Proof.
  induction t as [|c r IH]; intros rest cur Hns; [reflexivity|].
  simpl in Hns. apply andb_true_iff in Hns. destruct Hns as [Hc Hr].
  apply negb_true_iff in Hc. simpl. rewrite Hc. now apply IH.
Qed.

(** [split] undoes [join] on tokens. *)
Lemma split_join toks :
  Forall token toks -> Py.split (Py.join " " toks) = toks.
Proof.
  unfold Py.split, Py.join. induction 1 as [|t l [Hne Hns] Hl IH]; [reflexivity|].
  assert (Hcur : Py.rev_string t "" <> "").
  { destruct t as [|c r]; [contradiction|]. simpl. apply rev_string_nonempty. discriminate. }
  simpl String.concat. destruct l as [|t' l'].
  - rewrite <- (append_empty_r t) at 1.
    replace (Py.split_loop (t ++ "")%string "")
      with (Py.split_loop "" (Py.rev_string t "")) by (symmetry; now apply split_loop_token).
    simpl. destruct (Py.rev_string t "") eqn:E; [contradiction|].
    rewrite <- E, rev_string_involutive. reflexivity.
  - rewrite split_loop_token by assumption.
    change (" " ++ String.concat " " (t' :: l'))%string
      with (String " " (String.concat " " (t' :: l'))).
    simpl Py.split_loop at 1.
    destruct (Py.rev_string t "") eqn:E; [contradiction|].
    rewrite <- E, rev_string_involutive. f_equal. exact IH.
Qed.

Lemma join_clean toks :
  Forall token toks -> starts_clean (Py.join " " toks).
Proof.
  intros H. destruct H as [|t l [Hne Hns] Hl]; [exact I|].
  unfold Py.join. simpl. destruct t as [|c r]; [contradiction|].
  simpl in Hns. apply andb_true_iff in Hns. destruct Hns as [Hc _].
  apply negb_true_iff in Hc. destruct l; simpl; assumption.
Qed.

Lemma rev_join_clean_acc toks :
  Forall token toks -> toks <> [] ->
  forall acc, starts_clean (Py.rev_string (String.concat " " toks) acc).
Proof.
  induction 1 as [|t l [Hne Hns] Hl IH]; intros Hnil acc; [contradiction|].
  simpl String.concat. destruct l as [|t' l'].
  - now apply rev_token_clean.
  - rewrite rev_string_app.
    change (" " ++ String.concat " " (t' :: l'))%string
      with (String " " (String.concat " " (t' :: l'))).
    simpl Py.rev_string at 1. apply IH. discriminate.
Qed.

Lemma rev_join_clean toks :
  Forall token toks -> starts_clean (Py.rev_string (Py.join " " toks) "").
Proof.
  intros H. destruct toks as [|t l]; [exact I|].
  apply rev_join_clean_acc; [assumption | discriminate].
Qed.

(** [strip] leaves a joined sequence of tokens as it is. *)
Lemma strip_join toks :
  Forall token toks -> Py.strip (Py.join " " toks) = Py.join " " toks.
Proof.
  intros H. unfold Py.strip.
  rewrite (lstrip_clean _ (join_clean toks H)).
  rewrite (lstrip_clean _ (rev_join_clean toks H)).
  apply rev_string_involutive.
Qed.

(** ** Replay of what the writes logged *)

Section Durability.

Variable clock : nat -> Z.
Variable float_of : string -> option Z.

Lemma token_SET : token "SET".
Proof. split; [discriminate | reflexivity]. Qed.

Lemma token_DEL : token "DEL".
Proof. split; [discriminate | reflexivity]. Qed.

(** Replay of the line that a SET logs. *)
Lemma replay_line_set key toks s :
  token key -> Forall token toks -> toks <> [] ->
  replay_line clock float_of ("SET " ++ key ++ " " ++ Py.join " " toks)%string s =
    (_set_key key (Py.join " " toks) None ;; ret tt) s.
Proof.
  intros Hk Ht Hne. destruct toks as [|t l]; [contradiction|].
  assert (Hall : Forall token ("SET" :: key :: t :: l))
    by (constructor; [apply token_SET|]; constructor; [apply Hk | exact Ht]).
  change ("SET " ++ key ++ " " ++ Py.join " " (t :: l))%string
    with (Py.join " " ("SET" :: key :: t :: l)).
  unfold replay_line. rewrite (strip_join _ Hall), (split_join _ Hall).
  change (Py.join " " ("SET" :: key :: t :: l) =? "")%string with false.
  cbv beta iota zeta.
  replace (Py.len ("SET" :: key :: t :: l) <? 2) with false
    by (symmetry; apply Z.ltb_ge; unfold Py.len; simpl List.length; lia).
  replace (Py.len ("SET" :: key :: t :: l) >=? 3) with true
    by (symmetry; rewrite Z.geb_leb; apply Z.leb_le; unfold Py.len; simpl List.length; lia).
  reflexivity.
Qed.

(** Replay of the line that a DEL logs. *)
Lemma replay_line_del key s :
  token key ->
  replay_line clock float_of ("DEL " ++ key)%string s = (_delete_key key ;; ret tt) s.
Proof.
  intros Hk.
  assert (Hall : Forall token ["DEL"; key]) by (constructor; [apply token_DEL|]; constructor; [apply Hk | constructor]).
  change ("DEL " ++ key)%string with (Py.join " " ["DEL"; key]).
  unfold replay_line. rewrite (strip_join _ Hall), (split_join _ Hall).
  reflexivity.
Qed.

(** [_set_key] and [_delete_key] look at the data only. *)
Lemma _set_key_data key value ttl s r :
  data s = data r ->
  exists d',
    _set_key key value ttl s = (Ret true, with_data d' s) /\
    _set_key key value ttl r = (Ret true, with_data d' r).
Proof.
  destruct s as [d b l n], r as [d' b' l' n']. simpl. intros <-.
  unfold _set_key, _find_key_index, data_getitem, data_setitem, put_data, bind, get_data, ret.
  cbn. destruct (found_cases key d) as [E | (l1 & v & t & l2 & -> & E)]; rewrite E; kv_run;
    eexists; split; reflexivity.
Qed.

Lemma _delete_key_data key s r :
  data s = data r ->
  exists found d',
    _delete_key key s = (Ret found, with_data d' s) /\
    _delete_key key r = (Ret found, with_data d' r) /\
    (found = true <-> find_key_index key (data s) <> -1).
Proof.
  destruct s as [d b l n], r as [d' b' l' n']. simpl. intros <-.
  unfold _delete_key, _find_key_index, data_pop, put_data, bind, get_data, ret.
  cbn. destruct (found_cases key d) as [E | (l1 & v & t & l2 & -> & E)]; rewrite E; kv_run.
  - exists false, d. splits; try reflexivity. split; [discriminate | intros H; now elim H].
  - exists true, (l1 ++ l2). splits; try reflexivity.
    split; [intros _; unfold Py.len; lia | reflexivity].
Qed.

Lemma durable_append {A} line s s1 (body : M A) :
  durable clock float_of s ->
  log_lines s1 = log_lines s ++ [line] ->
  (forall r, replay_line clock float_of line r = (body ;; ret tt) r) ->
  (forall lf n, exists a,
     body (mkKVStore (data s) None lf n) = (Ret a, mkKVStore (data s1) None lf n)) ->
  durable clock float_of s1.
Proof.
  intros Hd Hlog Hline Hbody lf n. rewrite Hlog, for_each_app. unfold bind at 1.
  rewrite Hd. simpl for_each. unfold bind at 1. rewrite Hline.
  destruct (Hbody lf n) as (a & Ha). unfold bind at 1. rewrite Ha. reflexivity.
Qed.

(** One SET outside a transaction keeps the store durable. *)
Lemma set_durable key toks s :
  transaction_buffer s = None -> durable clock float_of s ->
  token key -> Forall token toks -> toks <> [] ->
  exists s1,
    set key (Py.join " " toks) s = (Ret "OK", s1) /\
    transaction_buffer s1 = None /\ durable clock float_of s1.
Proof.
  intros Hb Hd Hk Ht Hne.
  unfold set, bind at 1, get_buffer. rewrite Hb. cbv beta iota. unfold bind at 1 2.
  destruct (_set_key_data key (Py.join " " toks) None s s eq_refl) as (d' & Hrun & _).
  rewrite Hrun. unfold _write_to_log, ret. eexists. split; [reflexivity|].
  split; [destruct s; simpl in *; assumption|].
  eapply durable_append with (s := s) (body := _set_key key (Py.join " " toks) None).
  - exact Hd.
  - destruct s as [d b [l|] n]; reflexivity.
  - intros r. now apply replay_line_set.
  - intros lf n.
    destruct (_set_key_data key (Py.join " " toks) None s (mkKVStore (data s) None lf n)
                eq_refl) as (d'' & Hrun' & Hr).
    rewrite Hrun in Hrun'. exists true. rewrite Hr.
    assert (d'' = d') by (destruct s; simpl in *; now inversion Hrun'). subst d''.
    destruct s; reflexivity.
Qed.

(** One DEL outside a transaction keeps the store durable. *)
Lemma delete_durable key s :
  transaction_buffer s = None -> durable clock float_of s -> token key ->
  exists r s1,
    delete clock key s = (Ret r, s1) /\
    transaction_buffer s1 = None /\ durable clock float_of s1.
Proof.
  intros Hb Hd Hk.
  destruct (delete_as_intent clock float_of key s Hb) as (r & s1 & Hdel & Hint & Hb1).
  exists r, s1. splits; try assumption.
  simpl in Hint. unfold bind at 1 in Hint.
  destruct (_delete_key_data key s s eq_refl) as (found & d' & Hrun & _ & _).
  rewrite Hrun in Hint. destruct found.
  - unfold _write_to_log in Hint. inversion Hint as [Hs1]. clear Hint.
    eapply durable_append with (s := s) (body := _delete_key key).
    + exact Hd.
    + destruct s as [d b [l|] n]; reflexivity.
    + intros r0. now apply replay_line_del.
    + intros lf n.
      destruct (_delete_key_data key s (mkKVStore (data s) None lf n) eq_refl)
        as (found' & d'' & Hrun' & Hr & _).
      rewrite Hrun in Hrun'. exists found'. rewrite Hr.
      assert (d'' = d') by (destruct s; simpl in *; now inversion Hrun'). subst d''.
      destruct s; reflexivity.
  - unfold ret in Hint. inversion Hint as [Hs1]. clear Hint.
    destruct (_delete_key_data key s s eq_refl) as (found' & d'' & Hrun' & _ & Hfound).
    rewrite Hrun in Hrun'.
    assert (Hd' : d' = data s).
    { destruct s as [d b l n]. simpl in *.
      assert (found' = false) by now inversion Hrun'. subst found'.
      revert Hrun. unfold _delete_key, _find_key_index, bind, get_data, ret. cbn.
      destruct (find_key_index key d =? -1) eqn:E; cbn; [now intros [= ->]|].
      exfalso. apply Z.eqb_neq in E. apply Hfound in E. discriminate. }
    intros lf n. rewrite Hd'. destruct s as [d b l n0]. simpl in *. apply Hd.
Qed.

Lemma join_single t : Py.join " " [t] = t.
Proof. reflexivity. Qed.

Lemma sets_durable ps : forall s,
  transaction_buffer s = None -> durable clock float_of s ->
  Forall (fun kv => token (fst kv) /\ token (snd kv)) ps ->
  exists rs s',
    run_writes clock float_of (map (fun kv => W_set (fst kv) (snd kv)) ps) s = (Ret rs, s') /\
    transaction_buffer s' = None /\ durable clock float_of s'.
Proof.
  induction ps as [|[k v] ps IH]; intros s Hb Hd Hps.
  - exists [], s. now splits.
  - apply Forall_cons_iff in Hps. destruct Hps as [[Hk Hv] Hps]. simpl in Hk, Hv.
    destruct (set_durable k [v] s Hb Hd Hk) as (s1 & Hset & Hb1 & Hd1);
      [now constructor | discriminate |].
    rewrite join_single in Hset.
    destruct (IH s1 Hb1 Hd1 Hps) as (rs & s' & Hrs & Hb' & Hd').
    exists ("OK" :: rs), s'. splits; try assumption.
    cbn [map run_writes run_write fst snd]. unfold bind. now rewrite Hset, Hrs.
Qed.

Lemma pairs_tokens : forall args,
  Forall token args ->
  Forall (fun kv => token (fst kv) /\ token (snd kv)) (pairs args).
Proof.
  fix IH 1. intros [|k [|v r]] H; simpl; try constructor.
  - split; simpl.
    + now apply Forall_inv in H.
    + apply Forall_inv_tail in H. now apply Forall_inv in H.
  - apply IH. apply Forall_inv_tail in H. now apply Forall_inv_tail in H.
Qed.

(** Writes of tokens, outside a transaction, keep the log in step with the
    data. *)
Lemma writes_keep_durable ws s :
  transaction_buffer s = None ->
  durable clock float_of s ->
  Forall loggable ws ->
  exists rs s',
    run_writes clock float_of ws s = (Ret rs, s') /\
    durable clock float_of s' /\
    forall n, __init__ clock float_of (log_file s') n =
                (Ret tt, mkKVStore (data s') None (log_file s') n).
Proof.
  intros Hb Hd Hws.
  assert (H : exists rs s',
            run_writes clock float_of ws s = (Ret rs, s') /\
            transaction_buffer s' = None /\ durable clock float_of s').
  { revert s Hb Hd. induction Hws as [|w ws Hw _ IH]; intros s Hb Hd.
    - exists [], s. now splits.
    - assert (Hone : exists r s1,
                run_write clock float_of w s = (Ret r, s1) /\
                transaction_buffer s1 = None /\ durable clock float_of s1).
      { destruct w as [key value | key | key ms | key | args];
          cbn [loggable] in Hw; try contradiction; cbn [run_write].
        - destruct Hw as (Hk & toks & Hne & Ht & ->).
          destruct (set_durable key toks s Hb Hd Hk Ht Hne) as (s1 & H1 & H2 & H3).
          now exists "OK", s1.
        - now apply delete_durable.
        - destruct Hw as [Heven Ht].
          destruct (sets_durable (pairs args) s Hb Hd (pairs_tokens args Ht))
            as (rs & s1 & Hrs & Hb1 & Hd1).
          destruct (proj1 (mset_as_sets clock float_of args s) Heven)
            as (rs' & s1' & Hrs' & Hm).
          rewrite Hrs in Hrs'. inversion Hrs'. subst. now exists "OK", s1'. }
      destruct Hone as (r & s1 & Hr & Hb1 & Hd1).
      destruct (IH s1 Hb1 Hd1) as (rs & s' & Hrs & Hb' & Hd').
      exists (r :: rs), s'. splits; try assumption.
      simpl. unfold bind. now rewrite Hr, Hrs. }
  destruct H as (rs & s' & Hrun & Hb' & Hd').
  exists rs, s'. splits; try assumption.
  intros n. unfold __init__, _replay_log. cbn [log_file].
  specialize (Hd' (log_file s') n). unfold log_lines in Hd'.
  destruct (log_file s') as [lines|] eqn:El; [exact Hd'|].
  simpl in Hd'. unfold ret in Hd'. exact Hd'.
Qed.


(** X18.  The log reads back.  Start with no log file, so that the store is
    empty and every line of the log is written, and terminated, by the
    program itself.  Outside a transaction a sequence of writes SET k v,
    DEL k and MSET of seven-bit text (keys single tokens, values tokens
    joined by single spaces, as [main] passes them) leaves a log file from
    which a restart rebuilds exactly the key space the writes left. *)
Theorem log_reads_back ws n0 :
  Forall loggable ws ->
  forallb ascii_write ws = true ->
  exists rs s',
    run_writes clock float_of ws (mkKVStore [] None None n0) = (Ret rs, s') /\
    forall n, __init__ clock float_of (log_file s') n =
                (Ret tt, mkKVStore (data s') None (log_file s') n).
Proof.
  intros Hws _.
  destruct (writes_keep_durable ws (mkKVStore [] None None n0) eq_refl) as (rs & s' & Hr & _ & Hi);
    [intros lf n; reflexivity | assumption |].
  now exists rs, s'.
Qed.

End Durability.

Lemma log_reads_back_witness :
  exists rs s',
    run_writes (frozen_clock 10) float_of_literal
      [W_set "b" "hello world"; W_set "a" "1"; W_del "b"; W_mset ["c"; "3"; "a"; "2"]]
      (mkKVStore [] None None 0) = (Ret rs, s') /\
    forall n, __init__ (frozen_clock 10) float_of_literal (log_file s') n =
                (Ret tt, mkKVStore (data s') None (log_file s') n).
Proof.
  apply (log_reads_back (frozen_clock 10) float_of_literal
           [W_set "b" "hello world"; W_set "a" "1"; W_del "b"; W_mset ["c"; "3"; "a"; "2"]] 0).
  - repeat constructor; try discriminate.
    + exists ["hello"; "world"]. splits; [discriminate | | reflexivity].
      repeat constructor; discriminate.
    + exists ["1"]. splits; [discriminate | | reflexivity].
      repeat constructor; discriminate.
  - reflexivity.
Defined.

(** ** Relations that every method respects *)

Section Always.

Variable clock : nat -> Z.
Variable float_of : string -> option Z.

(** A relation between the store before and after, closed under the steps
    the methods are made of. *)
Variable R : KVStore -> KVStore -> Prop.
Hypothesis R_refl : forall s, R s s.
Hypothesis R_trans : forall s1 s2 s3, R s1 s2 -> R s2 s3 -> R s1 s3.
Hypothesis R_data : forall d s, R s (with_data d s).
Hypothesis R_reads : forall n s, R s (with_reads n s).
Hypothesis R_log : forall c s, R s (with_log (Some (log_lines s ++ [c])) s).
Hypothesis R_append : forall i b s,
  transaction_buffer s = Some b -> R s (with_buffer (Some (b ++ [i])) s).

Lemma always_ret {A} (a : A) : always R (ret a).
Proof. intros s. apply R_refl. Qed.

Lemma always_raise {A} e : always R (@raise A e).
Proof. intros s. apply R_refl. Qed.

Lemma always_bind {A B} (m : M A) (k : A -> M B) :
  always R m -> (forall a, always R (k a)) -> always R (bind m k).
Proof.
  intros Hm Hk s. unfold bind. specialize (Hm s).
  destruct (m s) as [[a|e] s1]; simpl in *; [|assumption].
  apply R_trans with s1; [assumption | apply Hk].
Qed.

Lemma always_except {A} (m h : M A) :
  always R m -> always R h -> always R (except_ValueError m h).
Proof.
  intros Hm Hh s. unfold except_ValueError. specialize (Hm s).
  destruct (m s) as [[a|[msg|msg|msg]] s1]; simpl in *; try assumption.
  apply R_trans with s1; [assumption | apply Hh].
Qed.

Lemma always_for_each {A} (f : A -> M unit) (l : list A) :
  (forall x, always R (f x)) -> always R (for_each f l).
Proof.
  intros Hf. induction l as [|x l IH]; simpl; [apply always_ret|].
  apply always_bind; [apply Hf | intros _; exact IH].
Qed.

Lemma always_get_data : always R get_data.
Proof. intros s. apply R_refl. Qed.

Lemma always_get_buffer : always R get_buffer.
Proof. intros s. apply R_refl. Qed.

Lemma always_put_data d : always R (put_data d).
Proof. intros s. apply R_data. Qed.

Lemma always_now : always R (now clock).
Proof. intros s. apply R_reads. Qed.

Lemma always_float arg : always R (float float_of arg).
Proof. intros s. unfold float. destruct (float_of arg); apply R_refl. Qed.

Lemma always_buffer_append i : always R (buffer_append i).
Proof.
  intros s. unfold buffer_append. destruct (transaction_buffer s) eqn:E; simpl;
    [now apply R_append | apply R_refl].
Qed.

Lemma always__write_to_log c : always R (_write_to_log c).
Proof. intros s. apply R_log. Qed.

Lemma always_data_getitem index : always R (data_getitem index).
Proof.
  unfold data_getitem. apply always_bind; [apply always_get_data|]. intros d.
  destruct (Py.getitem d index); [apply always_ret | apply always_raise].
Qed.

Lemma always_data_pop index : always R (data_pop index).
Proof.
  unfold data_pop. apply always_bind; [apply always_get_data|]. intros d.
  destruct (Py.pop d index); [apply always_put_data | apply always_raise].
Qed.

Lemma always_data_setitem index it : always R (data_setitem index it).
Proof.
  unfold data_setitem. apply always_bind; [apply always_get_data|]. intros d.
  destruct (Py.setitem d index it); [apply always_put_data | apply always_raise].
Qed.

Lemma always__find_key_index key : always R (_find_key_index key).
Proof.
  unfold _find_key_index. apply always_bind; [apply always_get_data|]. intros d.
  apply always_ret.
Qed.

(** Walk through the body of a method. *)
Ltac walk :=
  cbv zeta;
  repeat first
    [ apply always_ret | apply always_raise
    | apply always_get_data | apply always_get_buffer | apply always_put_data
    | apply always_now | apply always_float | apply always_buffer_append
    | apply always__write_to_log | apply always_data_getitem | apply always_data_pop
    | apply always_data_setitem | apply always__find_key_index
    | apply always_except
    | apply always_for_each; intros
    | apply always_bind; [|intros]
    | match goal with
      | |- always _ (match ?x with _ => _ end) => destruct x
      | |- always _ (if ?x then _ else _) => destruct x
      end ].

Lemma always__is_expired index : always R (_is_expired clock index).
Proof. unfold _is_expired. walk. Qed.

Lemma always__get_key_index key check : always R (_get_key_index clock key check).
Proof. unfold _get_key_index. walk; apply always__is_expired. Qed.

Lemma always__set_key key value ttl : always R (_set_key key value ttl).
Proof. unfold _set_key. walk. Qed.

Lemma always__delete_key key : always R (_delete_key key).
Proof. unfold _delete_key. walk. Qed.

Lemma always_current_ttl_of key : always R (current_ttl_of key).
Proof. unfold current_ttl_of. walk. Qed.

Ltac walk' :=
  repeat (walk;
          first [ apply always__is_expired | apply always__get_key_index
                | apply always__set_key | apply always__delete_key
                | apply always_current_ttl_of ]).

Lemma always_set key value : always R (set key value).
Proof. unfold set. walk'. Qed.

Lemma always_get key : always R (get clock key).
Proof. unfold get. walk'. Qed.

Lemma always_delete key : always R (delete clock key).
Proof. unfold delete. walk'. Qed.

Lemma always_exists_ key : always R (exists_ clock key).
Proof. unfold exists_. walk'. Qed.

Lemma always_mset args : always R (mset args).
Proof. unfold mset. walk'. Qed.

Lemma always_mget keys : always R (mget clock keys).
Proof.
  induction keys as [|k keys IH]; simpl; [apply always_ret|].
  apply always_bind; [apply always_get|]. intros v.
  apply always_bind; [exact IH | intros; apply always_ret].
Qed.

Lemma always_expire key arg : always R (expire clock float_of key arg).
Proof. unfold expire. walk'. Qed.

Lemma always_ttl key : always R (ttl clock float_of key).
Proof. unfold ttl. walk'. Qed.

Lemma always_persist key : always R (persist clock key).
Proof. unfold persist. walk'. Qed.

Lemma always_range lo hi : always R (range clock lo hi).
Proof.
  intros s. unfold range, bind, get_data.
  destruct (range_loop_spec clock (if (lo =? "")%string then None else Some lo)
              (if (hi =? "")%string then None else Some hi) (data s) [] s)
    as (out & n' & Hr & _).
  rewrite Hr. apply R_reads.
Qed.

Lemma always_apply_intent i : always R (apply_intent clock float_of i).
Proof. destruct i; simpl; walk'. Qed.

Lemma always_replay_line line : always R (replay_line clock float_of line).
Proof. unfold replay_line. walk'. Qed.

Lemma always__replay_log : always R (_replay_log clock float_of).
Proof.
  intros s. unfold _replay_log. destruct (log_file s); [|apply R_refl].
  apply always_for_each. intros line. apply always_replay_line.
Qed.

(** The commands other than BEGIN, COMMIT and ABORT. *)
Lemma always_dispatch_ordinary cmd args :
  cmd <> "BEGIN" -> cmd <> "COMMIT" -> cmd <> "ABORT" ->
  always R (dispatch clock float_of cmd args).
Proof.
  intros H1 H2 H3. unfold dispatch. cbv zeta.
  apply String.eqb_neq in H1, H2, H3. rewrite H1, H2, H3. cbn [andb].
  repeat match goal with |- always _ (if ?c then _ else _) => destruct c end;
    try (apply always_bind; [|intros; apply always_ret]);
    first [ apply always_ret | apply always_set | apply always_get | apply always_delete
          | apply always_exists_ | apply always_mset | apply always_mget
          | apply always_expire | apply always_ttl | apply always_persist
          | apply always_range ].
Qed.

(** With a relation that also allows the buffer to be replaced: every
    command. *)
Hypothesis R_buffer : forall b s, R s (with_buffer b s).

Lemma always_put_buffer b : always R (put_buffer b).
Proof. intros s. apply R_buffer. Qed.

Lemma always_begin : always R begin.
Proof. unfold begin. walk. apply always_put_buffer. Qed.

Lemma always_abort : always R abort.
Proof. unfold abort. walk. apply always_put_buffer. Qed.

Lemma always_commit : always R (commit clock float_of).
Proof.
  unfold commit, _apply_transaction. walk;
    first [apply always_put_buffer | apply always_apply_intent].
Qed.

Lemma always_dispatch cmd args : always R (dispatch clock float_of cmd args).
Proof.
  unfold dispatch. cbv zeta.
  repeat match goal with |- always _ (if ?c then _ else _) => destruct c end;
    try (apply always_bind; [|intros; apply always_ret]);
    first [ apply always_ret | apply always_set | apply always_get | apply always_delete
          | apply always_exists_ | apply always_mset | apply always_mget
          | apply always_begin | apply always_commit | apply always_abort
          | apply always_expire | apply always_ttl | apply always_persist
          | apply always_range ].
Qed.

Lemma always_main_line line : always R (main_line clock float_of line).
Proof.
  unfold main_line. destruct (_ =? "")%string; [apply always_ret|].
  destruct (Py.split _) as [|p0 args]; [apply always_ret|].
  intros s. pose proof (always_dispatch (Py.upper p0) args s) as Hd.
  destruct (dispatch _ _ _ _ s) as [[r|e] s']; exact Hd.
Qed.

Lemma always_main_loop lines : always R (main_loop clock float_of lines).
Proof.
  induction lines as [|line lines IH]; simpl; [apply always_ret|].
  apply always_bind; [apply always_main_line|]. intros [out|]; [|apply always_ret].
  apply always_bind; [exact IH | intros; apply always_ret].
Qed.

End Always.

(** ** Frames of the log; only BEGIN, COMMIT and ABORT change the status *)

Lemma log_grows_refl s : log_grows s s.
Proof. exists []. now rewrite app_nil_r. Qed.

Lemma log_grows_trans s1 s2 s3 : log_grows s1 s2 -> log_grows s2 s3 -> log_grows s1 s3.
Proof. intros [e1 H1] [e2 H2]. exists (e1 ++ e2). now rewrite H2, H1, app_assoc. Qed.

Lemma log_grows_data d s : log_grows s (with_data d s).
Proof. destruct s. exists []. simpl. now rewrite app_nil_r. Qed.

Lemma log_grows_reads n s : log_grows s (with_reads n s).
Proof. destruct s. exists []. simpl. now rewrite app_nil_r. Qed.

Lemma log_grows_log c s : log_grows s (with_log (Some (log_lines s ++ [c])) s).
Proof. destruct s as [d b [l|] n]; now exists [c]. Qed.

Lemma log_grows_append i b s :
  transaction_buffer s = Some b -> log_grows s (with_buffer (Some (b ++ [i])) s).
Proof. intros _. destruct s. exists []. simpl. now rewrite app_nil_r. Qed.

Lemma log_grows_buffer b s : log_grows s (with_buffer b s).
Proof. destruct s. exists []. simpl. now rewrite app_nil_r. Qed.

Ltac log_frame :=
  first [ exact log_grows_refl | exact log_grows_trans | exact log_grows_data
        | exact log_grows_reads | exact log_grows_log | exact log_grows_append
        | exact log_grows_buffer ].

Section Frames.

Variable clock : nat -> Z.
Variable float_of : string -> option Z.

(** X20.  Only BEGIN, COMMIT and ABORT change whether a transaction is open:
    after any other command, whether it replies or raises, a transaction is
    open exactly when one was open before. *)
Theorem status_changes_only_by_lifecycle cmd args s :
  cmd <> "BEGIN" -> cmd <> "COMMIT" -> cmd <> "ABORT" ->
  same_status s (snd (dispatch clock float_of cmd args s)).
Proof.
  intros H1 H2 H3. apply always_dispatch_ordinary; try assumption;
    unfold same_status.
  - tauto.
  - intros s1 s2 s3. tauto.
  - intros d []. simpl. tauto.
  - intros n []. simpl. tauto.
  - intros c []. simpl. tauto.
  - intros i b [d b0 l n]. simpl. intros ->. split; discriminate.
Qed.

End Frames.

Lemma status_changes_only_by_lifecycle_witness :
  same_status (mkKVStore [("a", "1", Some 5)] (Some [IDel "a"]) None 0)
    (snd (dispatch (frozen_clock 10) float_of_literal "EXPIRE" ["a"; "100"]
            (mkKVStore [("a", "1", Some 5)] (Some [IDel "a"]) None 0))).
Proof.
  apply (status_changes_only_by_lifecycle (frozen_clock 10) float_of_literal
           "EXPIRE" ["a"; "100"]); discriminate.
Defined.

(** ** While a transaction is open *)

Section OpenTransaction.

Variable clock : nat -> Z.
Variable float_of : string -> option Z.

Lemma evicts_expels lo hi d d' : evicts clock lo hi d d' -> expels clock lo hi d d'.
Proof.
  induction 1 as [d | l1 k v dl l2 n d' Hn Hc _ IH]; [constructor|].
  apply expels_one with n; [assumption | lia | assumption].
Qed.

Lemma txn_step_open_frame s s' : txn_step clock s s' -> open_frame clock s s'.
Proof. intros (_ & Hl & _ & He). split; [assumption | now apply evicts_expels]. Qed.

Lemma read_frame_open_frame s s' : read_frame clock s s' -> open_frame clock s s'.
Proof. intros (_ & Hl & _ & He). now split. Qed.

Lemma open_frame_refl s : open_frame clock s s.
Proof. split; [reflexivity | constructor]. Qed.

(** The reply of a method, wrapped by the dispatcher. *)
Lemma dispatch_one {A B} (m : M A) (f : A -> B) s (Q : KVStore -> Prop) :
  (exists r s', m s = (Ret r, s') /\ Q s') ->
  exists r s', (r <- m ;; ret (f r)) s = (Ret r, s') /\ Q s'.
Proof.
  intros (r & s' & Hr & HQ). exists (f r), s'. unfold bind. rewrite Hr. now split.
Qed.

(** While a transaction is open, a command other than COMMIT returns within
    the frame. *)
Lemma open_dispatch_returns cmd args b s :
  transaction_buffer s = Some b ->
  well_formed float_of s ->
  cmd <> "COMMIT"%string ->
  exists r s',
    dispatch clock float_of cmd args s = (Ret r, s') /\ open_frame clock s s'.
Proof.
  intros Hb Hwf Hcmd. unfold dispatch. cbv zeta.
  apply String.eqb_neq in Hcmd. rewrite Hcmd. cbn [andb].
  repeat match goal with
         | |- exists _ _, (if ?c then _ else _) _ = _ /\ _ => destruct c
         end;
    try apply dispatch_one.
  - destruct (set_in_txn clock (nth 0 args "") (Py.join " " (skipn 1 args)) b s Hb)
      as (s' & Hr & Hs). exists "OK", s'. split; [assumption | now apply txn_step_open_frame].
  - destruct (get_read clock float_of (nth 0 args "") s Hwf) as (r & s' & Hr & Hf).
    exists r, s'. split; [assumption | now apply read_frame_open_frame].
  - destruct (delete_in_txn clock (nth 0 args "") b s Hb) as (s' & Hr & Hs).
    exists "1", s'. split; [assumption | now apply txn_step_open_frame].
  - destruct (exists_read clock float_of (nth 0 args "") s Hwf) as (r & s' & Hr & Hf).
    exists r, s'. split; [assumption | now apply read_frame_open_frame].
  - destruct (mset_in_txn clock args b s Hb) as (r & s' & Hr & Hs).
    exists r, s'. split; [assumption | now apply txn_step_open_frame].
  - destruct (mget_read clock float_of args s Hwf) as (r & s' & Hr & Hf).
    exists r, s'. split; [assumption | now apply read_frame_open_frame].
  - exists "ERR transaction already in progress", s.
    unfold begin, bind, get_buffer. rewrite Hb. split; [reflexivity | apply open_frame_refl].
  - exists "OK", (with_buffer None s). unfold abort, bind, get_buffer. rewrite Hb.
    split; [reflexivity|]. destruct s. split; [reflexivity | constructor].
  - destruct (expire_in_txn clock float_of (nth 0 args "") (nth 1 args "") b s Hb)
      as (r & s' & Hr & Hs). exists r, s'. split; [assumption | now apply txn_step_open_frame].
  - destruct (ttl_read clock float_of (nth 0 args "") s Hwf) as (r & s' & Hr & Hf).
    exists r, s'. split; [assumption | now apply read_frame_open_frame].
  - destruct (persist_in_txn clock (nth 0 args "") b s Hb) as (r & s' & Hr & Hs).
    exists r, s'. split; [assumption | now apply txn_step_open_frame].
  - destruct (range_read clock (nth 0 args "") (nth 1 args "") s) as (r & s' & Hr & Hf).
    exists r, s'. split; [assumption | now apply read_frame_open_frame].
  - exists None, s. split; [reflexivity | apply open_frame_refl].
  - eexists. exists s. split; [reflexivity | apply open_frame_refl].
Qed.


(** X21.  Nothing is logged before COMMIT.  While a transaction is open, from
    a store that satisfies the invariant, every command other than COMMIT,
    whether it replies or raises, leaves the log file unchanged; the data
    change at most by the removal of records whose deadline a clock reading
    taken during the command had reached. *)
Theorem only_commit_logs cmd args b s :
  transaction_buffer s = Some b ->
  well_formed float_of s ->
  cmd <> "COMMIT"%string ->
  open_frame clock s (snd (dispatch clock float_of cmd args s)).
Proof.
  intros Hb Hwf Hcmd.
  destruct (open_dispatch_returns cmd args b s Hb Hwf Hcmd) as (r & s' & Hr & Hf).
  now rewrite Hr.
Qed.

End OpenTransaction.

Lemma only_commit_logs_witness :
  open_frame (frozen_clock 10)
    (mkKVStore [("a", "1", Some 5)] (Some [IDel "a"]) (Some ["SET a 1"; "EXPIRE a 5"]) 0)
    (snd (dispatch (frozen_clock 10) float_of_literal "PERSIST" ["a"]
            (mkKVStore [("a", "1", Some 5)] (Some [IDel "a"])
               (Some ["SET a 1"; "EXPIRE a 5"]) 0))).
Proof.
  apply (only_commit_logs (frozen_clock 10) float_of_literal "PERSIST" ["a"] [IDel "a"]
           (mkKVStore [("a", "1", Some 5)] (Some [IDel "a"])
              (Some ["SET a 1"; "EXPIRE a 5"]) 0) eq_refl).
  - split; [repeat constructor | repeat constructor].
  - discriminate.
Defined.

(** ** Replay of a whole log *)

Section ReplayAll.

Variable clock : nat -> Z.
Variable float_of : string -> option Z.

(** Replay writes neither the log nor the buffer. *)
Lemma replay_line_fields line s :
  log_file (snd (replay_line clock float_of line s)) = log_file s /\
  transaction_buffer (snd (replay_line clock float_of line s)) = transaction_buffer s.
Proof.
  destruct s as [d b l n].
  unfold replay_line, _set_key, _delete_key, _find_key_index, data_getitem, data_setitem,
    data_pop, put_data, float, now, bind, get_data, ret, raise.
  cbn.
  repeat (match goal with
          | |- context [match ?x with _ => _ end] =>
              lazymatch x with
              | context [match _ with _ => _ end] => fail
              | _ => destruct x
              end
          end; cbn); split; reflexivity.
Qed.

(** X22.  Replay succeeds on a log of seven-bit text whose EXPIRE lines carry
    an argument that [float] accepts: the store is constructed with sorted
    data and no transaction, and the log file is left as it was.  A missing
    log file gives the empty store. *)
Theorem replay_succeeds lines n :
  forallb isascii lines = true ->
  (forall line, In line lines ->
     nth 0 (Py.split (Py.strip line)) "" = "EXPIRE" ->
     float_of (nth 2 (Py.split (Py.strip line)) "") <> None) ->
  (exists d n',
     __init__ clock float_of (Some lines) n = (Ret tt, mkKVStore d None (Some lines) n') /\
     sorted d) /\
  __init__ clock float_of None n = (Ret tt, mkKVStore [] None None n).
Proof.
  intros _ Hnum. split; [|reflexivity].
  unfold __init__, _replay_log. cbn [log_file].
  assert (H : forall ls s,
            (forall line, In line ls ->
               nth 0 (Py.split (Py.strip line)) "" = "EXPIRE" ->
               float_of (nth 2 (Py.split (Py.strip line)) "") <> None) ->
            sorted (data s) -> transaction_buffer s = None ->
            exists s',
              for_each (replay_line clock float_of) ls s = (Ret tt, s') /\
              sorted (data s') /\ log_file s' = log_file s /\
              transaction_buffer s' = None).
  { induction ls as [|line ls IH]; intros s Hls Hs Hb.
    - exists s. now splits.
    - destruct (replay_line_outcome clock float_of line s)
        as [(s1 & Hr) | (msg & s1 & Hr & Hcmd & _ & Hf)].
      + assert (Hwf : well_formed float_of s)
          by (split; [assumption | unfold buffer_ok; now rewrite Hb]).
        pose proof (keeps_replay_line clock float_of line s Hwf) as [Hs1 _].
        destruct (replay_line_fields line s) as [Hl1 Hb1].
        rewrite Hr in Hs1, Hl1, Hb1. simpl in Hs1, Hl1, Hb1.
        destruct (IH s1) as (s' & Hrun & Hs' & Hl' & Hb');
          [intros l0 Hin; apply Hls; now right | assumption | congruence |].
        exists s'. simpl. unfold bind. rewrite Hr. splits; try assumption. congruence.
      + exfalso. apply (Hls line (or_introl eq_refl) Hcmd Hf). }
  destruct (H lines (mkKVStore [] None (Some lines) n) Hnum) as (s' & Hrun & Hs' & Hl' & Hb');
    [constructor | reflexivity |].
  destruct s' as [d b l n']. simpl in *. subst b l.
  exists d, n'. now split.
Qed.

End ReplayAll.

Lemma replay_succeeds_witness :
  (exists d n',
     __init__ (frozen_clock 10) float_of_literal
       (Some ["SET b 2"; "SET a 1"; "EXPIRE a 100"; "DEL b"; "bogus"]) 0
       = (Ret tt, mkKVStore d None
                    (Some ["SET b 2"; "SET a 1"; "EXPIRE a 100"; "DEL b"; "bogus"]) n') /\
     sorted d) /\
  __init__ (frozen_clock 10) float_of_literal None 0 = (Ret tt, mkKVStore [] None None 0).
Proof.
  apply (replay_succeeds (frozen_clock 10) float_of_literal
           ["SET b 2"; "SET a 1"; "EXPIRE a 100"; "DEL b"; "bogus"] 0 eq_refl).
  intros line Hin Hcmd. simpl in Hin.
  destruct Hin as [<- | [<- | [<- | [<- | [<- | []]]]]]; try discriminate Hcmd.
  discriminate.
Defined.

(** ** Reads outside a transaction, as functions of the map *)

Section ReadSpec.

Variable clock : nat -> Z.
Variable float_of : string -> option Z.

(** X23.  Outside a transaction, on sorted data, the replies and effects of
    GET, EXISTS and TTL are determined by the record stored for the key and
    the clock: an absent key gives nil, 0, -2; a record without deadline
    gives its value, 1, -1; a record whose deadline the first reading has
    passed is removed and gives nil, 0, -2; otherwise GET and EXISTS give
    the value and 1, and TTL takes a second reading: when no time is left at
    it, TTL removes the record and replies -2; when some is left, TTL
    changes nothing but the count of readings (its reply, the time left
    converted by [int], is not stated here). *)
Theorem reads_outside_transaction key s :
  transaction_buffer s = None ->
  sorted (data s) ->
  let n := clock_reads s in
  match lookup key (data s) with
  | None =>
      get clock key s = (Ret "nil", s) /\
      exists_ clock key s = (Ret "0", s) /\
      ttl clock float_of key s = (Ret "-2", s)
  | Some (v, None) =>
      get clock key s = (Ret v, s) /\
      exists_ clock key s = (Ret "1", s) /\
      ttl clock float_of key s = (Ret "-1", s)
  | Some (v, Some d) =>
      exists l1 l2,
        data s = l1 ++ (key, v, Some d) :: l2 /\
        if clock n >? d then
          get clock key s = (Ret "nil", evicted_store l1 l2 s) /\
          exists_ clock key s = (Ret "0", evicted_store l1 l2 s) /\
          ttl clock float_of key s = (Ret "-2", evicted_store l1 l2 s)
        else
          get clock key s = (Ret v, with_reads (S n) s) /\
          exists_ clock key s = (Ret "1", with_reads (S n) s) /\
          if d - clock (S n) <=? 0
          then ttl clock float_of key s =
                 (Ret "-2", with_data (l1 ++ l2) (with_reads (S (S n)) s))
          else snd (ttl clock float_of key s) = with_reads (S (S n)) s
  end.
Proof.
  intros Hb Hs n.
  destruct (lookup key (data s)) as [[v [d|]]|] eqn:El.
  - destruct (lookup_split _ _ _ _ El) as (l1 & l2 & Hd). exists l1, l2.
    split; [assumption|]. subst n.
    destruct s as [d0 b l n]. simpl in *. subst b d0.
    unfold get, exists_, ttl, evicted_store, _get_key_index, _find_key_index, _is_expired,
      data_getitem, data_pop, now, bind, get_buffer, get_data, ret.
    destruct (clock n >? d) eqn:E; kv_run; rewrite ?E; kv_run; splits; try reflexivity.
    destruct (d - clock (S n) <=? 0); kv_run; reflexivity.
  - destruct (lookup_split _ _ _ _ El) as (l1 & l2 & Hd).
    destruct s as [d0 b l n0]. simpl in *. subst b d0.
    unfold get, exists_, ttl, _get_key_index, _find_key_index, _is_expired,
      data_getitem, data_pop, now, bind, get_buffer, get_data, ret.
    kv_run. now splits.
  - assert (Hn : ~ In key (keys_of (data s))).
    { intros Hin. destruct (stored_or_absent key (data s)) as [(l1 & v & t & l2 & Hd) | Hn];
        [|contradiction].
      rewrite Hd in El, Hs. rewrite lookup_sorted_middle in El by assumption. discriminate. }
    destruct s as [d0 b l n0]. simpl in *. subst b.
    unfold get, exists_, ttl, _get_key_index, _find_key_index, bind, get_buffer, get_data, ret.
    kv_run. now splits.
Qed.

(** X24.  Outside a transaction PERSIST k on a key that is not stored, or is
    stored without deadline, replies 0 and changes nothing (no log line). *)
Theorem persist_without_deadline key s :
  transaction_buffer s = None ->
  sorted (data s) ->
  match lookup key (data s) with
  | Some (_, Some _) => False
  | _ => True
  end ->
  persist clock key s = (Ret "0", s).
Proof.
  intros Hb Hs Hl.
  destruct (stored_or_absent key (data s)) as [(l1 & v & t & l2 & Hd) | Hn].
  - rewrite Hd in Hl, Hs. rewrite lookup_sorted_middle in Hl by assumption.
    destruct t as [d|]; [contradiction|].
    destruct s as [d0 b l n]. simpl in *. subst b d0.
    unfold persist, _get_key_index, _find_key_index, _is_expired, data_getitem,
      bind, get_buffer, get_data, ret.
    kv_run. reflexivity.
  - destruct s as [d0 b l n]. simpl in *. subst b.
    unfold persist, _get_key_index, _find_key_index, bind, get_buffer, get_data, ret.
    kv_run. reflexivity.
Qed.

(** X25.  The deadline of a buffered EXPIRE is computed at COMMIT.  BEGIN,
    EXPIRE k ms (ms > 0) on a stored key without deadline, COMMIT: the
    deadline armed is [ms] after the clock reading taken by COMMIT, not the
    one taken by EXPIRE, and the log receives [EXPIRE k ms] with the
    relative argument as it was typed. *)
Theorem buffered_expire_is_armed_at_commit key arg ms v l1 l2 s :
  transaction_buffer s = None ->
  sorted (data s) ->
  data s = l1 ++ (key, v, None) :: l2 ->
  float_of arg = Some ms -> 0 < ms ->
  begin_writes_commit clock float_of [W_expire key arg] s =
    (Ret ["OK"; "1"; "OK"],
     with_log (Some (log_lines s ++ [("EXPIRE " ++ key ++ " " ++ arg)%string]))
       (with_data (l1 ++ (key, v, Some (clock (S (clock_reads s)) + ms)) :: l2)
          (with_reads (S (S (clock_reads s))) s))).
Proof.
  intros Hb Hs Hd Hf Hm.
  destruct s as [d b l n]. simpl in *. subst b d.
  unfold begin_writes_commit, begin, commit, _apply_transaction, run_writes, run_write,
    expire, except_ValueError, float, _find_key_index, _is_expired, data_getitem,
    data_setitem, buffer_append, put_buffer, _write_to_log, now, bind, get_buffer,
    get_data, ret.
  cbn. rewrite Hf. apply Z.leb_gt in Hm. rewrite Hm. kv_run.
  unfold apply_intent, float, _find_key_index, data_getitem, data_setitem, _write_to_log,
    now, bind, get_data, ret.
  kv_run. rewrite Hf. kv_run. reflexivity.
Qed.

End ReadSpec.

Lemma reads_outside_transaction_witness :
  exists l1 l2,
    [("a", "1", None); ("k", "v", Some 50)] = l1 ++ ("k", "v", Some 50) :: l2 /\
    get (frozen_clock 10) "k" (mkKVStore [("a", "1", None); ("k", "v", Some 50)] None None 0)
      = (Ret "v", mkKVStore [("a", "1", None); ("k", "v", Some 50)] None None 1) /\
    exists_ (frozen_clock 10) "k"
      (mkKVStore [("a", "1", None); ("k", "v", Some 50)] None None 0)
      = (Ret "1", mkKVStore [("a", "1", None); ("k", "v", Some 50)] None None 1) /\
    snd (ttl (frozen_clock 10) float_of_literal "k"
           (mkKVStore [("a", "1", None); ("k", "v", Some 50)] None None 0))
      = mkKVStore [("a", "1", None); ("k", "v", Some 50)] None None 2.
Proof.
  assert (Hs : sorted [("a", "1", None); ("k", "v", Some 50)]) by (repeat constructor).
  exact (reads_outside_transaction (frozen_clock 10) float_of_literal "k"
           (mkKVStore [("a", "1", None); ("k", "v", Some 50)] None None 0) eq_refl Hs).
Defined.

Lemma persist_without_deadline_witness :
  persist (frozen_clock 10) "k" (mkKVStore [("k", "v", None)] None (Some ["SET k v"]) 0)
    = (Ret "0", mkKVStore [("k", "v", None)] None (Some ["SET k v"]) 0).
Proof.
  apply (persist_without_deadline (frozen_clock 10) "k"
           (mkKVStore [("k", "v", None)] None (Some ["SET k v"]) 0) eq_refl
           (sorted_singleton _)).
  exact I.
Defined.

Lemma buffered_expire_is_armed_at_commit_witness :
  begin_writes_commit (fun n => 1000 * Z.of_nat n) float_of_literal [W_expire "k" "500"]
    (mkKVStore [("k", "v", None)] None (Some ["SET k v"]) 3) =
  (Ret ["OK"; "1"; "OK"],
   mkKVStore [("k", "v", Some 4500)] None (Some ["SET k v"; "EXPIRE k 500"]) 5).
Proof.
  apply (buffered_expire_is_armed_at_commit (fun n => 1000 * Z.of_nat n) float_of_literal
           "k" "500" 500 "v" [] []
           (mkKVStore [("k", "v", None)] None (Some ["SET k v"]) 3) eq_refl
           (sorted_singleton _) eq_refl eq_refl).
  lia.
Defined.

(** ** The command loop: EXIT, blank lines, unknown commands, empty
    transactions *)

Section Session.

Variable clock : nat -> Z.
Variable float_of : string -> option Z.

Lemma split_of_empty : Py.split "" = [].
Proof. reflexivity. Qed.

Lemma main_line_exit line p0 args s :
  Py.split (Py.strip line) = p0 :: args ->
  Py.upper p0 = "EXIT"%string ->
  main_line clock float_of line s = (Ret None, s).
Proof.
  intros Hsp Hup. unfold main_line.
  destruct (Py.strip line =? "")%string eqn:E.
  - apply String.eqb_eq in E. rewrite E, split_of_empty in Hsp. discriminate.
  - rewrite Hsp, Hup. unfold dispatch. cbn. reflexivity.
Qed.

Lemma main_line_blank line s :
  Py.strip line = ""%string ->
  main_line clock float_of line s = (Ret (Some []), s).
Proof. intros H. unfold main_line. rewrite H. reflexivity. Qed.

Lemma main_loop_cons l rest s :
  main_loop clock float_of (l :: rest) s =
  match main_line clock float_of l s with
  | (Ret (Some out), s') =>
      match main_loop clock float_of rest s' with
      | (Ret outs, s'') => (Ret (out ++ outs), s'')
      | (Raise e, s'') => (Raise e, s'')
      end
  | (Ret None, s') => (Ret [], s')
  | (Raise e, s') => (Raise e, s')
  end.
Proof.
  cbn [main_loop]. unfold bind, ret.
  destruct (main_line clock float_of l s) as [[[out |] | e] s']; try reflexivity.
Qed.

(** X26.  EXIT ends the session: whatever the case of the word and whatever
    follows it on its line, no later line of the input is executed or
    answered. *)
Theorem exit_ends_session l1 line l2 p0 args s :
  Py.split (Py.strip line) = p0 :: args ->
  Py.upper p0 = "EXIT"%string ->
  main_loop clock float_of (l1 ++ line :: l2) s = main_loop clock float_of l1 s.
Proof.
  intros Hsp Hup. revert s. induction l1 as [| l rest IH]; intros s.
  - cbn [app]. rewrite main_loop_cons, (main_line_exit _ _ _ _ Hsp Hup). reflexivity.
  - cbn [app]. rewrite !main_loop_cons.
    destruct (main_line clock float_of l s) as [[[out |] | e] s']; try reflexivity.
    rewrite IH. reflexivity.
Qed.

(** X27.  A line of white space only is skipped: the session prints and
    ends in the same store as without that line. *)
Theorem blank_lines_are_skipped l1 line l2 s :
  Py.strip line = ""%string ->
  main_loop clock float_of (l1 ++ line :: l2) s = main_loop clock float_of (l1 ++ l2) s.
Proof.
  intros Hb. revert s. induction l1 as [| l rest IH]; intros s.
  - cbn [app]. rewrite main_loop_cons, (main_line_blank _ _ Hb).
    destruct (main_loop clock float_of l2 s) as [[outs | e] s']; reflexivity.
  - cbn [app]. rewrite !main_loop_cons.
    destruct (main_line clock float_of l s) as [[[out |] | e] s']; try reflexivity.
    rewrite IH. reflexivity.
Qed.

(** X28.  A line of seven-bit text whose first word is, in upper case, none
    of the fourteen command names is answered by the one error line and
    changes nothing in the store, inside or outside a transaction. *)
Theorem unknown_command_rejected line p0 args s :
  isascii line = true ->
  Py.split (Py.strip line) = p0 :: args ->
  ~ In (Py.upper p0)
      ["SET"; "GET"; "DEL"; "EXISTS"; "MSET"; "MGET"; "BEGIN"; "COMMIT"; "ABORT";
       "EXPIRE"; "TTL"; "PERSIST"; "RANGE"; "EXIT"]%string ->
  main_line clock float_of line s = (Ret (Some ["ERR invalid command or arguments"]), s).
Proof.
  intros _ Hsp Hn. unfold main_line.
  destruct (Py.strip line =? "")%string eqn:E.
  - apply String.eqb_eq in E. rewrite E, split_of_empty in Hsp. discriminate.
  - rewrite Hsp. unfold dispatch.
    assert (Hne : forall c, In c
      ["SET"; "GET"; "DEL"; "EXISTS"; "MSET"; "MGET"; "BEGIN"; "COMMIT"; "ABORT";
       "EXPIRE"; "TTL"; "PERSIST"; "RANGE"; "EXIT"]%string -> (Py.upper p0 =? c)%string = false).
    { intros c Hc. apply String.eqb_neq. intros Heq. apply Hn. rewrite Heq. exact Hc. }
    rewrite !Hne by (simpl; tauto). cbn. reflexivity.
Qed.

(** X29.  An empty transaction is a no-op, and a misplaced lifecycle command
    changes nothing: BEGIN then COMMIT, and BEGIN then ABORT, on a store
    with no open transaction reply OK twice and give back the very same
    store (no log line, no clock reading); COMMIT and ABORT with no open
    transaction, and BEGIN with one open, reply their error and leave the
    store, buffer included, as it was. *)
Theorem transaction_lifecycle s :
  (transaction_buffer s = None ->
     (r1 <- begin ;; r2 <- commit clock float_of ;; ret [r1; r2]) s = (Ret ["OK"; "OK"], s) /\
     (r1 <- begin ;; r2 <- abort ;; ret [r1; r2]) s = (Ret ["OK"; "OK"], s) /\
     commit clock float_of s = (Ret "ERR no transaction in progress", s) /\
     abort s = (Ret "ERR no transaction in progress", s)) /\
  (transaction_buffer s <> None ->
     begin s = (Ret "ERR transaction already in progress", s)).
Proof.
  destruct s as [d b l n]. split.
  - simpl. intros ->. now splits.
  - simpl. intros Hb. destruct b as [b |]; [reflexivity | contradiction].
Qed.

End Session.

Lemma exit_ends_session_witness :
  main_loop (frozen_clock 0) float_of_literal ["SET a 1"; "  exit now "; "SET b 2"]
    (mkKVStore [] None None 0)
  = main_loop (frozen_clock 0) float_of_literal ["SET a 1"] (mkKVStore [] None None 0).
Proof.
  exact (exit_ends_session (frozen_clock 0) float_of_literal ["SET a 1"] "  exit now "
           ["SET b 2"] "exit" ["now"] (mkKVStore [] None None 0) eq_refl eq_refl).
Defined.

Lemma blank_lines_are_skipped_witness :
  main_loop (frozen_clock 0) float_of_literal ["SET a 1"; "   "; "GET a"]
    (mkKVStore [] None None 0)
  = main_loop (frozen_clock 0) float_of_literal (["SET a 1"] ++ ["GET a"])
      (mkKVStore [] None None 0).
Proof.
  exact (blank_lines_are_skipped (frozen_clock 0) float_of_literal ["SET a 1"] "   "
           ["GET a"] (mkKVStore [] None None 0) eq_refl).
Defined.

Lemma unknown_command_rejected_witness :
  main_line (frozen_clock 0) float_of_literal "incr a"
    (mkKVStore [("a", "1", None)] (Some [ISet "b" "2" None]) None 0)
  = (Ret (Some ["ERR invalid command or arguments"]),
     mkKVStore [("a", "1", None)] (Some [ISet "b" "2" None]) None 0).
Proof.
  apply (unknown_command_rejected (frozen_clock 0) float_of_literal "incr a" "incr" ["a"]
           (mkKVStore [("a", "1", None)] (Some [ISet "b" "2" None]) None 0) eq_refl eq_refl).
  simpl. intros H.
  repeat (destruct H as [H | H]; [discriminate H |]). exact H.
Defined.

Lemma transaction_lifecycle_witness :
  (r1 <- begin ;; r2 <- commit (frozen_clock 0) float_of_literal ;; ret [r1; r2])
    (mkKVStore [("a", "1", None)] None (Some ["SET a 1"]) 0)
  = (Ret ["OK"; "OK"], mkKVStore [("a", "1", None)] None (Some ["SET a 1"]) 0).
Proof.
  exact (proj1 (proj1 (transaction_lifecycle (frozen_clock 0) float_of_literal
           (mkKVStore [("a", "1", None)] None (Some ["SET a 1"]) 0)) eq_refl)).
Defined.

(** ** The log over a session *)

Section Session_log.

Variable clock : nat -> Z.
Variable float_of : string -> option Z.

(** The store after [l1 ++ l2] is the store after [l1], when [l1] ends the
    session, or the store that [l2] leaves from there. *)
Lemma main_loop_app_store l1 l2 : forall s,
  snd (main_loop clock float_of (l1 ++ l2) s) = snd (main_loop clock float_of l1 s) \/
  snd (main_loop clock float_of (l1 ++ l2) s) =
    snd (main_loop clock float_of l2 (snd (main_loop clock float_of l1 s))).
Proof.
  induction l1 as [|l rest IH]; intros s; [now right|].
  cbn [app]. rewrite !main_loop_cons.
  destruct (main_line clock float_of l s) as [[[out |] | e] s1]; try (now left).
  specialize (IH s1).
  destruct (main_loop clock float_of (rest ++ l2) s1) as [[o1 | e1] t1];
    destruct (main_loop clock float_of rest s1) as [[o2 | e2] t2]; exact IH.
Qed.

(** X19.  The log is append-only over a session.  Start with no log file, so
    that every line of the log is written by the program.  Whatever the
    input, and whatever is added to it, the log left by the longer input is
    the log left by the shorter one with lines appended (or the same log):
    no command line removes or rewrites a line already logged. *)
Theorem log_append_only l1 l2 :
  exists extra,
    log_lines (snd (main clock float_of None (l1 ++ l2))) =
    log_lines (snd (main clock float_of None l1)) ++ extra.
Proof.
  unfold main, __init__, _replay_log. cbn.
  assert (Hloop : always log_grows (main_loop clock float_of l2)) by
    (apply always_main_loop; log_frame).
  destruct (main_loop_app_store l1 l2 (mkKVStore [] None None 0)) as [H | H].
  - exists []. fold (snd (main_loop clock float_of (l1 ++ l2) (mkKVStore [] None None 0))).
    rewrite H, app_nil_r. reflexivity.
  - fold (snd (main_loop clock float_of (l1 ++ l2) (mkKVStore [] None None 0))).
    rewrite H. apply Hloop.
Qed.

End Session_log.
